(** * library.js: subgrid Add-button limiter and conditional form fields

    A shallow embedding of [library.grid.limitSubgridAdds] and
    [library.form.setupConditionalFields] together with the properties
    their description states about them.

    Conventions.
    - A JavaScript string is a [string]: a sequence of code units below 256.
    - A JavaScript number is a [JSNum]: NaN, an infinity, or a rational
      (every finite double is a rational; the code only compares numbers
      and tests them for truthiness, it never does arithmetic on them).
    - The DOM is an explicit store; DOM nodes are positions in it. *)

From Stdlib Require Import List String Ascii Bool Arith ZArith QArith Qround Lia.
Import ListNotations.

Close Scope Q_scope.
Open Scope string_scope.
Open Scope list_scope.

(* ====================================================================== *)
(** ** JavaScript values shared by both namespaces *)
(* ====================================================================== *)

Inductive JSNum : Type :=
| NaN
| Inf (negative : bool)
| Fin (q : Q).

(** ToBoolean on a number: NaN, +0 and -0 are falsy. *)
Definition num_truthy (n : JSNum) : bool :=
  match n with
  | NaN => false
  | Inf _ => true
  | Fin q => negb (Qeq_bool q 0%Q)
  end.

(** [a || b] for a left operand that is a number. *)
Definition num_or (a b : JSNum) : JSNum := if num_truthy a then a else b.

(** [i < n] for a non-negative integer [i] (a row count, a loop counter). *)
Definition nat_lt_num (i : nat) (n : JSNum) : bool :=
  match n with
  | NaN => false
  | Inf negative => negb negative
  | Fin q => negb (Qle_bool q (inject_Z (Z.of_nat i)))
  end.

Definition three : JSNum := Fin (3 # 1)%Q.

(* ====================================================================== *)
(** ** library.form: strings *)
(* ====================================================================== *)

Module Form.

Definition code (c : ascii) : nat := nat_of_ascii c.

Definition between (lo hi n : nat) : bool :=
  Nat.leb lo n && Nat.leb n hi.

(** [toUpperCase] and [toLowerCase] on the ASCII letters. The code only
    compares the results with the ASCII literals "SELECT", "checkbox" and
    "radio"; no other code unit below 256 is mapped into those words, so
    the other code units are left in place. *)
Definition upper_char (c : ascii) : ascii :=
  if between 97 122 (code c) then ascii_of_nat (code c - 32) else c.

Definition lower_char (c : ascii) : ascii :=
  if between 65 90 (code c) then ascii_of_nat (code c + 32) else c.

Fixpoint map_string (f : ascii -> ascii) (s : string) : string :=
  match s with
  | EmptyString => EmptyString
  | String c r => String (f c) (map_string f r)
  end.

Definition toUpperCase : string -> string := map_string upper_char.
Definition toLowerCase : string -> string := map_string lower_char.

(** White space and line terminators among the code units below 256:
    TAB, LF, VT, FF, CR, SP and NBSP. *)
Definition is_space (c : ascii) : bool :=
  let n := code c in
  between 9 13 n || Nat.eqb n 32 || Nat.eqb n 160.

Fixpoint trimStart (s : string) : string :=
  match s with
  | EmptyString => EmptyString
  | String c r => if is_space c then trimStart r else s
  end.

(** Drops the trailing white space: a character is kept when it is not a
    space or when something is kept after it. *)
Fixpoint trimEnd (s : string) : string :=
  match s with
  | EmptyString => EmptyString
  | String c r =>
      match trimEnd r with
      | EmptyString => if is_space c then EmptyString else String c EmptyString
      | r' => String c r'
      end
  end.

Definition trim (s : string) : string := trimEnd (trimStart s).

Definition is_digit (c : ascii) : bool := between 48 57 (code c).

Fixpoint all_digits (s : string) : bool :=
  match s with
  | EmptyString => true
  | String c r => is_digit c && all_digits r
  end.

(** [\d+$] *)
Definition digits1 (s : string) : bool :=
  match s with
  | EmptyString => false
  | String _ _ => all_digits s
  end.

(** [/^-?\d+$/.test(v)] *)
Definition int_literal (v : string) : bool :=
  match v with
  | String "-" r => digits1 r
  | _ => digits1 v
  end.

Fixpoint digits_value (acc : Z) (s : string) : Z :=
  match s with
  | EmptyString => acc
  | String c r => digits_value (10 * acc + Z.of_nat (code c - 48)) r
  end.

(** The Number values [parseInt] returns on a decimal literal: the two
    zeros ([Int 0] is +0), the other integers that are doubles, and the
    two infinities. *)
Inductive IntNumber : Type :=
| NegZero
| Int (z : Z)
| Infinity (negative : bool).

(** The double nearest to a non-negative integer, ties going to the even
    significand: the integer itself below 2^53, otherwise a multiple of
    the spacing of the doubles at its size, and infinity once that
    multiple reaches 2^1024. Engines read every digit of the literal
    (the standard also lets an implementation ignore the digits after
    the twentieth; none of the engines in use does). *)
Definition to_double (n : Z) : IntNumber :=
  if (n <? 2 ^ 53)%Z then Int n
  else
    let shift := (Z.log2 n - 52)%Z in
    let q := (n / 2 ^ shift)%Z in
    let r := (n mod 2 ^ shift)%Z in
    let half := (2 ^ (shift - 1))%Z in
    let q' := if (half <? r)%Z || ((r =? half)%Z && Z.odd q)
              then (q + 1)%Z else q in
    let m := (q' * 2 ^ shift)%Z in
    if (m <? 2 ^ 1024)%Z then Int m else Infinity false.

(** Applying the sign of the literal, as [parseInt] does last: minus
    zero for a zero read after a minus sign. *)
Definition negate (x : IntNumber) : IntNumber :=
  match x with
  | NegZero => Int 0
  | Int Z0 => NegZero
  | Int z => Int (- z)
  | Infinity b => Infinity (negb b)
  end.

(** [parseInt(v, 10)] on a string that passed [int_literal]. *)
Definition parseInt10 (v : string) : IntNumber :=
  match v with
  | String "-" r => negate (to_double (digits_value 0 r))
  | _ => to_double (digits_value 0 v)
  end.

(* ====================================================================== *)
(** ** library.form: values *)
(* ====================================================================== *)

(** A scalar reading: a Number read from a decimal literal, or a
    string. *)
Inductive Scalar : Type :=
| SNum (n : IntNumber)
| SStr (s : string).

Inductive Value : Type :=
| VBool (b : bool)
| VScalar (x : Scalar)
| VSeq (xs : list Scalar).

(** [coerceNumber] on a string argument (every call site passes one). *)
Definition coerceNumber (v : string) : Scalar :=
  if int_literal v then SNum (parseInt10 v) else SStr v.

Inductive Error : Type := SyntaxError | TypeError.

(** What evaluating an expression gives: a value or a thrown exception. *)
Inductive Completion (A : Type) : Type :=
| Normal (a : A)
| Throw (e : Error).

Arguments Normal {A} a.
Arguments Throw {A} e.

Definition cbind {A B : Type} (c : Completion A) (k : A -> Completion B)
  : Completion B :=
  match c with
  | Normal a => k a
  | Throw e => Throw e
  end.

(* ====================================================================== *)
(** ** library.form: the document *)
(* ====================================================================== *)

Record OptionEl : Type := mkOption {
  optValue : string;
  selected : bool
}.

(** An element of the document, addressed by its position in document
    order. [type_] is the [type] property (empty when the element has
    none), [value_] the [value] property of an element that is not a
    select, [display] is [style.display], [rangeDefault] the default
    value of a range input (the middle of its range, "50" unless its
    attributes say otherwise). The elements are the form controls and
    the elements without a value of their own: an element whose [value]
    is a number (li, progress, meter) is not an [Elem]. *)
Record Elem : Type := mkElem {
  idAttr : string;
  tagName : string;
  type_ : string;
  nameAttr : option string;
  checked : bool;
  value_ : string;
  multiple : bool;
  options : list OptionEl;
  parentElement : option nat;
  display : string;
  rangeDefault : string
}.

Definition DOM : Type := list Elem.

(** [el.name]: the attribute, or the empty string when it is absent. *)
Definition name (el : Elem) : string :=
  match nameAttr el with
  | Some n => n
  | None => ""
  end.

Definition is_select (el : Elem) : bool :=
  String.eqb (toUpperCase (tagName el)) "SELECT".

Definition selectedOptions (el : Elem) : list OptionEl :=
  filter selected (options el).

(** The [value] getter: a select reads the value of its first selected
    option, or the empty string when none is selected. *)
Definition value (el : Elem) : string :=
  if is_select el then
    match selectedOptions el with
    | o :: _ => optValue o
    | [] => ""
    end
  else value_ el.

Fixpoint first_selected (i : Z) (os : list OptionEl) : Z :=
  match os with
  | [] => (-1)%Z
  | o :: tl => if selected o then i else first_selected (i + 1)%Z tl
  end.

(** The [selectedIndex] getter of a select. *)
Definition selectedIndex (el : Elem) : Z := first_selected 0%Z (options el).

Fixpoint update {A : Type} (i : nat) (f : A -> A) (l : list A) : list A :=
  match l, i with
  | [], _ => []
  | x :: tl, 0 => f x :: tl
  | x :: tl, S j => x :: update j f tl
  end.

(** Positions [i], counted from [start], of the elements that satisfy [p]. *)
Fixpoint positions {A : Type} (p : nat -> A -> bool) (start : nat)
  (l : list A) : list nat :=
  match l with
  | [] => []
  | x :: tl =>
      if p start x then start :: positions p (S start) tl
      else positions p (S start) tl
  end.

Definition parentOf (d : DOM) (c : nat) : option nat :=
  match nth_error d c with
  | Some e => parentElement e
  | None => None
  end.

(** The element ancestors of a node, nearest first. A parent chain of a
    document has fewer links than the document has elements. *)
Fixpoint ancestors (d : DOM) (n : nat) (c : nat) : list nat :=
  match n with
  | 0 => []
  | S n' =>
      match parentOf d c with
      | Some p => p :: ancestors d n' p
      | None => []
      end
  end.

(* ---------------------------------------------------------------------- *)
(** *** Names inside a quoted attribute selector *)

(** [... [name="' + n + '"]']: the name is pasted between double quotes
    without escaping. *)
Definition quote : ascii := ascii_of_nat 34.

(** Code units that stand for themselves inside a double-quoted CSS
    string: all but NUL, LF, FF, CR, the double quote and the backslash. *)
Definition plain_char (c : ascii) : bool :=
  let n := code c in
  negb (Nat.eqb n 0 || Nat.eqb n 10 || Nat.eqb n 12 || Nat.eqb n 13
        || Nat.eqb n 34 || Nat.eqb n 92).

Fixpoint css_plain (s : string) : bool :=
  match s with
  | EmptyString => true
  | String c r => plain_char c && css_plain r
  end.

Definition is_alnum (c : ascii) : bool :=
  let n := code c in
  between 48 57 n || between 65 90 n || between 97 122 n.

Fixpoint all_alnum (s : string) : bool :=
  match s with
  | EmptyString => true
  | String c r => is_alnum c && all_alnum r
  end.

(** Plain text, a double quote, then letters and digits only: the quote
    closes the CSS string early, the rest of the name and the selector's
    own closing quote follow the attribute value, and the selector is
    not well formed. *)
Fixpoint css_rejected (s : string) : bool :=
  match s with
  | EmptyString => false
  | String c r =>
      if Ascii.eqb c quote then all_alnum r
      else plain_char c && css_rejected r
  end.

Inductive NameClass : Type := Plain | Rejected | Exotic.

Definition classify (n : string) : NameClass :=
  if css_plain n then Plain
  else if css_rejected n then Rejected
  else Exotic.

(* ====================================================================== *)
(** ** library.form: setupConditionalFields *)
(* ====================================================================== *)

(** The context object handed to a rule's function, as a property list. *)
Inductive CtxProp : Type :=
| CVal (f : string -> Completion Value)
| CGet (g : string -> Completion (option nat))
| CEl (t : nat).

Definition Ctx : Type := list (string * CtxProp).

(** A rule's function: it sees the document and the context and returns
    the truthiness of its result, or throws. *)
Definition RuleFun : Type := DOM -> Ctx -> Completion bool.

Inductive JSVal : Type :=
| JUndefined
| JBool (b : bool)
| JStr (s : string)
| JFun (f : RuleFun).

(** A rule object: its [target] and [deps], and its other own properties
    by name. *)
Record Rule : Type := mkRule {
  target : string;
  deps : option (list string);
  props : list (string * JSVal)
}.

Fixpoint lookup {A : Type} (k : string) (l : list (string * A)) : option A :=
  match l with
  | [] => None
  | (k', v) :: tl => if String.eqb k k' then Some v else lookup k tl
  end.

(** [rule.k] *)
Definition prop (k : string) (r : Rule) : JSVal :=
  match lookup k (props r) with
  | Some v => v
  | None => JUndefined
  end.

Definition truthy (v : JSVal) : bool :=
  match v with
  | JUndefined => false
  | JBool b => b
  | JStr EmptyString => false
  | JStr _ => true
  | JFun _ => true
  end.

Record Listener : Type := mkListener {
  l_target : nat;
  l_type : string;
  l_rule : Rule
}.

(** The page: the document, the listeners [setupConditionalFields] has
    attached, and the events [clearValue] has dispatched, oldest first. *)
Record State : Type := mkState {
  dom : DOM;
  listeners : list Listener;
  dispatched : list (string * nat)
}.

(** How a statement ends: normally, by an exception, or (for the bounded
    evaluator below) without an answer within the bound. *)
Inductive Result : Type :=
| Done (st : State)
| Threw (e : Error) (st : State)
| OutOfFuel.

Definition rbind (r : Result) (k : State -> Result) : Result :=
  match r with
  | Done st => k st
  | other => other
  end.

Record Options : Type := mkOptions {
  containerDepth : option JSNum;
  log : bool
}.

(** [(options && options.containerDepth) || 3] *)
Definition containerDepthOf (options : option Options) : JSNum :=
  match options with
  | Some o =>
      match containerDepth o with
      | Some n => num_or n three
      | None => three
      end
  | None => three
  end.

Section Engine.

(** The selector engine on the selectors the caller writes (rule targets,
    dependencies, arguments of [ctx.val] and [ctx.get]): [None] for text
    that is not a selector, otherwise the test an element at a position
    of the document has to pass. *)
Variable selects : string -> option (DOM -> nat -> bool).

(** The engine on the radio selector of a name that is neither plain nor
    rejected (escapes, comments): unknown, so a parameter. *)
Variable exoticGroup : string -> option (DOM -> nat -> bool).

Definition matching (m : DOM -> nat -> bool) (d : DOM) : list nat :=
  positions (fun i _ => m d i) 0 d.

(** [document.querySelectorAll(s)] *)
Definition querySelectorAll (d : DOM) (s : string) : Completion (list nat) :=
  match selects s with
  | Some m => Normal (matching m d)
  | None => Throw SyntaxError
  end.

(** [document.querySelector(s)] *)
Definition querySelector (d : DOM) (s : string) : Completion (option nat) :=
  cbind (querySelectorAll d s) (fun l => Normal (hd_error l)).

Definition is_radio_named (n : string) (el : Elem) : bool :=
  String.eqb (toUpperCase (tagName el)) "INPUT"
  && String.eqb (toLowerCase (type_ el)) "radio"
  && match nameAttr el with
     | Some a => String.eqb a n
     | None => false
     end.

(** [document.querySelectorAll('input[type="radio"][name="' + n + '"]')] *)
Definition radioGroup (d : DOM) (n : string) : Completion (list nat) :=
  match classify n with
  | Plain => Normal (positions (fun _ el => is_radio_named n el) 0 d)
  | Rejected => Throw SyntaxError
  | Exotic =>
      match exoticGroup n with
      | Some m => Normal (matching m d)
      | None => Throw SyntaxError
      end
  end.

Definition is_checked (d : DOM) (i : nat) : bool :=
  match nth_error d i with
  | Some r => checked r
  | None => false
  end.

Definition value_at (d : DOM) (i : nat) : string :=
  match nth_error d i with
  | Some r => value r
  | None => ""
  end.

Definition val_elem (d : DOM) (el : Elem) : Completion Value :=
  let tag := toUpperCase (tagName el) in
  let type := toLowerCase (type_ el) in
  if String.eqb type "checkbox" then Normal (VBool (checked el))
  else if String.eqb type "radio" then
    cbind (radioGroup d (name el)) (fun group =>
      Normal (VScalar (coerceNumber
        match find (is_checked d) group with
        | Some r => value_at d r
        | None => ""
        end)))
  else if String.eqb tag "SELECT" && multiple el then
    Normal (VSeq (map (fun o => coerceNumber (optValue o))
                      (selectedOptions el)))
  else Normal (VScalar (coerceNumber (trim (value el)))).

Definition val (d : DOM) (el : option nat) : Completion Value :=
  match el with
  | None => Normal (VScalar (SStr ""))
  | Some i =>
      match nth_error d i with
      | Some e => val_elem d e
      | None => Normal (VScalar (SStr ""))
      end
  end.

(** The loop of [fieldWrap]; [n] bounds the number of iterations. *)
Fixpoint climb (d : DOM) (n i : nat) (depth : JSNum) (c : nat) : nat :=
  match n with
  | 0 => c
  | S n' =>
      if nat_lt_num i depth then
        match parentOf d c with
        | Some p => climb d n' (S i) depth p
        | None => c
        end
      else c
  end.

(** An upper bound on the iterations: [i < depth] fails from the ceiling
    of a finite [depth] on, and a parent chain ends within the document. *)
Definition hops (d : DOM) (depth : JSNum) : nat :=
  match depth with
  | NaN => 0
  | Inf negative => if negative then 0 else List.length d
  | Fin q => Z.to_nat (Qceiling q)
  end.

Definition fieldWrap (d : DOM) (el : nat) (depth : JSNum) : nat :=
  climb d (hops d depth) 0 depth el.

(* ---------------------------------------------------------------------- *)
(** *** Clearing *)

Definition uncheck (el : Elem) : Elem :=
  mkElem (idAttr el) (tagName el) (type_ el) (nameAttr el) false
         (value_ el) (multiple el) (options el) (parentElement el)
         (display el) (rangeDefault el).

Definition with_value (v : string) (el : Elem) : Elem :=
  mkElem (idAttr el) (tagName el) (type_ el) (nameAttr el) (checked el)
         v (multiple el) (options el) (parentElement el) (display el)
         (rangeDefault el).

Definition with_options (os : list OptionEl) (el : Elem) : Elem :=
  mkElem (idAttr el) (tagName el) (type_ el) (nameAttr el) (checked el)
         (value_ el) (multiple el) os (parentElement el) (display el)
         (rangeDefault el).

Definition with_display (v : string) (el : Elem) : Elem :=
  mkElem (idAttr el) (tagName el) (type_ el) (nameAttr el) (checked el)
         (value_ el) (multiple el) (options el) (parentElement el) v
         (rangeDefault el).

Definition deselect (o : OptionEl) : OptionEl := mkOption (optValue o) false.

(** Selects the first option whose value is [v], if there is one. *)
Fixpoint select_first (v : string) (os : list OptionEl) : list OptionEl :=
  match os with
  | [] => []
  | o :: tl =>
      if String.eqb (optValue o) v then mkOption (optValue o) true :: tl
      else o :: select_first v tl
  end.

(** The [selectedIndex = -1] setter of a select: no option stays selected. *)
Definition set_selectedIndex_none (el : Elem) : Elem :=
  with_options (map deselect (options el)) el.

(** What the value of an element that is not a select becomes when the
    empty string is assigned to it. The value sanitization of a range
    input replaces a string that is not a number by the default value,
    that of a color input replaces a string that is not a color by
    black; every other control keeps the empty string. *)
Definition emptied (el : Elem) : string :=
  if String.eqb (toUpperCase (tagName el)) "INPUT" then
    if String.eqb (toLowerCase (type_ el)) "range" then rangeDefault el
    else if String.eqb (toLowerCase (type_ el)) "color" then "#000000"
    else ""
  else "".

(** [el.value = ""]. On a select the setter deselects every option and
    then selects the first option whose value is the empty string; on
    another element it stores the sanitized value. *)
Definition set_value_empty (el : Elem) : Elem :=
  if is_select el
  then with_options (select_first "" (map deselect (options el))) el
  else with_value (emptied el) el.

(** [Array.from(group).forEach(function (r) { r.checked = false; })] *)
Definition uncheck_all (group : list nat) (d : DOM) : DOM :=
  fold_left (fun acc r => update r uncheck acc) group d.

(** The branches of [clearValue] that reset the field, before the two
    events are dispatched. *)
Definition resetField (d : DOM) (i : nat) (el : Elem) : Completion DOM :=
  let tag := toUpperCase (tagName el) in
  let type := toLowerCase (type_ el) in
  if String.eqb type "checkbox" then Normal (update i uncheck d)
  else if String.eqb type "radio" then
    cbind (radioGroup d (name el)) (fun group => Normal (uncheck_all group d))
  else if String.eqb tag "SELECT" && multiple el then
    Normal (update i (fun e => with_options (map deselect (options e)) e) d)
  else if String.eqb tag "SELECT" then
    Normal (update i (fun e => set_value_empty (set_selectedIndex_none e)) d)
  else Normal (update i set_value_empty d).

Definition with_dom (d : DOM) (st : State) : State :=
  mkState d (listeners st) (dispatched st).

Definition record_event (evt : string) (i : nat) (st : State) : State :=
  mkState (dom st) (listeners st) (dispatched st ++ [(evt, i)]).

(** The listeners an event of type [evt] fired on [i] reaches: those of
    [i] first and then those of each ancestor (the events bubble), in the
    order they were attached. *)
Definition on_node (evt : string) (ls : list Listener) (node : nat)
  : list Listener :=
  filter (fun l => Nat.eqb (l_target l) node && String.eqb (l_type l) evt) ls.

Definition reached (evt : string) (i : nat) (st : State) : list Listener :=
  flat_map (on_node evt (listeners st))
           (i :: ancestors (dom st) (List.length (dom st)) i).

(** Runs the listeners one after the other. An exception a listener
    throws is reported by the browser and does not stop the others. *)
Fixpoint invoke (run : Rule -> State -> Result) (ls : list Listener)
  (st : State) : Result :=
  match ls with
  | [] => Done st
  | l :: tl =>
      match run (l_rule l) st with
      | Done st' => invoke run tl st'
      | Threw _ st' => invoke run tl st'
      | OutOfFuel => OutOfFuel
      end
  end.

(** An event of type [evt] fired on [i] by the browser or the host. *)
Definition fire (run : Rule -> State -> Result) (evt : string) (i : nat)
  (st : State) : Result :=
  invoke run (reached evt i st) st.

(** [el.dispatchEvent(new Event(evt, { bubbles: true }))] *)
Definition dispatchEvent (run : Rule -> State -> Result) (evt : string)
  (i : nat) (st : State) : Result :=
  fire run evt i (record_event evt i st).

Definition clearValue (run : Rule -> State -> Result) (el : option nat)
  (st : State) : Result :=
  match el with
  | None => Done st
  | Some i =>
      match nth_error (dom st) i with
      | None => Done st
      | Some e =>
          match resetField (dom st) i e with
          | Throw err => Threw err st
          | Normal d' =>
              rbind (dispatchEvent run "change" i (with_dom d' st))
                    (dispatchEvent run "input" i)
          end
      end
  end.

(* ---------------------------------------------------------------------- *)
(** *** Evaluating a rule *)

(** The object literal [apply] passes to the rule's function. *)
Definition make_ctx (d : DOM) (t : nat) : Ctx :=
  [ ("val", CVal (fun s => cbind (querySelector d s) (val d)));
    ("get", CGet (fun s => querySelector d s));
    ("targetEl", CEl t) ].

Definition set_display (c : nat) (v : string) (st : State) : State :=
  with_dom (update c (with_display v) (dom st)) st.

(** The body of [apply]; [run] is [apply] itself, for the listeners that
    the two dispatched events reach. *)
Definition apply_body (depth : JSNum) (run : Rule -> State -> Result)
  (rule : Rule) (st : State) : Result :=
  match querySelector (dom st) (target rule) with
  | Throw e => Threw e st
  | Normal None => Done st
  | Normal (Some t) =>
      match prop "when" rule with
      | JFun f =>
          match f (dom st) (make_ctx (dom st) t) with
          | Throw e => Threw e st
          | Normal show =>
              let container := fieldWrap (dom st) t depth in
              let st1 := set_display container (if show then "" else "none") st in
              if negb show && truthy (prop "clearWhenHidden" rule)
              then clearValue run (Some t) st1
              else Done st1
          end
      | _ => Threw TypeError st
      end
  end.

(** [apply], with a bound on the depth of listeners running listeners. *)
Fixpoint apply (depth : JSNum) (fuel : nat) (rule : Rule) (st : State)
  : Result :=
  match fuel with
  | 0 => OutOfFuel
  | S fuel' => apply_body depth (apply depth fuel') rule st
  end.

(** [rules.forEach(f)]: an exception ends the loop. *)
Fixpoint forEach (f : Rule -> State -> Result) (rules : list Rule)
  (st : State) : Result :=
  match rules with
  | [] => Done st
  | r :: tl => rbind (f r st) (forEach f tl)
  end.

(** [(rule.deps || []).map(querySelector).filter(Boolean)] *)
Fixpoint depEls (d : DOM) (ds : list string) : Completion (list nat) :=
  match ds with
  | [] => Normal []
  | s :: tl =>
      cbind (querySelector d s) (fun el =>
      cbind (depEls d tl) (fun els =>
        Normal (match el with Some i => i :: els | None => els end)))
  end.

Definition deps_or_empty (r : Rule) : list string :=
  match deps r with
  | Some ds => ds
  | None => []
  end.

(** The two listeners attached to each resolved dependency. *)
Definition listeners_for (r : Rule) (els : list nat) : list Listener :=
  flat_map (fun el => [mkListener el "input" r; mkListener el "change" r]) els.

Definition add_listeners (ls : list Listener) (st : State) : State :=
  mkState (dom st) (listeners st ++ ls) (dispatched st).

(** The body of the installing loop for one rule. *)
Definition install_rule (depth : JSNum) (fuel : nat) (r : Rule) (st : State)
  : Result :=
  match depEls (dom st) (deps_or_empty r) with
  | Throw e => Threw e st
  | Normal els => apply depth fuel r (add_listeners (listeners_for r els) st)
  end.

Definition setupConditionalFields (fuel : nat) (rules : list Rule)
  (options : option Options) (st : State) : Result :=
  forEach (install_rule (containerDepthOf options) fuel) rules st.

(** The function [setupConditionalFields] returns. *)
Definition reapplyAll (fuel : nat) (rules : list Rule)
  (options : option Options) (st : State) : Result :=
  forEach (apply (containerDepthOf options) fuel) rules st.

(** A native event on [i] after installation: it runs the listeners. *)
Definition nativeEvent (fuel : nat) (options : option Options)
  (evt : string) (i : nat) (st : State) : Result :=
  fire (apply (containerDepthOf options) fuel) evt i st.

End Engine.

End Form.

(* ====================================================================== *)
(** ** library.grid *)
(* ====================================================================== *)

Module Grid.

(** A [<tr>] of the table body, with its [data-entity] attribute. *)
Record Row : Type := mkRow { dataEntity : option string }.

(** An element of the grid that a button selector may match: the part of
    its state that [showAdd] and [hideAdd] touch. *)
Record Control : Type := mkControl {
  classList : list string;
  styleDisplay : option string;
  styleVisibility : option string;
  hiddenAttr : option string;
  ariaHidden : option string;
  ariaDisabled : option string;
  tabIndex : Z
}.

(** A subgrid: the rows of its first [.view-grid table] ([None] when the
    grid has no such table) and its descendant elements. *)
Record GridEl : Type := mkGrid {
  table : option (list Row);
  controls : list Control
}.

(** The primitive values a configuration can hold. *)
Inductive Primitive : Type :=
| PNull
| PBool (b : bool)
| PNum (n : JSNum)
| PStr (s : string).

(** A value given under [maxRows]: a primitive, or an object with the
    primitive its conversion gives (the array [[2]] gives the string 2,
    a plain object a string that is no number). A BigInt stands as the
    number of its value. A Symbol, and an object whose conversion
    throws, are left out: [Number] throws on them, and with it the call
    of [limitSubgridAdds], before anything is done. *)
Inductive JSArg : Type :=
| Prim (p : Primitive)
| Obj (p : Primitive).

(** Options object of [limitSubgridAdds]; [None] is an absent (or
    undefined) property. *)
Record Opts : Type := mkOpts {
  maxRows : option JSArg;
  entityName : option string;
  gridSelector : option string;
  addButtonSelector : option string
}.

Definition str_truthy (s : string) : bool :=
  match s with EmptyString => false | _ => true end.

(** [(opts && opts.p) || dflt] for a string property. *)
Definition str_or (v : option string) (dflt : string) : string :=
  match v with
  | Some s => if str_truthy s then s else dflt
  | None => dflt
  end.

Definition opt_prop {A : Type} (opts : option Opts) (p : Opts -> option A)
  : option A :=
  match opts with
  | Some o => p o
  | None => None
  end.

Definition ENTITY_NAME (opts : option Opts) : string :=
  str_or (opt_prop opts entityName) "".

Definition GRID_SELECTOR (opts : option Opts) : string :=
  str_or (opt_prop opts gridSelector) ".entity-grid.subgrid".

Definition ADD_BUTTON_SELECTOR (opts : option Opts) : string :=
  str_or (opt_prop opts addButtonSelector) ".view-toolbar .create-action".

(** The rows whose [data-entity] attribute is [name]. *)
Definition carries (name : string) (r : Row) : bool :=
  match dataEntity r with
  | Some e => String.eqb e name
  | None => false
  end.

Definition class_add (c : string) (l : list string) : list string :=
  if existsb (String.eqb c) l then l else l ++ [c].

Definition class_remove (c : string) (l : list string) : list string :=
  filter (fun x => negb (String.eqb c x)) l.

Definition showAdd (btn : Control) : Control :=
  {| classList := class_add "pp-show-add" (classList btn);
     styleDisplay := None;
     styleVisibility := None;
     hiddenAttr := None;
     ariaHidden := Some "false";
     ariaDisabled := Some "false";
     tabIndex := 0%Z |}.

Definition hideAdd (btn : Control) : Control :=
  {| classList := class_remove "pp-show-add" (classList btn);
     styleDisplay := None;
     styleVisibility := styleVisibility btn;
     hiddenAttr := Some "true";
     ariaHidden := Some "true";
     ariaDisabled := Some "true";
     tabIndex := (-1)%Z |}.

(** The first code units a numeric string can start with: a digit, a
    sign, the decimal point, or the I of Infinity. *)
Definition starts_numeric (c : ascii) : bool :=
  Form.is_digit c
  || Ascii.eqb c "+" || Ascii.eqb c "-" || Ascii.eqb c "." || Ascii.eqb c "I".

(** The integer a decimal literal denotes, with its sign. *)
Definition literal_value (t : string) : Z :=
  match t with
  | String "-" r => (- Form.digits_value 0 r)%Z
  | _ => Form.digits_value 0 t
  end.

Section Engine.

(** The conversion of a string to a number by the engine, for the
    strings that are not settled below (fractions, exponents, other
    radixes, integers beyond 2^53). *)
Variable numberOfString : string -> JSNum.

(** The selector engine on [tbody tr[data-entity="..."]] for a name that
    is neither plain nor rejected: [None] when the text built from the
    name is not a selector, otherwise the number of elements of the
    table it selects. The controls a toggle touches lie outside the
    table (the toolbar does), so the number depends on the table
    alone. *)
Variable exoticRows : string -> option (list Row -> nat).

(** The selector engine on the button selectors the caller writes:
    [None] for text that is not a selector, otherwise whether the
    element at a position of the grid matches, given the grid's current
    state. *)
Variable matchesSel : string -> option (list Control -> nat -> bool).

(** The conversion of a string to a number: white space around it is
    dropped; the empty string is 0; a string that does not start as a
    number is NaN; a decimal integer of magnitude up to 2^53 is that
    integer. *)
Definition stringToNumber (s : string) : JSNum :=
  let t := Form.trim s in
  match t with
  | EmptyString => Fin 0%Q
  | String c _ =>
      if negb (starts_numeric c) then NaN
      else if Form.int_literal t
              && (Z.abs (literal_value t) <=? 2 ^ 53)%Z
      then Fin (inject_Z (literal_value t))
      else numberOfString s
  end.

Definition toNumber (p : Primitive) : JSNum :=
  match p with
  | PNull => Fin 0%Q
  | PBool b => if b then Fin 1%Q else Fin 0%Q
  | PNum n => n
  | PStr s => stringToNumber s
  end.

(** [Number(v)]; an undefined [v] gives NaN. *)
Definition Number (v : option JSArg) : JSNum :=
  match v with
  | None => NaN
  | Some (Prim p) => toNumber p
  | Some (Obj p) => toNumber p
  end.

Definition MAX_ROWS (opts : option Opts) : JSNum :=
  num_or (Number (opt_prop opts maxRows)) three.

(** [table.querySelectorAll('tbody tr[data-entity="' + name + '"]').length]:
    the name is pasted between the quotes as it is. A plain name selects
    the rows that carry it; a name that closes the quoted string early
    makes the text no selector, and the query throws. *)
Definition carrying (rows : list Row) (name : string)
  : Form.Completion nat :=
  match Form.classify name with
  | Form.Plain => Form.Normal (List.length (filter (carries name) rows))
  | Form.Rejected => Form.Throw Form.SyntaxError
  | Form.Exotic =>
      match exoticRows name with
      | Some count => Form.Normal (count rows)
      | None => Form.Throw Form.SyntaxError
      end
  end.

Definition countRows (grid : GridEl) (entityName : string)
  : Form.Completion nat :=
  match table grid with
  | None => Form.Normal 0
  | Some rows =>
      Form.cbind
        (if str_truthy entityName then carrying rows entityName
         else Form.Normal 0)
        (fun count =>
           Form.Normal (if Nat.eqb count 0 then List.length rows else count))
  end.

(** [Array.from(buttons).forEach(f)] over the elements [querySelectorAll]
    returned: the node list is static, so membership is decided on the
    state before the first call of [f]. *)
Fixpoint forEachMatched (m : list Control -> nat -> bool)
  (f : Control -> Control) (all : list Control) (i : nat) (l : list Control)
  : list Control :=
  match l with
  | [] => []
  | c :: tl =>
      (if m all i then f c else c) :: forEachMatched m f all (S i) tl
  end.

(** An exception of [countRows], or of the query for the buttons, leaves
    the function before a control is touched. *)
Definition toggleInGrid (opts : option Opts) (grid : GridEl)
  : Form.Completion GridEl :=
  Form.cbind (countRows grid (ENTITY_NAME opts)) (fun rows =>
    match matchesSel (ADD_BUTTON_SELECTOR opts) with
    | None => Form.Throw Form.SyntaxError
    | Some buttons =>
        let cs := controls grid in
        Form.Normal
          {| table := table grid;
             controls :=
               if nat_lt_num rows (MAX_ROWS opts)
               then forEachMatched buttons showAdd cs 0 cs
               else forEachMatched buttons hideAdd cs 0 cs |}
    end).

(** [toggleAll] over the grids [document.querySelectorAll(GRID_SELECTOR)]
    returns, in document order: the grids afterwards, and the exception
    that ended the loop if there was one (the grids before the one that
    threw have been toggled). *)
Fixpoint toggleAll (opts : option Opts) (grids : list GridEl)
  : list GridEl * option Form.Error :=
  match grids with
  | [] => ([], None)
  | g :: tl =>
      match toggleInGrid opts g with
      | Form.Normal g' =>
          let (tl', e) := toggleAll opts tl in (g' :: tl', e)
      | Form.Throw e => (g :: tl, Some e)
      end
  end.

(** The synchronous part of [limitSubgridAdds]: the initial [toggleAll]. *)
Definition limitSubgridAdds (opts : option Opts) (grids : list GridEl)
  : list GridEl * option Form.Error :=
  toggleAll opts grids.

End Engine.

(** The grid once a call on it has returned or thrown. *)
Definition after (r : Form.Completion GridEl) (g : GridEl) : GridEl :=
  match r with
  | Form.Normal g' => g'
  | Form.Throw _ => g
  end.

(** The state the description calls shown, and the one it calls hidden. *)
Definition shown (c : Control) : Prop :=
  hiddenAttr c = None /\ ariaHidden c = Some "false" /\
  ariaDisabled c = Some "false" /\ tabIndex c = 0%Z.

Definition hidden (c : Control) : Prop :=
  hiddenAttr c = Some "true" /\ ariaHidden c = Some "true" /\
  ariaDisabled c = Some "true" /\ tabIndex c = (-1)%Z.

End Grid.

(* ====================================================================== *)
(** ** Sample pages *)
(* ====================================================================== *)

Module Sample.

Import Grid.

Definition contact : Row := mkRow (Some "contact").
Definition account : Row := mkRow (Some "account").

Definition addButton : Control :=
  mkControl ["create-action"] None None None None None 0%Z.

Definition caption : Control :=
  mkControl ["title"] None None None None None 0%Z.

(** Two contact rows among five rows, a caption and one Add button. *)
Definition contactsGrid : GridEl :=
  mkGrid (Some [contact; account; contact; account; account])
         [caption; addButton].

Definition limit (n : JSNum) : option JSArg := Some (Prim (PNum n)).

Definition contactOpts : Opts :=
  mkOpts (limit three) (Some "contact") None None.

(** A selector engine for which every text but the empty one selects
    the elements that carry the class [create-action]. *)
Definition createAction (all : list Control) (i : nat) : bool :=
  match nth_error all i with
  | Some c => existsb (String.eqb "create-action") (classList c)
  | None => false
  end.

Definition byClass (sel : string)
  : option (list Control -> nat -> bool) :=
  match sel with
  | EmptyString => None
  | _ => Some createAction
  end.

(** An engine for which every string left open is not a number, and
    every name left open is not a selector. *)
Definition notANumber (s : string) : JSNum := NaN.

Definition noExoticRows (n : string) : option (list Row -> nat) := None.

(** An entity name with a double quote in the middle: a, quote, b. *)
Definition quotedEntity : string := String "a" (String Form.quote "b").

End Sample.

(* ====================================================================== *)
(** ** Properties of library.grid *)
(* ====================================================================== *)

Module GridFacts.

Import Grid.

(** The rows of the grid's table body. *)
Definition tbodyRows (g : GridEl) : list Row :=
  match table g with
  | Some rows => rows
  | None => []
  end.

(** The rows of the table body that carry [data-entity = F]. *)
Definition rowsCarrying (F : string) (g : GridEl) : list Row :=
  filter (carries F) (tbodyRows g).

Section Counting.

Variable exoticRows : string -> option (list Row -> nat).

#[local] Abbreviation countRows := (Grid.countRows exoticRows).

Lemma countRows_unfiltered (g : GridEl) :
  countRows g "" = Form.Normal (List.length (tbodyRows g)).
Proof.
  unfold Grid.countRows, tbodyRows.
  destruct (table g) as [rows|]; reflexivity.
Qed.

(** On a plain name the query is the attribute test. *)
Lemma countRows_plain (g : GridEl) (F : string) :
  str_truthy F = true -> Form.css_plain F = true ->
  countRows g F =
    Form.Normal
      (if Nat.eqb (List.length (rowsCarrying F g)) 0
       then List.length (tbodyRows g)
       else List.length (rowsCarrying F g)).
Proof.
  intros HF Hp. unfold Grid.countRows, rowsCarrying, tbodyRows.
  destruct (table g) as [rows|]; [|reflexivity].
  rewrite HF. unfold carrying, Form.classify. rewrite Hp. reflexivity.
Qed.

(** A name that closes the quoted string of the selector early makes the
    query throw, whenever the grid has a table. *)
Lemma countRows_rejected (g : GridEl) (rows : list Row) (F : string) :
  table g = Some rows ->
  Form.css_plain F = false -> Form.css_rejected F = true ->
  countRows g F = Form.Throw Form.SyntaxError.
Proof.
  intros Ht Hp Hr. unfold Grid.countRows. rewrite Ht.
  assert (HF : str_truthy F = true).
  { destruct F; [discriminate Hp | reflexivity]. }
  rewrite HF. unfold carrying, Form.classify. rewrite Hp, Hr. reflexivity.
Qed.

(** C1, at the input on which the code leaves the claim: an entity
    filter value that holds a double quote. Whatever rows the table has,
    also rows that carry that very value, the selector built from the
    value is not well formed, the query throws, and [countRows] returns
    no count at all. *)
Theorem countRows_throws_on_quoted_filter (rows : list Row)
  (cs : list Control) :
  countRows (mkGrid (Some (mkRow (Some Sample.quotedEntity) :: rows)) cs)
            Sample.quotedEntity
  = Form.Throw Form.SyntaxError.
Proof.
  apply (countRows_rejected _ (mkRow (Some Sample.quotedEntity) :: rows));
    reflexivity.
Qed.

End Counting.

Lemma lt_num_iff (i : nat) (q : Q) :
  nat_lt_num i (Fin q) = true <-> (inject_Z (Z.of_nat i) < q)%Q.
Proof.
  unfold nat_lt_num. rewrite negb_true_iff. split.
  - intros H. apply Qnot_le_lt. intros Hle.
    apply Qle_bool_iff in Hle. congruence.
  - intros H. destruct (Qle_bool q (inject_Z (Z.of_nat i))) eqn:E;
      [|reflexivity].
    apply Qle_bool_iff in E. exfalso. exact (Qlt_not_le _ _ H E).
Qed.

Lemma ge_num_iff (i : nat) (q : Q) :
  nat_lt_num i (Fin q) = false <-> (q <= inject_Z (Z.of_nat i))%Q.
Proof.
  unfold nat_lt_num. rewrite negb_false_iff. apply Qle_bool_iff.
Qed.

Lemma lt_three_iff (i : nat) : nat_lt_num i three = true <-> i < 3.
Proof.
  unfold three. rewrite lt_num_iff.
  change (3 # 1)%Q with (inject_Z 3). rewrite <- Zlt_Qlt. lia.
Qed.

Lemma ge_three_iff (i : nat) : nat_lt_num i three = false <-> 3 <= i.
Proof.
  unfold three. rewrite ge_num_iff.
  change (3 # 1)%Q with (inject_Z 3). rewrite <- Zle_Qle. lia.
Qed.

Lemma nonzero_truthy (q : Q) : ~ (q == 0)%Q -> num_truthy (Fin q) = true.
Proof.
  intros H. simpl. apply negb_true_iff.
  destruct (Qeq_bool q 0) eqn:E; [|reflexivity].
  apply Qeq_bool_iff in E. contradiction.
Qed.

Lemma zero_falsy (q : Q) : (q == 0)%Q -> num_truthy (Fin q) = false.
Proof.
  intros H. simpl. apply negb_false_iff. apply Qeq_bool_iff. exact H.
Qed.

Section ToggleFacts.

Variable numberOfString : string -> JSNum.
Variable exoticRows : string -> option (list Row -> nat).
Variable matchesSel : string -> option (list Control -> nat -> bool).

#[local] Abbreviation countRows := (Grid.countRows exoticRows).
#[local] Abbreviation Number := (Grid.Number numberOfString).
#[local] Abbreviation MAX_ROWS := (Grid.MAX_ROWS numberOfString).
#[local] Abbreviation toggleInGrid :=
  (Grid.toggleInGrid numberOfString exoticRows matchesSel).

Lemma forEachMatched_nth (m : list Control -> nat -> bool)
  (f : Control -> Control) (all l : list Control) (k i : nat) :
  nth_error (forEachMatched m f all k l) i =
    option_map (fun c => if m all (k + i) then f c else c) (nth_error l i).
Proof.
  revert k i. induction l as [|c tl IH]; intros k i.
  - destruct i; reflexivity.
  - destruct i as [|i]; simpl.
    + rewrite Nat.add_0_r. reflexivity.
    + rewrite IH. replace (S k + i) with (k + S i) by lia. reflexivity.
Qed.

Lemma class_add_twice (c : string) (l : list string) :
  class_add c (class_add c l) = class_add c l.
Proof.
  unfold class_add at 2.
  destruct (existsb (String.eqb c) l) eqn:E.
  - unfold class_add. rewrite E. reflexivity.
  - unfold class_add. rewrite existsb_app, E. simpl.
    rewrite String.eqb_refl. reflexivity.
Qed.

Lemma class_remove_twice (c : string) (l : list string) :
  class_remove c (class_remove c l) = class_remove c l.
Proof.
  unfold class_remove. induction l as [|x tl IH]; simpl; [reflexivity|].
  destruct (negb (String.eqb c x)) eqn:E; simpl.
  - rewrite E, IH. reflexivity.
  - exact IH.
Qed.

Lemma showAdd_twice (c : Control) : showAdd (showAdd c) = showAdd c.
Proof. unfold showAdd; simpl. rewrite class_add_twice. reflexivity. Qed.

Lemma hideAdd_twice (c : Control) : hideAdd (hideAdd c) = hideAdd c.
Proof. unfold hideAdd; simpl. rewrite class_remove_twice. reflexivity. Qed.

Lemma showAdd_shown (c : Control) : shown (showAdd c).
Proof. repeat split. Qed.

Lemma hideAdd_hidden (c : Control) : hidden (hideAdd c).
Proof. repeat split. Qed.

(** The toggle of a grid whose rows were counted and whose buttons were
    found. *)
Definition toggled (opts : option Opts) (m : list Control -> nat -> bool)
  (rows : nat) (g : GridEl) : GridEl :=
  {| table := table g;
     controls :=
       if nat_lt_num rows (MAX_ROWS opts)
       then forEachMatched m showAdd (controls g) 0 (controls g)
       else forEachMatched m hideAdd (controls g) 0 (controls g) |}.

Lemma toggleInGrid_steps (opts : option Opts) (g : GridEl) (rows : nat)
  (m : list Control -> nat -> bool) :
  countRows g (ENTITY_NAME opts) = Form.Normal rows ->
  matchesSel (ADD_BUTTON_SELECTOR opts) = Some m ->
  toggleInGrid opts g = Form.Normal (toggled opts m rows g).
Proof.
  intros Hr Hm. unfold Grid.toggleInGrid. rewrite Hr. simpl.
  rewrite Hm. reflexivity.
Qed.

(** A toggle that completes has counted the rows and found the
    buttons. *)
Lemma toggleInGrid_normal (opts : option Opts) (g g' : GridEl) :
  toggleInGrid opts g = Form.Normal g' ->
  exists rows m,
    countRows g (ENTITY_NAME opts) = Form.Normal rows
    /\ matchesSel (ADD_BUTTON_SELECTOR opts) = Some m
    /\ g' = toggled opts m rows g.
Proof.
  unfold Grid.toggleInGrid.
  destruct (countRows g (ENTITY_NAME opts)) as [rows|e]; simpl;
    [|discriminate].
  destruct (matchesSel (ADD_BUTTON_SELECTOR opts)) as [m|]; [|discriminate].
  intros H. injection H as <-. exists rows, m.
  refine (conj eq_refl (conj eq_refl eq_refl)).
Qed.

(** The control at a position of a toggled grid. *)
Lemma toggled_nth (opts : option Opts) (m : list Control -> nat -> bool)
  (g : GridEl) (rows i : nat) :
  nth_error (controls (toggled opts m rows g)) i =
    option_map
      (fun c =>
         if m (controls g) i
         then (if nat_lt_num rows (MAX_ROWS opts)
               then showAdd c else hideAdd c)
         else c)
      (nth_error (controls g) i).
Proof.
  unfold toggled. cbn [controls].
  destruct (nat_lt_num _ _); rewrite forEachMatched_nth; simpl;
    destruct (nth_error (controls g) i); simpl; try reflexivity;
    destruct (m _ i); reflexivity.
Qed.

(** Showing and hiding the buttons leaves the table, hence the row
    count, as it is. *)
Lemma toggleInGrid_table (opts : option Opts) (g g' : GridEl) :
  toggleInGrid opts g = Form.Normal g' -> table g' = table g.
Proof.
  intros H.
  destruct (toggleInGrid_normal opts g g' H) as (rows & m & _ & _ & ->).
  reflexivity.
Qed.

(** The limit in use, read off the configured [maxRows]. *)
Lemma MAX_ROWS_cases (opts : option Opts) :
  (forall q, Number (opt_prop opts maxRows) = Fin q -> ~ (q == 0)%Q ->
     MAX_ROWS opts = Fin q)
  /\ (Number (opt_prop opts maxRows) = NaN
      \/ (exists q, Number (opt_prop opts maxRows) = Fin q /\ (q == 0)%Q) ->
      MAX_ROWS opts = three)
  /\ (forall b, Number (opt_prop opts maxRows) = Inf b ->
      MAX_ROWS opts = Inf b).
Proof.
  unfold Grid.MAX_ROWS, num_or. refine (conj _ (conj _ _)).
  - intros q Hq Hnz. rewrite Hq, (nonzero_truthy q Hnz). reflexivity.
  - intros [Hn | (q & Hq & Hz)].
    + rewrite Hn. reflexivity.
    + rewrite Hq, (zero_falsy q Hz). reflexivity.
  - intros b Hb. rewrite Hb. reflexivity.
Qed.

(** C2, as the code has it. For every grid on which the toggle completes
    and every control the Add-button selector matches, the limit is what
    Number() makes of the configured maxRows, and 3 when that is 0 or
    NaN (also when maxRows is absent). With a limit q in use the control
    ends shown (no hidden attribute, aria-hidden and aria-disabled
    "false", tabIndex 0) when the row count is below q and hidden
    (hidden set, aria-hidden and aria-disabled "true", tabIndex -1) when
    it is q or more; an infinite limit shows, minus infinity hides. And
    toggling again, on a grid whose controls are the ones the first call
    left and whose row count is unchanged, leaves the control as it
    is. *)
Theorem toggleInGrid_follows_limit (opts : option Opts) (g g' : GridEl)
  (rows i : nat) (m : list Control -> nat -> bool) (c : Control) :
  countRows g (ENTITY_NAME opts) = Form.Normal rows ->
  matchesSel (ADD_BUTTON_SELECTOR opts) = Some m ->
  toggleInGrid opts g = Form.Normal g' ->
  m (controls g) i = true ->
  nth_error (controls g') i = Some c ->
  (forall q, Number (opt_prop opts maxRows) = Fin q -> ~ (q == 0)%Q ->
     ((inject_Z (Z.of_nat rows) < q)%Q -> shown c)
     /\ ((q <= inject_Z (Z.of_nat rows))%Q -> hidden c))
  /\ (Number (opt_prop opts maxRows) = NaN
      \/ (exists q, Number (opt_prop opts maxRows) = Fin q /\ (q == 0)%Q) ->
      (rows < 3 -> shown c) /\ (3 <= rows -> hidden c))
  /\ (Number (opt_prop opts maxRows) = Inf false -> shown c)
  /\ (Number (opt_prop opts maxRows) = Inf true -> hidden c)
  /\ (forall g2 : GridEl,
        controls g2 = controls g' ->
        countRows g2 (ENTITY_NAME opts) = Form.Normal rows ->
        exists g3, toggleInGrid opts g2 = Form.Normal g3
                   /\ nth_error (controls g3) i = Some c).
Proof.
  intros Hrows Hsel Htoggle Hm Hc.
  rewrite (toggleInGrid_steps opts g rows m Hrows Hsel) in Htoggle.
  injection Htoggle as <-.
  pose proof Hc as Hc0. rewrite toggled_nth, Hm in Hc.
  destruct (nth_error (controls g) i) as [c0|] eqn:E0; [|discriminate].
  cbn [option_map] in Hc.
  destruct (MAX_ROWS_cases opts) as (Hfin & Hdflt & Hinf).
  assert (Hshow : nat_lt_num rows (MAX_ROWS opts) = true -> shown c).
  { intros H. rewrite H in Hc. injection Hc as <-. apply showAdd_shown. }
  assert (Hhide : nat_lt_num rows (MAX_ROWS opts) = false -> hidden c).
  { intros H. rewrite H in Hc. injection Hc as <-. apply hideAdd_hidden. }
  refine (conj _ (conj _ (conj _ (conj _ _)))).
  - intros q Hq Hnz. rewrite (Hfin q Hq Hnz) in Hshow, Hhide. split.
    + intros H. apply Hshow. apply lt_num_iff. exact H.
    + intros H. apply Hhide. apply ge_num_iff. exact H.
  - intros Hd. rewrite (Hdflt Hd) in Hshow, Hhide. split.
    + intros H. apply Hshow. apply lt_three_iff. exact H.
    + intros H. apply Hhide. apply ge_three_iff. exact H.
  - intros Hi. rewrite (Hinf false Hi) in Hshow. apply Hshow. reflexivity.
  - intros Hi. rewrite (Hinf true Hi) in Hhide. apply Hhide. reflexivity.
  - intros g2 Hcs Hrows2.
    exists (toggled opts m rows g2).
    split; [exact (toggleInGrid_steps opts g2 rows m Hrows2 Hsel)|].
    rewrite toggled_nth, Hcs, Hc0. cbn [option_map].
    destruct (m (controls (toggled opts m rows g)) i); [|reflexivity].
    destruct (nat_lt_num rows (MAX_ROWS opts)); injection Hc as <-;
      [rewrite showAdd_twice | rewrite hideAdd_twice]; reflexivity.
Qed.

End ToggleFacts.

(** One row and a configured maxRows of 0. *)
Definition zeroLimit : Opts :=
  mkOpts (Sample.limit (Fin 0%Q)) None None None.

Definition oneRowGrid : GridEl :=
  mkGrid (Some [Sample.contact]) [Sample.addButton].

(** C2 as it is stated fails: with maxRows 0 the row count 1 is not
    below maxRows, and the Add control ends shown, not hidden. *)
Lemma zero_limit_shows :
  Grid.countRows Sample.noExoticRows oneRowGrid (ENTITY_NAME (Some zeroLimit))
  = Form.Normal 1
  /\ maxRows zeroLimit = Sample.limit (Fin 0%Q)
  /\ exists g' c,
       Grid.toggleInGrid Sample.notANumber Sample.noExoticRows Sample.byClass
         (Some zeroLimit) oneRowGrid = Form.Normal g'
       /\ nth_error (controls g') 0 = Some c
       /\ shown c /\ ~ hidden c.
Proof.
  split; [reflexivity|]. split; [reflexivity|].
  eexists. eexists. split; [reflexivity|]. split; [reflexivity|].
  split; [repeat split|].
  intros (H & _). discriminate H.
Qed.

(** Two contact rows and a limit of three: the Add button is shown. *)
Lemma toggleInGrid_follows_limit_witness :
  shown (showAdd Sample.addButton).
Proof.
  apply (proj1 (proj1 (toggleInGrid_follows_limit Sample.notANumber
                         Sample.noExoticRows Sample.byClass
                         (Some Sample.contactOpts) Sample.contactsGrid
                         _ 2 1 _ (showAdd Sample.addButton)
                         eq_refl eq_refl eq_refl eq_refl eq_refl)
                  (3 # 1)%Q eq_refl ltac:(discriminate))).
  reflexivity.
Defined.

End GridFacts.

(* ====================================================================== *)
(** ** A sample form *)
(* ====================================================================== *)

Module SampleForm.

Import Form.

(** A selector engine that knows the id selectors [#x]; any other text is
    not a selector for it. *)
Definition byId (s : string) : option (DOM -> nat -> bool) :=
  match s with
  | String "#" x =>
      Some (fun d i =>
              match nth_error d i with
              | Some e => String.eqb (idAttr e) x
              | None => false
              end)
  | _ => None
  end.

Definition noExotic (n : string) : option (DOM -> nat -> bool) := None.

Definition textInput (id v : string) (parent : option nat) : Elem :=
  mkElem id "INPUT" "text" (Some id) false v false [] parent "" "".

Definition checkbox (id : string) (on : bool) : Elem :=
  mkElem id "INPUT" "checkbox" (Some id) on "on" false [] None "" "".

Definition radio (id n v : string) (on : bool) : Elem :=
  mkElem id "INPUT" "radio" (Some n) on v false [] None "" "".

Definition selectEl (id : string) (multi : bool) (os : list OptionEl) : Elem :=
  mkElem id "SELECT" (if multi then "select-multiple" else "select-one")
         (Some id) false "" multi os None "" "".

Definition div (id : string) (parent : option nat) : Elem :=
  mkElem id "DIV" "" None false "" false [] parent "" "".

(** A name with a double quote in the middle: a, quote, b. *)
Definition quotedName : string := String "a" (String quote "b").

(** A drop-down with a blank first option and the second one chosen. *)
Definition countrySelect : Elem :=
  selectEl "country" false [mkOption "" false; mkOption "ca" true].

(** A slider at 70 whose default value is 50. *)
Definition volume : Elem :=
  mkElem "volume" "INPUT" "range" (Some "volume") false "70" false [] None
         "" "50".

End SampleForm.

(* ====================================================================== *)
(** ** Properties of library.form: coercion *)
(* ====================================================================== *)

Module CoercionFacts.

Import Form.

(** The words of the description: a pure, optionally signed integer
    literal is a non-empty run of decimal digits, with or without a
    leading minus sign; it denotes the integer its digits spell, negated
    under a minus sign. *)
Definition digit_char (n : nat) : ascii := ascii_of_nat (48 + n).

Fixpoint numeral (ds : list nat) : string :=
  match ds with
  | [] => EmptyString
  | n :: tl => String (digit_char n) (numeral tl)
  end.

Definition numeral_value (ds : list nat) : Z :=
  fold_left (fun acc n => (10 * acc + Z.of_nat n)%Z) ds 0%Z.

(** [IntegerLiteral s neg m]: [s] is a literal with (when [neg]) or
    without a minus sign whose digits spell [m]. *)
Inductive IntegerLiteral : string -> bool -> Z -> Prop :=
| literal_unsigned (ds : list nat) :
    ds <> [] -> Forall (fun n => n < 10) ds ->
    IntegerLiteral (numeral ds) false (numeral_value ds)
| literal_negative (ds : list nat) :
    ds <> [] -> Forall (fun n => n < 10) ds ->
    IntegerLiteral (String "-" (numeral ds)) true (numeral_value ds).

(** The Number with the sign of the literal. *)
Definition signed (neg : bool) (x : IntNumber) : IntNumber :=
  if neg then negate x else x.

(** The spacing of the doubles around a positive integer: 1 up to 2^53,
    then doubling with every power of two. *)
Definition spacing (m : Z) : Z := (2 ^ (Z.log2 m - 52))%Z.

Lemma code_digit_char (n : nat) : n < 10 -> code (digit_char n) = 48 + n.
Proof.
  intros H. unfold code, digit_char. apply nat_ascii_embedding. lia.
Qed.

Lemma is_digit_inv (c : ascii) :
  is_digit c = true -> code c - 48 < 10 /\ digit_char (code c - 48) = c.
Proof.
  unfold is_digit, between. intros H.
  apply andb_true_iff in H. destruct H as [H1 H2].
  apply Nat.leb_le in H1. apply Nat.leb_le in H2.
  split; [lia|].
  unfold digit_char. replace (48 + (code c - 48)) with (code c) by lia.
  apply ascii_nat_embedding.
Qed.

Lemma all_digits_numeral (ds : list nat) :
  Forall (fun n => n < 10) ds -> all_digits (numeral ds) = true.
Proof.
  induction 1 as [|n tl Hn _ IH]; cbn [numeral all_digits]; [reflexivity|].
  rewrite IH, andb_true_r. unfold is_digit, between.
  rewrite (code_digit_char n Hn).
  apply andb_true_iff; split; apply Nat.leb_le; lia.
Qed.

Lemma numeral_of_digits (s : string) :
  all_digits s = true ->
  exists ds, Forall (fun n => n < 10) ds /\ numeral ds = s
             /\ (s <> EmptyString -> ds <> []).
Proof.
  induction s as [|c r IH]; simpl; intros H.
  - exists []. repeat split; [constructor | congruence].
  - apply andb_true_iff in H. destruct H as [Hc Hr].
    destruct (IH Hr) as (ds & Hds & Hnum & _).
    destruct (is_digit_inv c Hc) as [Hlt Hch].
    exists ((code c - 48) :: ds). repeat split.
    + constructor; assumption.
    + cbn [numeral]. rewrite Hch, Hnum. reflexivity.
    + discriminate.
Qed.

Lemma digits_value_numeral (ds : list nat) (acc : Z) :
  Forall (fun n => n < 10) ds ->
  digits_value acc (numeral ds) =
    fold_left (fun a n => (10 * a + Z.of_nat n)%Z) ds acc.
Proof.
  intros H. revert acc.
  induction H as [|n tl Hn _ IH]; intros acc;
    cbn [numeral digits_value fold_left].
  - reflexivity.
  - rewrite IH, (code_digit_char n Hn).
    replace (48 + n - 48) with n by lia. reflexivity.
Qed.

Lemma fold_digits_nonneg (ds : list nat) (acc : Z) :
  (0 <= acc)%Z ->
  (0 <= fold_left (fun a n => (10 * a + Z.of_nat n)%Z) ds acc)%Z.
Proof.
  revert acc.
  induction ds as [|n tl IH]; intros acc H; cbn [fold_left]; [exact H|].
  apply IH. lia.
Qed.

Lemma numeral_value_nonneg (ds : list nat) : (0 <= numeral_value ds)%Z.
Proof. apply fold_digits_nonneg. lia. Qed.

Lemma int_literal_cons (c : ascii) (r : string) :
  int_literal (String c r) =
    if Ascii.eqb c "-" then digits1 r else digits1 (String c r).
Proof. destruct c as [[] [] [] [] [] [] [] []]; reflexivity. Qed.

Lemma parseInt10_cons (c : ascii) (r : string) :
  parseInt10 (String c r) =
    if Ascii.eqb c "-" then negate (to_double (digits_value 0 r))
    else to_double (digits_value 0 (String c r)).
Proof. destruct c as [[] [] [] [] [] [] [] []]; reflexivity. Qed.

Lemma digits1_numeral (ds : list nat) :
  ds <> [] -> Forall (fun n => n < 10) ds -> digits1 (numeral ds) = true.
Proof.
  intros Hne H. pose proof (all_digits_numeral ds H) as Hall.
  destruct ds as [|n tl]; [congruence|]. exact Hall.
Qed.

Lemma numeral_head_not_minus (n : nat) (tl : list nat) :
  n < 10 -> Ascii.eqb (digit_char n) "-" = false.
Proof.
  intros H. apply Ascii.eqb_neq. intros E.
  pose proof (code_digit_char n H) as Hc. rewrite E in Hc.
  vm_compute in Hc. lia.
Qed.

(** The regular expression accepts exactly the integer literals, and
    [parseInt] reads the double of the digits, with the sign. *)
Lemma int_literal_sound (s : string) (neg : bool) (m : Z) :
  IntegerLiteral s neg m ->
  int_literal s = true /\ parseInt10 s = signed neg (to_double m).
Proof.
  intros [ds Hne H | ds Hne H].
  - destruct ds as [|n tl]; [congruence|].
    pose proof (Forall_inv H) as Hn. cbn [numeral].
    rewrite int_literal_cons, parseInt10_cons,
      (numeral_head_not_minus n tl Hn).
    split.
    + apply (digits1_numeral (n :: tl)); assumption.
    + unfold signed. f_equal.
      apply (digits_value_numeral (n :: tl)); assumption.
  - rewrite int_literal_cons, parseInt10_cons. simpl Ascii.eqb. cbv iota.
    split.
    + apply digits1_numeral; assumption.
    + rewrite digits_value_numeral by assumption. reflexivity.
Qed.

Lemma digits1_literal (s : string) :
  digits1 s = true -> IntegerLiteral s false (digits_value 0 s).
Proof.
  intros H. assert (Hne : s <> EmptyString) by (destruct s; discriminate).
  assert (Hall : all_digits s = true) by (destruct s; [discriminate|exact H]).
  destruct (numeral_of_digits s Hall) as (ds & Hds & Hnum & Hds_ne).
  rewrite <- Hnum at 2. rewrite digits_value_numeral by assumption.
  rewrite <- Hnum at 1. apply literal_unsigned; auto.
Qed.

Lemma int_literal_complete (s : string) :
  int_literal s = true -> exists neg m, IntegerLiteral s neg m.
Proof.
  destruct s as [|c r]; [discriminate|].
  rewrite int_literal_cons.
  destruct (Ascii.eqb c "-") eqn:E.
  - apply Ascii.eqb_eq in E. subst c. intros H.
    assert (Hall : all_digits r = true) by (destruct r; [discriminate|exact H]).
    assert (Hne : r <> EmptyString) by (destruct r; discriminate).
    destruct (numeral_of_digits r Hall) as (ds & Hds & Hnum & Hds_ne).
    rewrite <- Hnum. exists true, (numeral_value ds).
    apply literal_negative; auto.
  - intros H. exists false, (digits_value 0 (String c r)).
    apply digits1_literal. exact H.
Qed.

Lemma literal_nonneg (s : string) (neg : bool) (m : Z) :
  IntegerLiteral s neg m -> (0 <= m)%Z.
Proof. intros [ds _ _ | ds _ _]; apply numeral_value_nonneg. Qed.

Lemma coerceNumber_literal (s : string) (neg : bool) (m : Z) :
  IntegerLiteral s neg m ->
  coerceNumber s = SNum (signed neg (to_double m)).
Proof.
  intros H. destruct (int_literal_sound s neg m H) as [Hm Hv].
  unfold coerceNumber. rewrite Hm, Hv. reflexivity.
Qed.

Lemma coerceNumber_other (s : string) :
  (forall neg m, ~ IntegerLiteral s neg m) -> coerceNumber s = SStr s.
Proof.
  intros H. unfold coerceNumber.
  destruct (int_literal s) eqn:E; [|reflexivity].
  exfalso. destruct (int_literal_complete s E) as (neg & m & Hl).
  exact (H neg m Hl).
Qed.

(** Below 2^53 every integer is a double. *)
Lemma to_double_exact (m : Z) : (m < 2 ^ 53)%Z -> to_double m = Int m.
Proof.
  intros H. unfold to_double.
  destruct (Z.ltb_spec m (2 ^ 53)); [reflexivity | lia].
Qed.

(** How [to_double] splits an integer from 2^53 on. *)
Lemma to_double_split (m : Z) :
  (2 ^ 53 <= m)%Z ->
  exists q r h : Z,
    (m = q * spacing m + r /\ 0 <= r < spacing m /\ spacing m = 2 * h
     /\ 2 ^ 52 <= q)%Z
    /\ ((to_double m = Infinity false /\ (2 ^ 1024 <= (q + 1) * spacing m)%Z)
        \/ (h <= r /\ (q + 1) * spacing m < 2 ^ 1024
            /\ to_double m = Int ((q + 1) * spacing m))%Z
        \/ (r <= h /\ q * spacing m < 2 ^ 1024
            /\ to_double m = Int (q * spacing m))%Z).
Proof.
  intros Hm.
  assert (Hpos : (0 < m)%Z).
  { pose proof (Z.pow_pos_nonneg 2 53). lia. }
  assert (Hlog : (53 <= Z.log2 m)%Z) by (apply Z.log2_le_pow2; assumption).
  pose proof (Z.log2_spec m Hpos) as [Hlo _].
  set (shift := (Z.log2 m - 52)%Z) in *.
  assert (Hshift : (1 <= shift)%Z) by (unfold shift; lia).
  assert (HP : (0 < 2 ^ shift)%Z) by (apply Z.pow_pos_nonneg; lia).
  assert (Hhalf : (2 ^ shift = 2 * 2 ^ (shift - 1))%Z).
  { replace shift with (Z.succ (shift - 1)) at 1 by lia.
    apply Z.pow_succ_r. lia. }
  assert (Hq : (2 ^ 52 <= m / 2 ^ shift)%Z).
  { apply Z.div_le_lower_bound; [exact HP|].
    rewrite <- Z.pow_add_r by lia.
    replace (shift + 52)%Z with (Z.log2 m) by (unfold shift; lia).
    exact Hlo. }
  exists (m / 2 ^ shift)%Z, (m mod 2 ^ shift)%Z, (2 ^ (shift - 1))%Z.
  split.
  - refine (conj _ (conj _ (conj _ _))).
    + unfold spacing. fold shift.
      rewrite (Z.mul_comm (m / 2 ^ shift)). apply Z.div_mod. lia.
    + unfold spacing. fold shift. apply Z.mod_pos_bound. exact HP.
    + exact Hhalf.
    + exact Hq.
  - unfold to_double, spacing. fold shift.
    destruct (Z.ltb_spec m (2 ^ 53)); [lia|].
    destruct (Z.ltb_spec (2 ^ (shift - 1)) (m mod 2 ^ shift)) as [Hlt|Hge];
      cbn [orb].
    + destruct (Z.ltb_spec ((m / 2 ^ shift + 1) * 2 ^ shift) (2 ^ 1024)).
      * right; left. split; [lia | split; [assumption | reflexivity]].
      * left. split; [reflexivity | assumption].
    + destruct (Z.eqb_spec (m mod 2 ^ shift) (2 ^ (shift - 1))) as [He|Hne];
        cbn [andb].
      * destruct (Z.odd (m / 2 ^ shift)).
        -- destruct (Z.ltb_spec ((m / 2 ^ shift + 1) * 2 ^ shift) (2 ^ 1024)).
           ++ right; left. split; [lia | split; [assumption | reflexivity]].
           ++ left. split; [reflexivity | assumption].
        -- destruct (Z.ltb_spec (m / 2 ^ shift * 2 ^ shift) (2 ^ 1024)).
           ++ right; right. split; [lia | split; [assumption | reflexivity]].
           ++ left. split; [reflexivity|].
              assert (0 <= m / 2 ^ shift)%Z by lia. nia.
      * destruct (Z.ltb_spec (m / 2 ^ shift * 2 ^ shift) (2 ^ 1024)).
        -- right; right. split; [lia | split; [assumption | reflexivity]].
        -- left. split; [reflexivity|].
           assert (0 <= m / 2 ^ shift)%Z by lia. nia.
Qed.

(** A finite result is within half the spacing of the doubles. *)
Lemma to_double_near (m m' : Z) :
  (0 <= m)%Z -> to_double m = Int m' ->
  (2 * Z.abs (m' - m) <= spacing m)%Z.
Proof.
  intros H0 H.
  destruct (Z.ltb_spec m (2 ^ 53)) as [Hs|Hb].
  - rewrite (to_double_exact m Hs) in H. injection H as <-.
    rewrite Z.sub_diag. simpl. unfold spacing. apply Z.pow_nonneg. lia.
  - destruct (to_double_split m Hb)
      as (q & r & h & (Hm & Hr & Hh & _)
          & [[Hi _] | [(Hc & _ & Hi) | (Hc & _ & Hi)]]);
      rewrite Hi in H; [discriminate| |]; injection H as <-; lia.
Qed.

(** From 2^1024 on the result is infinite. *)
Lemma to_double_overflow (m : Z) :
  (2 ^ 1024 <= m)%Z -> to_double m = Infinity false.
Proof.
  intros H.
  assert (H53 : (2 ^ 53 <= m)%Z).
  { pose proof (Z.pow_le_mono_r 2 53 1024 ltac:(lia) ltac:(lia)). lia. }
  assert (Hpos : (0 < m)%Z).
  { pose proof (Z.pow_pos_nonneg 2 53). lia. }
  assert (Hlog : (1024 <= Z.log2 m)%Z) by (apply Z.log2_le_pow2; assumption).
  assert (Hsp : (2 ^ 1024 <= 2 ^ 52 * spacing m)%Z).
  { unfold spacing. rewrite <- Z.pow_add_r by lia.
    apply Z.pow_le_mono_r; lia. }
  assert (Hs0 : (0 < spacing m)%Z).
  { unfold spacing. apply Z.pow_pos_nonneg; lia. }
  destruct (to_double_split m H53)
    as (q & r & h & (Hm & Hr & Hh & Hq)
        & [[Hi _] | [(Hc & Hlt & _) | (Hc & Hlt & _)]]).
  - exact Hi.
  - exfalso. nia.
  - exfalso. nia.
Qed.

End CoercionFacts.

(* ====================================================================== *)
(** ** Properties of library.form: reading a field *)
(* ====================================================================== *)

Module ValFacts.

Import Form CoercionFacts.

(** The field kinds, in the order [val] and [clearValue] test them. *)
Definition is_checkbox (el : Elem) : bool :=
  String.eqb (toLowerCase (type_ el)) "checkbox".

Definition is_radio (el : Elem) : bool :=
  String.eqb (toLowerCase (type_ el)) "radio".

Definition is_multi_select (el : Elem) : bool :=
  String.eqb (toUpperCase (tagName el)) "SELECT" && multiple el.

Section Reading.

Variable exoticGroup : string -> option (DOM -> nat -> bool).

#[local] Abbreviation val := (Form.val exoticGroup).
#[local] Abbreviation val_elem := (Form.val_elem exoticGroup).
#[local] Abbreviation radioGroup := (Form.radioGroup exoticGroup).

Lemma val_null (d : DOM) : val d None = Normal (VScalar (SStr "")).
Proof. reflexivity. Qed.

Lemma val_at (d : DOM) (i : nat) (el : Elem) :
  nth_error d i = Some el -> val d (Some i) = val_elem d el.
Proof. intros H. unfold Form.val. rewrite H. reflexivity. Qed.

Lemma val_checkbox (d : DOM) (el : Elem) :
  is_checkbox el = true -> val_elem d el = Normal (VBool (checked el)).
Proof.
  unfold is_checkbox, Form.val_elem. intros H. rewrite H. reflexivity.
Qed.

Lemma val_radio (d : DOM) (el : Elem) :
  is_checkbox el = false -> is_radio el = true ->
  val_elem d el =
    cbind (radioGroup d (name el)) (fun group =>
      Normal (VScalar (coerceNumber
        match find (is_checked d) group with
        | Some r => value_at d r
        | None => ""
        end))).
Proof.
  unfold is_checkbox, is_radio, Form.val_elem. intros H1 H2.
  rewrite H1, H2. reflexivity.
Qed.

Lemma val_multi_select (d : DOM) (el : Elem) :
  is_checkbox el = false -> is_radio el = false ->
  is_multi_select el = true ->
  val_elem d el =
    Normal (VSeq (map (fun o => coerceNumber (optValue o))
                      (selectedOptions el))).
Proof.
  unfold is_checkbox, is_radio, is_multi_select, Form.val_elem.
  intros H1 H2 H3. rewrite H1, H2, H3. reflexivity.
Qed.

Lemma val_other (d : DOM) (el : Elem) :
  is_checkbox el = false -> is_radio el = false ->
  is_multi_select el = false ->
  val_elem d el = Normal (VScalar (coerceNumber (trim (value el)))).
Proof.
  unfold is_checkbox, is_radio, is_multi_select, Form.val_elem.
  intros H1 H2 H3. rewrite H1, H2, H3. reflexivity.
Qed.

(** C3, as the code has it. For every field element: a checkbox reads as
    the boolean of its checked state; a radio reads as the coerced value
    of the first checked member of its name group, and as the coerced
    empty string when no member is checked; a multiple select reads as
    the sequence of the coerced values of its selected options; every
    other field reads as its trimmed value, left as the trimmed string
    unless it is an optionally signed integer literal, and then turned
    into the Number parseInt gives the literal, with the literal's sign:
    the integer the digits spell when that is below 2^53 (minus zero for
    a zero under a minus sign), a Number within half the spacing of the
    doubles of it above that, and infinity from 2^1024 on. *)
Theorem val_by_field_kind (d : DOM) (i : nat) (el : Elem) :
  nth_error d i = Some el ->
  (is_checkbox el = true -> val d (Some i) = Normal (VBool (checked el)))
  /\ (is_checkbox el = false -> is_radio el = true ->
      forall group, radioGroup d (name el) = Normal group ->
        (forall r, find (is_checked d) group = Some r ->
           val d (Some i) = Normal (VScalar (coerceNumber (value_at d r))))
        /\ (find (is_checked d) group = None ->
           val d (Some i) = Normal (VScalar (coerceNumber ""))))
  /\ (is_checkbox el = false -> is_radio el = false ->
      is_multi_select el = true ->
      val d (Some i) =
        Normal (VSeq (map (fun o => coerceNumber (optValue o))
                          (filter selected (options el)))))
  /\ (is_checkbox el = false -> is_radio el = false ->
      is_multi_select el = false ->
      (forall neg m, IntegerLiteral (trim (value el)) neg m ->
         exists x,
           val d (Some i) = Normal (VScalar (SNum (signed neg x)))
           /\ x = to_double m
           /\ ((m < 2 ^ 53)%Z -> x = Int m)
           /\ (forall m', x = Int m' ->
                 (2 * Z.abs (m' - m) <= spacing m)%Z)
           /\ ((2 ^ 1024 <= m)%Z -> x = Infinity false))
      /\ ((forall neg m, ~ IntegerLiteral (trim (value el)) neg m) ->
         val d (Some i) = Normal (VScalar (SStr (trim (value el)))))).
Proof.
  intros Hel. rewrite (val_at d i el Hel).
  split; [|split; [|split]].
  - apply val_checkbox.
  - intros H1 H2 group Hg. rewrite (val_radio d el H1 H2), Hg.
    split.
    + intros r Hr. simpl. rewrite Hr. reflexivity.
    + intros Hr. simpl. rewrite Hr. reflexivity.
  - apply val_multi_select.
  - intros H1 H2 H3. rewrite (val_other d el H1 H2 H3). split.
    + intros neg m Hl. exists (to_double m).
      refine (conj _ (conj eq_refl (conj _ (conj _ _)))).
      * rewrite (coerceNumber_literal _ neg m Hl). reflexivity.
      * apply to_double_exact.
      * intros m'. apply to_double_near. exact (literal_nonneg _ _ _ Hl).
      * apply to_double_overflow.
    + intros Hz. rewrite (coerceNumber_other _ Hz). reflexivity.
Qed.

(** Outside the radio branch nothing in [val] can throw, and inside it
    only the group query can. *)
Lemma val_normal_unless_group_fails (d : DOM) (el : option nat) :
  (forall i e, el = Some i -> nth_error d i = Some e ->
     is_checkbox e = false -> is_radio e = true ->
     exists group, radioGroup d (name e) = Normal group) ->
  exists v, val d el = Normal v.
Proof.
  intros Hg. destruct el as [i|]; [|eexists; reflexivity].
  unfold Form.val. destruct (nth_error d i) as [e|] eqn:E;
    [|eexists; reflexivity].
  destruct (is_checkbox e) eqn:H1.
  - rewrite (val_checkbox d e H1). eexists; reflexivity.
  - destruct (is_radio e) eqn:H2.
    + destruct (Hg i e eq_refl E H1 H2) as [group Hgroup].
      rewrite (val_radio d e H1 H2), Hgroup. eexists; reflexivity.
    + destruct (is_multi_select e) eqn:H3.
      * rewrite (val_multi_select d e H1 H2 H3). eexists; reflexivity.
      * rewrite (val_other d e H1 H2 H3). eexists; reflexivity.
Qed.

Lemma radioGroup_plain (d : DOM) (n : string) :
  css_plain n = true ->
  radioGroup d n = Normal (positions (fun _ el => is_radio_named n el) 0 d).
Proof.
  intros H. unfold Form.radioGroup, classify. rewrite H. reflexivity.
Qed.

Lemma radioGroup_rejected (d : DOM) (n : string) :
  css_plain n = false -> css_rejected n = true ->
  radioGroup d n = Throw SyntaxError.
Proof.
  intros H1 H2. unfold Form.radioGroup, classify. rewrite H1, H2.
  reflexivity.
Qed.

(** C8, at the input on which the code leaves the claim: a radio button
    whose name holds a double quote. The group selector built from the
    name is not well formed, the query throws, and so does [val]. *)
Theorem val_throws_on_quoted_radio_name (d : DOM) (id v : string)
  (on : bool) :
  val (d ++ [SampleForm.radio id SampleForm.quotedName v on])
      (Some (List.length d))
    = Throw SyntaxError.
Proof.
  unfold Form.val. rewrite nth_error_app2 by lia.
  rewrite Nat.sub_diag. reflexivity.
Qed.

End Reading.

(** " 42 " reads as 42, "-7" as -7, "-0" as minus zero, "abc" as itself,
    a checked checkbox as true and a multiple select without a selected
    option as the empty sequence. *)
Lemma val_by_field_kind_witness :
  let d := [ SampleForm.textInput "a" " 42 " None;
             SampleForm.textInput "b" "-7" None;
             SampleForm.textInput "c" "abc" None;
             SampleForm.checkbox "k" true;
             SampleForm.selectEl "m" true [mkOption "1" false];
             SampleForm.radio "r1" "g" "no" false;
             SampleForm.radio "r2" "g" "12" true;
             SampleForm.textInput "z" "-0" None ] in
  let val := Form.val SampleForm.noExotic d in
  val (Some 0) = Normal (VScalar (SNum (Int 42)))
  /\ val (Some 1) = Normal (VScalar (SNum (Int (-7))))
  /\ val (Some 2) = Normal (VScalar (SStr "abc"))
  /\ val (Some 3) = Normal (VBool true)
  /\ val (Some 4) = Normal (VSeq [])
  /\ val (Some 6) = Normal (VScalar (SNum (Int 12)))
  /\ val (Some 7) = Normal (VScalar (SNum NegZero)).
Proof.
  intros d val.
  pose (spec := fun i el H =>
    val_by_field_kind SampleForm.noExotic d i el H).
  refine (conj _ (conj _ (conj _ (conj _ (conj _ (conj _ _)))))).
  - destruct (proj1 (proj2 (proj2 (proj2 (spec 0 _ eq_refl)))
                       eq_refl eq_refl eq_refl) false 42%Z
                (literal_unsigned [4; 2] ltac:(discriminate)
                   ltac:(repeat constructor)))
      as (x & Hv & _ & Hx & _).
    rewrite (Hx eq_refl) in Hv. exact Hv.
  - destruct (proj1 (proj2 (proj2 (proj2 (spec 1 _ eq_refl)))
                       eq_refl eq_refl eq_refl) true 7%Z
                (literal_negative [7] ltac:(discriminate)
                   ltac:(repeat constructor)))
      as (x & Hv & _ & Hx & _).
    rewrite (Hx eq_refl) in Hv. exact Hv.
  - apply (proj2 (proj2 (proj2 (proj2 (spec 2 _ eq_refl)))
             eq_refl eq_refl eq_refl)).
    intros neg m Hl. apply int_literal_sound in Hl. destruct Hl as [Hl _].
    discriminate Hl.
  - exact (proj1 (spec 3 _ eq_refl) eq_refl).
  - exact (proj1 (proj2 (proj2 (spec 4 _ eq_refl))) eq_refl eq_refl eq_refl).
  - exact (proj1 (proj1 (proj2 (spec 6 _ eq_refl)) eq_refl eq_refl
             [5; 6] eq_refl) 6 eq_refl).
  - destruct (proj1 (proj2 (proj2 (proj2 (spec 7 _ eq_refl)))
                       eq_refl eq_refl eq_refl) true 0%Z
                (literal_negative [0] ltac:(discriminate)
                   ltac:(repeat constructor)))
      as (x & Hv & _ & Hx & _).
    rewrite (Hx eq_refl) in Hv. exact Hv.
Defined.

(** A 1 followed by [n] zeros. *)
Fixpoint zeros (n : nat) : string :=
  match n with
  | 0 => EmptyString
  | S k => String "0" (zeros k)
  end.

(** C3 as it is stated fails: 9007199254740993 is an integer literal,
    and the field that holds it reads as 9007199254740992; the literal of
    a 1 and 309 zeros reads as no integer at all, it reads as
    Infinity. *)
Lemma large_literal_is_not_read_exactly :
  let d := [ SampleForm.textInput "a" "9007199254740993" None;
             SampleForm.textInput "b" (String "1" (zeros 309)) None ] in
  let val := Form.val SampleForm.noExotic d in
  IntegerLiteral "9007199254740993" false 9007199254740993
  /\ val (Some 0) = Normal (VScalar (SNum (Int 9007199254740992)))
  /\ int_literal (String "1" (zeros 309)) = true
  /\ val (Some 1) = Normal (VScalar (SNum (Infinity false))).
Proof.
  intros d val. refine (conj _ (conj _ (conj _ _))).
  - exact (literal_unsigned [9; 0; 0; 7; 1; 9; 9; 2; 5; 4; 7; 4; 0; 9; 9; 3]
             ltac:(discriminate) ltac:(repeat constructor)).
  - vm_compute. reflexivity.
  - vm_compute. reflexivity.
  - vm_compute. reflexivity.
Qed.

End ValFacts.

(* ====================================================================== *)
(** ** Properties of library.form: clearing a field *)
(* ====================================================================== *)

Module ClearFacts.

Import Form ValFacts.

Lemma update_nth_same {A : Type} (f : A -> A) (l : list A) (i : nat) :
  nth_error (update i f l) i = option_map f (nth_error l i).
Proof.
  revert i. induction l as [|x tl IH]; intros [|i]; simpl; auto.
Qed.

Lemma update_nth_other {A : Type} (f : A -> A) (l : list A) (i j : nat) :
  i <> j -> nth_error (update i f l) j = nth_error l j.
Proof.
  revert i j. induction l as [|x tl IH]; intros [|i] [|j] H; simpl; auto.
  congruence.
Qed.

Lemma update_length {A : Type} (f : A -> A) (l : list A) (i : nat) :
  List.length (update i f l) = List.length l.
Proof.
  revert i. induction l as [|x tl IH]; intros [|i]; simpl; auto.
Qed.

Lemma is_checked_update_uncheck (d : DOM) (k r : nat) :
  is_checked (update k uncheck d) r =
    if Nat.eqb k r then false else is_checked d r.
Proof.
  unfold is_checked. destruct (Nat.eqb k r) eqn:E.
  - apply Nat.eqb_eq in E. subst r. rewrite update_nth_same.
    destruct (nth_error d k); reflexivity.
  - apply Nat.eqb_neq in E. rewrite update_nth_other by assumption.
    reflexivity.
Qed.

Lemma uncheck_all_keeps_unchecked (group : list nat) (d : DOM) (r : nat) :
  is_checked d r = false -> is_checked (uncheck_all group d) r = false.
Proof.
  unfold uncheck_all. revert d.
  induction group as [|k tl IH]; intros d H; simpl; [exact H|].
  apply IH. rewrite is_checked_update_uncheck, H.
  destruct (Nat.eqb k r); reflexivity.
Qed.

Lemma uncheck_all_unchecks (group : list nat) (d : DOM) (r : nat) :
  In r group -> is_checked (uncheck_all group d) r = false.
Proof.
  unfold uncheck_all. revert d.
  induction group as [|k tl IH]; intros d Hin; simpl; [contradiction|].
  destruct (Nat.eq_dec k r) as [->|Hne].
  - apply (uncheck_all_keeps_unchecked tl).
    rewrite is_checked_update_uncheck, Nat.eqb_refl. reflexivity.
  - destruct Hin as [Hk|Hin]; [contradiction|]. apply IH. exact Hin.
Qed.

Lemma filter_selected_deselect (os : list OptionEl) :
  filter selected (map deselect os) = [].
Proof. induction os as [|o tl IH]; simpl; auto. Qed.

Lemma deselect_twice (os : list OptionEl) :
  map deselect (map deselect os) = map deselect os.
Proof. rewrite map_map. reflexivity. Qed.

(** What stays selected once [value = v] has been set on a select. *)
Lemma filter_selected_select_first (v : string) (os : list OptionEl) :
  filter selected (select_first v (map deselect os)) =
    if existsb (fun o => String.eqb (optValue o) v) os
    then [mkOption v true] else [].
Proof.
  induction os as [|o tl IH]; simpl; [reflexivity|].
  destruct (String.eqb (optValue o) v) eqn:E; simpl.
  - apply String.eqb_eq in E. rewrite E, filter_selected_deselect.
    reflexivity.
  - exact IH.
Qed.

Lemma first_selected_none (os : list OptionEl) (k : Z) :
  filter selected os = [] -> first_selected k os = (-1)%Z.
Proof.
  revert k. induction os as [|o tl IH]; intros k H; simpl in *; auto.
  destruct (selected o); [discriminate|]. apply IH. exact H.
Qed.

Lemma reached_no_listeners (evt : string) (i : nat) (st : State) :
  listeners st = [] -> reached evt i st = [].
Proof.
  intros H. unfold reached. rewrite H.
  induction (i :: ancestors (dom st) (List.length (dom st)) i) as [|n tl IH];
    simpl; auto.
Qed.

Section Clearing.

Variable exoticGroup : string -> option (DOM -> nat -> bool).

#[local] Abbreviation resetField := (Form.resetField exoticGroup).
#[local] Abbreviation clearValue := (Form.clearValue exoticGroup).
#[local] Abbreviation radioGroup := (Form.radioGroup exoticGroup).

Lemma reset_checkbox (d : DOM) (i : nat) (el : Elem) :
  is_checkbox el = true -> resetField d i el = Normal (update i uncheck d).
Proof.
  unfold is_checkbox, Form.resetField. intros H. rewrite H. reflexivity.
Qed.

Lemma reset_radio (d : DOM) (i : nat) (el : Elem) :
  is_checkbox el = false -> is_radio el = true ->
  resetField d i el =
    cbind (radioGroup d (name el)) (fun group => Normal (uncheck_all group d)).
Proof.
  unfold is_checkbox, is_radio, Form.resetField. intros H1 H2.
  rewrite H1, H2. reflexivity.
Qed.

Lemma reset_multi_select (d : DOM) (i : nat) (el : Elem) :
  is_checkbox el = false -> is_radio el = false ->
  is_multi_select el = true ->
  resetField d i el =
    Normal (update i (fun e => with_options (map deselect (options e)) e) d).
Proof.
  unfold is_checkbox, is_radio, is_multi_select, Form.resetField.
  intros H1 H2 H3. rewrite H1, H2, H3. reflexivity.
Qed.

Lemma reset_single_select (d : DOM) (i : nat) (el : Elem) :
  is_checkbox el = false -> is_radio el = false ->
  is_multi_select el = false -> is_select el = true ->
  resetField d i el =
    Normal (update i (fun e => set_value_empty (set_selectedIndex_none e)) d).
Proof.
  unfold is_checkbox, is_radio, is_multi_select, is_select, Form.resetField.
  intros H1 H2 H3 H4. rewrite H1, H2, H3, H4. reflexivity.
Qed.

Lemma reset_other (d : DOM) (i : nat) (el : Elem) :
  is_checkbox el = false -> is_radio el = false ->
  is_multi_select el = false -> is_select el = false ->
  resetField d i el = Normal (update i set_value_empty d).
Proof.
  unfold is_checkbox, is_radio, is_multi_select, is_select, Form.resetField.
  intros H1 H2 H3 H4. rewrite H1, H2, H3, H4. reflexivity.
Qed.

End Clearing.

(** The options of a select once [selectedIndex = -1] and [value = ""]
    have run. *)
Lemma cleared_options (el : Elem) :
  is_select el = true ->
  options (set_value_empty (set_selectedIndex_none el))
  = select_first "" (map deselect (options el)).
Proof.
  intros Hs.
  assert (Hs' : is_select (set_selectedIndex_none el) = true) by exact Hs.
  unfold set_value_empty. rewrite Hs'.
  unfold set_selectedIndex_none. cbn [options with_options].
  rewrite deselect_twice. reflexivity.
Qed.

Lemma cleared_is_select (el : Elem) :
  is_select (set_value_empty (set_selectedIndex_none el)) = is_select el.
Proof.
  unfold set_value_empty.
  destruct (is_select (set_selectedIndex_none el)); reflexivity.
Qed.

(** The select once [selectedIndex = -1] and [value = ""] have run. *)
Lemma cleared_select (el : Elem) :
  is_select el = true ->
  let el' := set_value_empty (set_selectedIndex_none el) in
  selectedOptions el' =
    (if existsb (fun o => String.eqb (optValue o) "") (options el)
     then [mkOption "" true] else [])
  /\ value el' = "".
Proof.
  intros Hs el'.
  assert (Hopts : selectedOptions el' =
            if existsb (fun o => String.eqb (optValue o) "") (options el)
            then [mkOption "" true] else []).
  { unfold selectedOptions, el'. rewrite (cleared_options el Hs).
    apply filter_selected_select_first. }
  split; [exact Hopts|].
  unfold value. unfold el' at 1. rewrite cleared_is_select, Hs.
  rewrite Hopts. destruct (existsb _ (options el)); reflexivity.
Qed.

(** An element that is not a select, once [value = ""] has run. *)
Lemma emptied_value (el : Elem) :
  is_select el = false -> value (set_value_empty el) = emptied el.
Proof.
  intros Hs. unfold set_value_empty. rewrite Hs. unfold value.
  replace (is_select (with_value (emptied el) el)) with false
    by (symmetry; exact Hs).
  reflexivity.
Qed.

End ClearFacts.

(* ====================================================================== *)
(** ** Properties of library.form: what evaluating a rule preserves *)
(* ====================================================================== *)

Module StepFacts.

Import Form ClearFacts.

(** Two documents with the same elements in the same tree. *)
Definition same_tree (d d' : DOM) : Prop :=
  List.length d' = List.length d /\ forall c, parentOf d' c = parentOf d c.

Lemma same_tree_refl (d : DOM) : same_tree d d.
Proof. split; reflexivity. Qed.

Lemma same_tree_trans (d1 d2 d3 : DOM) :
  same_tree d1 d2 -> same_tree d2 d3 -> same_tree d1 d3.
Proof.
  intros [L1 P1] [L2 P2]. split; [congruence|].
  intros c. rewrite P2. apply P1.
Qed.

Lemma same_tree_update (f : Elem -> Elem) (d : DOM) (i : nat) :
  (forall e, parentElement (f e) = parentElement e) ->
  same_tree d (update i f d).
Proof.
  intros Hf. split; [apply update_length|].
  intros c. unfold parentOf. destruct (Nat.eq_dec i c) as [->|Hne].
  - rewrite update_nth_same. destruct (nth_error d c); simpl; auto.
  - rewrite update_nth_other by assumption. reflexivity.
Qed.

Lemma same_tree_uncheck_all (group : list nat) (d : DOM) :
  same_tree d (uncheck_all group d).
Proof.
  unfold uncheck_all. revert d.
  induction group as [|k tl IH]; intros d; simpl; [apply same_tree_refl|].
  eapply same_tree_trans; [|apply IH].
  apply same_tree_update. reflexivity.
Qed.

Lemma ancestors_same_tree (d d' : DOM) (n c : nat) :
  same_tree d d' -> ancestors d' n c = ancestors d n c.
Proof.
  intros [_ HP]. revert c. induction n as [|n IH]; intros c; simpl; auto.
  rewrite HP. destruct (parentOf d c); [|reflexivity].
  rewrite IH. reflexivity.
Qed.

(** What the steps of a rule evaluation never change: the listeners and
    the shape of the tree. *)
Definition stable (st st' : State) : Prop :=
  listeners st' = listeners st /\ same_tree (dom st) (dom st').

Lemma stable_refl (st : State) : stable st st.
Proof. split; [reflexivity | apply same_tree_refl]. Qed.

Lemma stable_trans (s1 s2 s3 : State) :
  stable s1 s2 -> stable s2 s3 -> stable s1 s3.
Proof.
  intros [L1 T1] [L2 T2]. split; [congruence|].
  eapply same_tree_trans; eassumption.
Qed.

Lemma reached_stable (evt : string) (i : nat) (st st' : State) :
  stable st st' -> reached evt i st' = reached evt i st.
Proof.
  intros [HL HT]. unfold reached.
  rewrite HL, (ancestors_same_tree (dom st) (dom st') _ i HT).
  destruct HT as [-> _]. reflexivity.
Qed.

Lemma stable_record_event (evt : string) (i : nat) (st : State) :
  stable st (record_event evt i st).
Proof. split; [reflexivity | apply same_tree_refl]. Qed.

Lemma stable_set_display (c : nat) (v : string) (st : State) :
  stable st (set_display c v st).
Proof.
  split; [reflexivity|]. simpl. apply same_tree_update. reflexivity.
Qed.

(** The later log is the earlier one with events added at its end. *)
Definition extends (st st' : State) : Prop :=
  exists l, dispatched st' = dispatched st ++ l.

Lemma extends_refl (st : State) : extends st st.
Proof. exists []. rewrite app_nil_r. reflexivity. Qed.

Lemma extends_trans (s1 s2 s3 : State) :
  extends s1 s2 -> extends s2 s3 -> extends s1 s3.
Proof.
  intros [l1 H1] [l2 H2]. exists (l1 ++ l2).
  rewrite H2, H1, app_assoc. reflexivity.
Qed.

(** A result that is an end state, reached normally or by an exception. *)
Definition ends_in (r : Result) (st' : State) : Prop :=
  r = Done st' \/ exists e, r = Threw e st'.

Section Steps.

Variable selects : string -> option (DOM -> nat -> bool).
Variable exoticGroup : string -> option (DOM -> nat -> bool).

#[local] Abbreviation resetField := (Form.resetField exoticGroup).
#[local] Abbreviation clearValue := (Form.clearValue exoticGroup).
#[local] Abbreviation apply := (Form.apply selects exoticGroup).
#[local] Abbreviation apply_body := (Form.apply_body selects exoticGroup).

Lemma resetField_same_tree (d d' : DOM) (i : nat) (el : Elem) :
  resetField d i el = Normal d' -> same_tree d d'.
Proof.
  unfold Form.resetField.
  destruct (String.eqb (toLowerCase (type_ el)) "checkbox").
  { intros H; injection H as <-. apply same_tree_update. reflexivity. }
  destruct (String.eqb (toLowerCase (type_ el)) "radio").
  { destruct (radioGroup exoticGroup d (name el)) as [group|e]; simpl;
      [|discriminate].
    intros H; injection H as <-. apply same_tree_uncheck_all. }
  destruct (String.eqb (toUpperCase (tagName el)) "SELECT" && multiple el).
  { intros H; injection H as <-. apply same_tree_update. reflexivity. }
  destruct (String.eqb (toUpperCase (tagName el)) "SELECT").
  { intros H; injection H as <-. apply same_tree_update.
    intros e. unfold set_value_empty. destruct (is_select _); reflexivity. }
  intros H; injection H as <-. apply same_tree_update.
  intros e. unfold set_value_empty. destruct (is_select _); reflexivity.
Qed.

(** The invariant of a listener: it ends in a state with the same
    listeners, the same tree and a longer or equal log. *)
Definition steady (run : Rule -> State -> Result) : Prop :=
  forall r st st', ends_in (run r st) st' -> stable st st' /\ extends st st'.

Lemma invoke_steady (run : Rule -> State -> Result) (ls : list Listener)
  (st st' : State) :
  steady run -> invoke run ls st = Done st' ->
  stable st st' /\ extends st st'.
Proof.
  intros Hrun. revert st. induction ls as [|l tl IH]; intros st H; simpl in H.
  - injection H as <-. split; [apply stable_refl | apply extends_refl].
  - destruct (run (l_rule l) st) as [s1|e s1|] eqn:E; [| |discriminate].
    + destruct (Hrun _ _ s1 (or_introl E)) as [S1 X1].
      destruct (IH s1 H) as [S2 X2].
      split; [eapply stable_trans | eapply extends_trans]; eassumption.
    + destruct (Hrun (l_rule l) st s1) as [S1 X1].
      { right. exists e. exact E. }
      destruct (IH s1 H) as [S2 X2].
      split; [eapply stable_trans | eapply extends_trans]; eassumption.
Qed.

Lemma dispatchEvent_steady (run : Rule -> State -> Result) (evt : string)
  (i : nat) (st st' : State) :
  steady run -> dispatchEvent run evt i st = Done st' ->
  stable st st'
  /\ exists l, dispatched st' = dispatched st ++ (evt, i) :: l.
Proof.
  intros Hrun H. unfold dispatchEvent, fire in H.
  destruct (invoke_steady run _ _ _ Hrun H) as [S [l X]].
  split.
  - eapply stable_trans; [apply stable_record_event | exact S].
  - exists l. rewrite X. simpl. rewrite <- app_assoc. reflexivity.
Qed.

Lemma dispatchEvent_never_throws (run : Rule -> State -> Result)
  (evt : string) (i : nat) (st st' : State) (e : Error) :
  dispatchEvent run evt i st <> Threw e st'.
Proof.
  unfold dispatchEvent, fire.
  generalize (reached evt i (record_event evt i st)).
  generalize (record_event evt i st).
  intros s ls. revert s.
  induction ls as [|l tl IH]; intros s; simpl; [discriminate|].
  destruct (run (l_rule l) s); [apply IH | apply IH | discriminate].
Qed.

Lemma ends_in_Done (st st' : State) : ends_in (Done st) st' -> st' = st.
Proof.
  intros [H | [e H]]; [injection H as ->; reflexivity | discriminate].
Qed.

Lemma ends_in_Threw (e : Error) (st st' : State) :
  ends_in (Threw e st) st' -> st' = st.
Proof.
  intros [H | [e' H]]; [discriminate | injection H as _ ->; reflexivity].
Qed.

Lemma clearValue_steady (run : Rule -> State -> Result) (el : option nat)
  (st st' : State) :
  steady run -> ends_in (clearValue run el st) st' ->
  stable st st' /\ extends st st'.
Proof.
  intros Hrun H. unfold Form.clearValue in H.
  destruct el as [i|];
    [|apply ends_in_Done in H; subst; split;
       [apply stable_refl | apply extends_refl]].
  destruct (nth_error (dom st) i) as [e|];
    [|apply ends_in_Done in H; subst; split;
       [apply stable_refl | apply extends_refl]].
  destruct (resetField (dom st) i e) as [d'|err] eqn:R;
    [|apply ends_in_Threw in H; subst; split;
       [apply stable_refl | apply extends_refl]].
  assert (S0 : stable st (with_dom d' st)).
  { split; [reflexivity|]. exact (resetField_same_tree _ _ _ _ R). }
  destruct (dispatchEvent run "change" i (with_dom d' st)) as [s1|e1 s1|] eqn:D1.
  - simpl in H.
    destruct (dispatchEvent_steady run _ _ _ _ Hrun D1) as [S1 [l1 X1]].
    destruct H as [H | [e2 H]];
      [|exfalso; exact (dispatchEvent_never_throws _ _ _ _ _ _ H)].
    destruct (dispatchEvent_steady run _ _ _ _ Hrun H) as [S2 [l2 X2]].
    split.
    + eapply stable_trans; [exact S0|].
      eapply stable_trans; eassumption.
    + exists (("change", i) :: l1 ++ ("input", i) :: l2).
      rewrite X2, X1. simpl. rewrite <- app_assoc. reflexivity.
  - exfalso. exact (dispatchEvent_never_throws _ _ _ _ _ _ D1).
  - simpl in H. destruct H as [H | [e2 H]]; discriminate.
Qed.

Lemma apply_body_steady (depth : JSNum) (run : Rule -> State -> Result) :
  steady run -> steady (apply_body depth run).
Proof.
  intros Hrun r st st' H. unfold Form.apply_body in H.
  destruct (querySelector selects (dom st) (target r)) as [[t|]|e];
    [| apply ends_in_Done in H; subst; split;
       [apply stable_refl | apply extends_refl]
     | apply ends_in_Threw in H; subst; split;
       [apply stable_refl | apply extends_refl] ].
  destruct (prop "when" r) as [| b | s | f];
    try (apply ends_in_Threw in H; subst; split;
         [apply stable_refl | apply extends_refl]).
  destruct (f (dom st) _) as [show|e];
    [| apply ends_in_Threw in H; subst; split;
       [apply stable_refl | apply extends_refl] ].
  cbv zeta in H.
  destruct (negb show && truthy (prop "clearWhenHidden" r)).
  - destruct (clearValue_steady run _ _ _ Hrun H) as [S X].
    split.
    + eapply stable_trans; [apply stable_set_display | exact S].
    + destruct X as [l X]. exists l. exact X.
  - apply ends_in_Done in H. subst. split.
    + apply stable_set_display.
    + exists []. simpl. rewrite app_nil_r. reflexivity.
Qed.

Lemma apply_steady (depth : JSNum) (fuel : nat) : steady (apply depth fuel).
Proof.
  induction fuel as [|fuel IH].
  - intros r st st' [H | [e H]]; discriminate.
  - exact (apply_body_steady depth (apply depth fuel) IH).
Qed.

(** More fuel never changes an answer already obtained. *)
Definition answers (run run' : Rule -> State -> Result) : Prop :=
  forall r st, run r st <> OutOfFuel -> run' r st = run r st.

Lemma invoke_answers (run run' : Rule -> State -> Result)
  (ls : list Listener) (st : State) :
  answers run run' ->
  invoke run ls st <> OutOfFuel -> invoke run' ls st = invoke run ls st.
Proof.
  intros Ha. revert st. induction ls as [|l tl IH]; intros st H; simpl in *;
    [reflexivity|].
  destruct (run (l_rule l) st) as [s1|e s1|] eqn:E; [| |congruence];
    rewrite (Ha (l_rule l) st) by congruence; rewrite E; apply IH; exact H.
Qed.

Lemma clearValue_answers (run run' : Rule -> State -> Result)
  (el : option nat) (st : State) :
  answers run run' ->
  clearValue run el st <> OutOfFuel ->
  clearValue run' el st = clearValue run el st.
Proof.
  intros Ha H. unfold Form.clearValue in *.
  destruct el as [i|]; [|reflexivity].
  destruct (nth_error (dom st) i) as [e|]; [|reflexivity].
  destruct (resetField (dom st) i e) as [d'|err]; [|reflexivity].
  unfold dispatchEvent, fire in *.
  destruct (invoke run (reached "change" i _) _) as [s1|e1 s1|] eqn:D1.
  - rewrite (invoke_answers run run' _ _ Ha) by congruence.
    rewrite D1. simpl in *. apply invoke_answers; assumption.
  - rewrite (invoke_answers run run' _ _ Ha) by congruence.
    rewrite D1. reflexivity.
  - simpl in H. congruence.
Qed.

Lemma apply_more_fuel (depth : JSNum) (fuel : nat) :
  answers (apply depth fuel) (apply depth (S fuel)).
Proof.
  induction fuel as [|fuel IH]; intros r st H; [simpl in H; congruence|].
  change (apply_body depth (apply depth (S fuel)) r st
          = apply_body depth (apply depth fuel) r st).
  change (apply_body depth (apply depth fuel) r st <> OutOfFuel) in H.
  unfold Form.apply_body in *.
  destruct (querySelector selects (dom st) (target r)) as [[t|]|e];
    try reflexivity.
  destruct (prop "when" r) as [| b | s | f]; try reflexivity.
  destruct (f (dom st) _) as [show|e]; try reflexivity.
  cbv zeta in *.
  destruct (negb show && truthy (prop "clearWhenHidden" r)); [|reflexivity].
  apply clearValue_answers; assumption.
Qed.

End Steps.

End StepFacts.

(* ====================================================================== *)
(** ** Properties of library.form: clearValue *)
(* ====================================================================== *)

Module ClearValueFacts.

Import Form ValFacts ClearFacts StepFacts.

(** The position of the first option whose value is the empty string. *)
Fixpoint first_blank (os : list OptionEl) : option nat :=
  match os with
  | [] => None
  | o :: tl =>
      if String.eqb (optValue o) "" then Some 0
      else option_map S (first_blank tl)
  end.

Definition is_range (el : Elem) : bool :=
  String.eqb (toUpperCase (tagName el)) "INPUT"
  && String.eqb (toLowerCase (type_ el)) "range".

Definition is_color (el : Elem) : bool :=
  String.eqb (toUpperCase (tagName el)) "INPUT"
  && String.eqb (toLowerCase (type_ el)) "color".

Lemma select_first_values (v : string) (os : list OptionEl) :
  map optValue (select_first v (map deselect os)) = map optValue os.
Proof.
  induction os as [|o tl IH]; simpl; [reflexivity|].
  destruct (String.eqb (optValue o) v); simpl.
  - rewrite map_map. reflexivity.
  - rewrite IH. reflexivity.
Qed.

Lemma deselected_nth (os : list OptionEl) (k : nat) (o : OptionEl) :
  nth_error (map deselect os) k = Some o -> selected o = false.
Proof.
  rewrite nth_error_map. destruct (nth_error os k); simpl; [|discriminate].
  intros H. injection H as <-. reflexivity.
Qed.

(** After [value = ""] on a select the selected option is the first
    blank one, and no other. *)
Lemma select_first_blank_nth (os : list OptionEl) (k : nat) (o : OptionEl) :
  nth_error (select_first "" (map deselect os)) k = Some o ->
  (selected o = true <-> first_blank os = Some k).
Proof.
  revert k. induction os as [|x tl IH]; intros k; simpl.
  - destruct k; discriminate.
  - destruct (String.eqb (optValue x) "") eqn:E.
    + destruct k as [|k]; simpl.
      * intros H. injection H as <-. split; reflexivity.
      * intros H. rewrite (deselected_nth tl k o H).
        split; discriminate.
    + destruct k as [|k]; simpl.
      * intros H. injection H as <-. simpl.
        destruct (first_blank tl); simpl; split; discriminate.
      * intros H. rewrite (IH k H).
        destruct (first_blank tl) as [j|]; simpl; split; congruence.
Qed.

Lemma select_first_blank_index (os : list OptionEl) (z : Z) :
  first_selected z (select_first "" (map deselect os)) =
    match first_blank os with
    | Some k => (z + Z.of_nat k)%Z
    | None => (-1)%Z
    end.
Proof.
  revert z. induction os as [|x tl IH]; intros z; simpl; [reflexivity|].
  destruct (String.eqb (optValue x) "") eqn:E; simpl.
  - lia.
  - rewrite IH. destruct (first_blank tl) as [k|]; simpl; lia.
Qed.

Lemma emptied_cases (el : Elem) :
  (is_range el = true -> emptied el = rangeDefault el)
  /\ (is_range el = false -> is_color el = true -> emptied el = "#000000")
  /\ (is_range el = false -> is_color el = false -> emptied el = "").
Proof.
  unfold is_range, is_color, emptied.
  destruct (String.eqb (toUpperCase (tagName el)) "INPUT");
    destruct (String.eqb (toLowerCase (type_ el)) "range");
    destruct (String.eqb (toLowerCase (type_ el)) "color");
    simpl; repeat split; intros; congruence.
Qed.

Section Clearing.

Variable selects : string -> option (DOM -> nat -> bool).
Variable exoticGroup : string -> option (DOM -> nat -> bool).

#[local] Abbreviation resetField := (Form.resetField exoticGroup).
#[local] Abbreviation clearValue := (Form.clearValue exoticGroup).
#[local] Abbreviation radioGroup := (Form.radioGroup exoticGroup).
#[local] Abbreviation apply := (Form.apply selects exoticGroup).

(** One call of [clearValue] that resets the field: unless a listener
    runs out of the bound, it records "change", lets the listeners that
    hear it run, records "input" and lets the listeners run again. *)
Lemma clearValue_steps (run : Rule -> State -> Result) (i : nat)
  (st : State) (el : Elem) (d' : DOM) :
  steady run ->
  nth_error (dom st) i = Some el ->
  resetField (dom st) i el = Normal d' ->
  clearValue run (Some i) st = OutOfFuel
  \/ exists s1 st' l1 l2,
       fire run "change" i (record_event "change" i (with_dom d' st))
         = Done s1
       /\ dispatched s1 = dispatched st ++ ("change", i) :: l1
       /\ fire run "input" i (record_event "input" i s1) = Done st'
       /\ dispatched st' = dispatched s1 ++ ("input", i) :: l2
       /\ clearValue run (Some i) st = Done st'.
Proof.
  intros Hrun Hel Hreset. unfold Form.clearValue.
  rewrite Hel, Hreset.
  destruct (dispatchEvent run "change" i (with_dom d' st))
    as [s1|e1 s1|] eqn:D1; cbn [rbind].
  - destruct (dispatchEvent run "input" i s1) as [s2|e2 s2|] eqn:D2.
    + right.
      destruct (dispatchEvent_steady run _ _ _ _ Hrun D1) as [_ [l1 X1]].
      destruct (dispatchEvent_steady run _ _ _ _ Hrun D2) as [_ [l2 X2]].
      exists s1, s2, l1, l2.
      refine (conj D1 (conj X1 (conj D2 (conj X2 eq_refl)))).
    + exfalso. exact (dispatchEvent_never_throws _ _ _ _ _ _ D2).
    + left. reflexivity.
  - exfalso. exact (dispatchEvent_never_throws _ _ _ _ _ _ D1).
  - left. reflexivity.
Qed.

(** The events one completed call of [clearValue] leaves in the log: its
    own two, each followed by what the listeners it reached dispatched. *)
Lemma clearValue_events (run : Rule -> State -> Result) (i : nat)
  (st st' : State) (el : Elem) (d' : DOM) :
  steady run ->
  nth_error (dom st) i = Some el ->
  resetField (dom st) i el = Normal d' ->
  clearValue run (Some i) st = Done st' ->
  exists l1 l2,
    dispatched st' = dispatched st ++ ("change", i) :: l1 ++ ("input", i) :: l2.
Proof.
  intros Hrun Hel Hreset H.
  destruct (clearValue_steps run i st el d' Hrun Hel Hreset)
    as [Ho | (s1 & s2 & l1 & l2 & _ & X1 & _ & X2 & Hd)]; [congruence|].
  assert (s2 = st') by congruence. subst s2.
  exists l1, l2. rewrite X2, X1. simpl.
  rewrite <- app_assoc. reflexivity.
Qed.

(** A call of [clearValue] on an element whose events reach no listener. *)
Lemma clearValue_unheard (run : Rule -> State -> Result) (i : nat)
  (st : State) (el : Elem) (d' : DOM) :
  (forall evt, reached evt i st = []) ->
  nth_error (dom st) i = Some el ->
  resetField (dom st) i el = Normal d' ->
  clearValue run (Some i) st =
    Done (mkState d' (listeners st)
            (dispatched st ++ [("change", i); ("input", i)])).
Proof.
  intros Hq Hel Hreset. unfold Form.clearValue.
  rewrite Hel, Hreset. unfold dispatchEvent, fire.
  assert (S0 : stable st (with_dom d' st)).
  { split; [reflexivity|].
    exact (resetField_same_tree exoticGroup _ _ _ _ Hreset). }
  assert (S1 : stable st (record_event "change" i (with_dom d' st))).
  { eapply stable_trans; [exact S0 | apply stable_record_event]. }
  rewrite (reached_stable _ _ _ _ S1), Hq. simpl.
  assert (S2 : stable st (record_event "input" i
                            (record_event "change" i (with_dom d' st)))).
  { eapply stable_trans; [exact S1 | apply stable_record_event]. }
  rewrite (reached_stable _ _ _ _ S2), Hq. simpl.
  unfold record_event, with_dom. cbn [dom listeners dispatched].
  rewrite <- app_assoc. reflexivity.
Qed.

(** C4, as the code has it. For every field element that clearing
    resets: a checkbox ends unchecked; every radio of the cleared radio's
    name group ends unchecked; every option of a multiple select ends
    deselected; a single select keeps the values of its options and ends
    reading the empty string, with its first option of empty value
    selected and no other (selectedIndex is that option's position), and
    with no option selected (selectedIndex -1) only when none of its
    options has the empty value; any other field ends with the value the
    control makes of the empty string: its default value for a range
    input, #000000 for a color input, the empty string otherwise. And
    each call that completes records one "change" event on the element,
    runs the listeners that event reaches, records one "input" event on
    the element and runs the listeners that one reaches; every other
    entry of the log comes from those listeners, so the two events are
    the only ones when the element's events reach no listener. A call
    does not complete only when the listeners dispatch without end. *)
Theorem clearValue_by_field_kind (d d' : DOM) (i : nat) (el : Elem) :
  nth_error d i = Some el ->
  resetField d i el = Normal d' ->
  (is_checkbox el = true -> is_checked d' i = false)
  /\ (is_checkbox el = false -> is_radio el = true ->
      forall group, radioGroup d (name el) = Normal group ->
      forall r, In r group -> is_checked d' r = false)
  /\ (is_checkbox el = false -> is_radio el = false ->
      is_multi_select el = true ->
      exists el', nth_error d' i = Some el' /\ selectedOptions el' = [])
  /\ (is_checkbox el = false -> is_radio el = false ->
      is_multi_select el = false -> is_select el = true ->
      exists el', nth_error d' i = Some el' /\ value el' = ""
        /\ map optValue (options el') = map optValue (options el)
        /\ (forall k o, nth_error (options el') k = Some o ->
              (selected o = true <-> first_blank (options el) = Some k))
        /\ selectedIndex el' =
             match first_blank (options el) with
             | Some k => Z.of_nat k
             | None => (-1)%Z
             end)
  /\ (is_checkbox el = false -> is_radio el = false ->
      is_multi_select el = false -> is_select el = false ->
      exists el', nth_error d' i = Some el'
        /\ (is_range el = true -> value el' = rangeDefault el)
        /\ (is_range el = false -> is_color el = true ->
            value el' = "#000000")
        /\ (is_range el = false -> is_color el = false -> value el' = ""))
  /\ (forall depth fuel st, dom st = d ->
      let run := apply depth fuel in
      clearValue run (Some i) st = OutOfFuel
      \/ exists s1 st' l1 l2,
           fire run "change" i (record_event "change" i (with_dom d' st))
             = Done s1
           /\ dispatched s1 = dispatched st ++ ("change", i) :: l1
           /\ fire run "input" i (record_event "input" i s1) = Done st'
           /\ dispatched st' = dispatched s1 ++ ("input", i) :: l2
           /\ clearValue run (Some i) st = Done st')
  /\ (forall depth fuel st, dom st = d ->
      (forall evt, reached evt i st = []) ->
      clearValue (apply depth fuel) (Some i) st =
        Done (mkState d' (listeners st)
                (dispatched st ++ [("change", i); ("input", i)]))).
Proof.
  intros Hel Hreset.
  refine (conj _ (conj _ (conj _ (conj _ (conj _ (conj _ _)))))).
  - intros H. rewrite (reset_checkbox exoticGroup d i el H) in Hreset.
    injection Hreset as <-.
    rewrite is_checked_update_uncheck, Nat.eqb_refl. reflexivity.
  - intros H1 H2 group Hg r Hr.
    rewrite (reset_radio exoticGroup d i el H1 H2), Hg in Hreset.
    injection Hreset as <-. apply uncheck_all_unchecks. exact Hr.
  - intros H1 H2 H3.
    rewrite (reset_multi_select exoticGroup d i el H1 H2 H3) in Hreset.
    injection Hreset as <-. rewrite update_nth_same, Hel. simpl.
    eexists. split; [reflexivity|].
    unfold selectedOptions. simpl. apply filter_selected_deselect.
  - intros H1 H2 H3 H4.
    rewrite (reset_single_select exoticGroup d i el H1 H2 H3 H4) in Hreset.
    injection Hreset as <-. rewrite update_nth_same, Hel.
    cbn [option_map].
    eexists. split; [reflexivity|].
    destruct (cleared_select el H4) as [_ Hval].
    split; [exact Hval|].
    unfold selectedIndex. rewrite (cleared_options el H4).
    refine (conj _ (conj _ _)).
    + apply select_first_values.
    + apply select_first_blank_nth.
    + rewrite select_first_blank_index.
      destruct (first_blank (options el)); reflexivity.
  - intros H1 H2 H3 H4.
    rewrite (reset_other exoticGroup d i el H1 H2 H3 H4) in Hreset.
    injection Hreset as <-. rewrite update_nth_same, Hel.
    cbn [option_map].
    eexists. split; [reflexivity|].
    rewrite (emptied_value el H4). apply emptied_cases.
  - intros depth fuel st Hd run. subst d.
    exact (clearValue_steps run i st el d'
             (apply_steady selects exoticGroup depth fuel) Hel Hreset).
  - intros depth fuel st Hd Hq. subst d.
    exact (clearValue_unheard _ i st el d' Hq Hel Hreset).
Qed.

End Clearing.

(** C4 as it is stated fails on a single select that has an option of
    empty value, which ends selected, and on a range input, which ends
    with its default value and not with the empty string. *)
Lemma clearValue_single_select_selects_blank :
  (exists st' el',
     Form.clearValue SampleForm.noExotic
       (Form.apply SampleForm.byId SampleForm.noExotic three 1)
       (Some 0) (mkState [SampleForm.countrySelect] [] []) = Done st'
     /\ nth_error (dom st') 0 = Some el'
     /\ selectedIndex el' = 0%Z
     /\ selectedOptions el' <> [])
  /\ (exists st' el',
        Form.clearValue SampleForm.noExotic
          (Form.apply SampleForm.byId SampleForm.noExotic three 1)
          (Some 0) (mkState [SampleForm.volume] [] []) = Done st'
        /\ nth_error (dom st') 0 = Some el'
        /\ value el' = "50").
Proof.
  split.
  - eexists. eexists.
    split; [reflexivity|]. split; [reflexivity|].
    split; [reflexivity|]. discriminate.
  - eexists. eexists.
    split; [reflexivity|]. split; reflexivity.
Qed.

(** A checked checkbox ends unchecked, and the two events of clearing it
    are the only ones on a page without listeners. *)
Lemma clearValue_by_field_kind_witness :
  is_checked (update 0 uncheck [SampleForm.checkbox "k" true]) 0 = false
  /\ Form.clearValue SampleForm.noExotic
       (Form.apply SampleForm.byId SampleForm.noExotic three 1) (Some 0)
       (mkState [SampleForm.checkbox "k" true] [] [])
     = Done (mkState (update 0 uncheck [SampleForm.checkbox "k" true]) []
               [("change", 0); ("input", 0)]).
Proof.
  pose (spec := clearValue_by_field_kind SampleForm.byId SampleForm.noExotic
                  [SampleForm.checkbox "k" true] _ 0 _ eq_refl eq_refl).
  split.
  - exact (proj1 spec eq_refl).
  - exact (proj2 (proj2 (proj2 (proj2 (proj2 (proj2 spec)))))
             three 1 (mkState [SampleForm.checkbox "k" true] [] [])
             eq_refl (fun evt => eq_refl)).
Defined.

End ClearValueFacts.

(* ====================================================================== *)
(** ** Properties of library.form: evaluating a rule *)
(* ====================================================================== *)

Module RuleFacts.

Import Form ClearFacts StepFacts.

(** A page with two text fields, each three levels below the form. *)
Definition twoFields : DOM :=
  [ SampleForm.div "form" None;
    SampleForm.div "rowA" (Some 0);
    SampleForm.div "cellA" (Some 1);
    SampleForm.textInput "a" "2" (Some 2);
    SampleForm.div "rowB" (Some 0);
    SampleForm.div "cellB" (Some 4);
    SampleForm.textInput "b" "kept" (Some 5) ].

Definition page (d : DOM) : State := mkState d [] [].

(** [ctx => ctx.val("#a") === 1], written against the names the code
    gives the context. *)
Definition aIsOne : RuleFun :=
  fun _ ctx =>
    match lookup "val" ctx with
    | Some (CVal v) =>
        cbind (v "#a") (fun x =>
          Normal match x with
                 | VScalar (SNum (Int 1)) => true
                 | _ => false
                 end)
    | _ => Throw TypeError
    end.

(** The rule of the description's scenario, under the property names the
    code reads. *)
Definition showBWhenAIsOne : Rule :=
  mkRule "#b" (Some ["#a"])
         [("when", JFun aIsOne); ("clearWhenHidden", JBool true)].

(** The same rule under the property names the description declares, with
    a function that would show the field. *)
Definition declaredRule : Rule :=
  mkRule "#b" (Some ["#a"])
         [("predicate", JFun (fun _ _ => Normal true));
          ("clearOnHide", JBool true)].

Section Rules.

Variable selects : string -> option (DOM -> nat -> bool).
Variable exoticGroup : string -> option (DOM -> nat -> bool).

#[local] Abbreviation querySelector := (Form.querySelector selects).
#[local] Abbreviation val := (Form.val exoticGroup).
#[local] Abbreviation make_ctx := (Form.make_ctx selects exoticGroup).
#[local] Abbreviation clearValue := (Form.clearValue exoticGroup).
#[local] Abbreviation apply := (Form.apply selects exoticGroup).

Lemma apply_no_function (depth : JSNum) (fuel : nat) (rule : Rule)
  (st : State) (t : nat) :
  querySelector (dom st) (target rule) = Normal (Some t) ->
  (forall f, prop "when" rule <> JFun f) ->
  apply depth (S fuel) rule st = Threw TypeError st.
Proof.
  intros Ht Hw. simpl. unfold Form.apply_body. rewrite Ht.
  destruct (prop "when" rule) as [| b | s | f]; try reflexivity.
  exfalso. exact (Hw f eq_refl).
Qed.

(** C5, as the code has it. The show/hide decision of a rule comes from
    calling the function stored under the rule's property [when]; the
    clearing is requested by the property [clearWhenHidden]; and the
    context passed to the function has exactly the properties [val]
    (the coerced reading of the element a selector finds), [get] (that
    element, or null) and [targetEl] (the resolved target). *)
Theorem apply_calls_when (depth : JSNum) (fuel : nat) (rule : Rule)
  (st : State) (t : nat) (f : RuleFun) :
  querySelector (dom st) (target rule) = Normal (Some t) ->
  prop "when" rule = JFun f ->
  let ctx := make_ctx (dom st) t in
  let container := fieldWrap (dom st) t depth in
  map fst ctx = ["val"; "get"; "targetEl"]
  /\ (exists v, lookup "val" ctx = Some (CVal v)
        /\ forall s, v s = cbind (querySelector (dom st) s) (val (dom st)))
  /\ (exists g, lookup "get" ctx = Some (CGet g)
        /\ forall s, g s = querySelector (dom st) s)
  /\ lookup "targetEl" ctx = Some (CEl t)
  /\ (forall e, f (dom st) ctx = Throw e ->
        apply depth (S fuel) rule st = Threw e st)
  /\ (f (dom st) ctx = Normal true ->
        apply depth (S fuel) rule st = Done (set_display container "" st))
  /\ (f (dom st) ctx = Normal false ->
      truthy (prop "clearWhenHidden" rule) = false ->
        apply depth (S fuel) rule st = Done (set_display container "none" st))
  /\ (f (dom st) ctx = Normal false ->
      truthy (prop "clearWhenHidden" rule) = true ->
        apply depth (S fuel) rule st =
          clearValue (apply depth fuel) (Some t)
                     (set_display container "none" st)).
Proof.
  intros Ht Hw ctx container.
  refine (conj eq_refl (conj _ (conj _ (conj eq_refl _)))).
  - eexists. split; [reflexivity|]. reflexivity.
  - eexists. split; [reflexivity|]. reflexivity.
  - assert (Hbody : apply depth (S fuel) rule st =
        match f (dom st) ctx with
        | Throw e => Threw e st
        | Normal show =>
            if negb show && truthy (prop "clearWhenHidden" rule)
            then clearValue (apply depth fuel) (Some t)
                   (set_display container (if show then "" else "none") st)
            else Done (set_display container (if show then "" else "none") st)
        end).
    { simpl. unfold Form.apply_body. rewrite Ht, Hw. reflexivity. }
    rewrite Hbody.
    refine (conj _ (conj _ (conj _ _))).
    + intros e He. rewrite He. reflexivity.
    + intros Hf. rewrite Hf. reflexivity.
    + intros Hf Hc. rewrite Hf, Hc. reflexivity.
    + intros Hf Hc. rewrite Hf, Hc. reflexivity.
Qed.

(** C6. A rule whose target selector finds no element is skipped: its
    evaluation ends normally in the state it started from, whatever the
    rule's function is, so nothing is shown, hidden, cleared or
    dispatched. A dependency selector that finds no element contributes
    no element to listen on, and a rule none of whose dependencies is
    found is installed without a listener and without an error. *)
Theorem missing_elements_are_skipped (depth : JSNum) (fuel : nat)
  (rule : Rule) (st : State) :
  (querySelector (dom st) (target rule) = Normal None ->
     apply depth (S fuel) rule st = Done st)
  /\ (forall pre s post,
        querySelector (dom st) s = Normal None ->
        depEls selects (dom st) (pre ++ s :: post)
          = depEls selects (dom st) (pre ++ post))
  /\ ((forall s, In s (deps_or_empty rule) ->
         querySelector (dom st) s = Normal None) ->
      install_rule selects exoticGroup depth fuel rule st
        = apply depth fuel rule st).
Proof.
  refine (conj _ (conj _ _)).
  - intros Ht. simpl. unfold Form.apply_body. rewrite Ht. reflexivity.
  - intros pre s post Hs. induction pre as [|p tl IH]; simpl.
    + rewrite Hs. simpl. destruct (depEls selects (dom st) post); reflexivity.
    + rewrite IH. reflexivity.
  - intros Hdeps. unfold install_rule.
    assert (Hnone : depEls selects (dom st) (deps_or_empty rule) = Normal []).
    { induction (deps_or_empty rule) as [|s tl IH]; simpl; [reflexivity|].
      rewrite (Hdeps s (or_introl eq_refl)). simpl.
      rewrite IH; [reflexivity|].
      intros s' Hin. apply Hdeps. right. exact Hin. }
    rewrite Hnone. unfold add_listeners, listeners_for. simpl.
    rewrite app_nil_r. destruct st; reflexivity.
Qed.

End Rules.

(** C5 as it is stated fails: a rule written with the declared property
    names has no [when], so its evaluation throws a TypeError instead of
    deciding, and the context has none of the declared properties. *)
Lemma declared_rule_is_not_evaluated :
  Form.apply SampleForm.byId SampleForm.noExotic three 3
    declaredRule (page twoFields) = Threw TypeError (page twoFields)
  /\ lookup "valueOf"
       (Form.make_ctx SampleForm.byId SampleForm.noExotic twoFields 6) = None
  /\ lookup "elementOf"
       (Form.make_ctx SampleForm.byId SampleForm.noExotic twoFields 6) = None
  /\ lookup "targetElement"
       (Form.make_ctx SampleForm.byId SampleForm.noExotic twoFields 6) = None.
Proof. repeat split. Qed.

(** The scenario of the description: with "2" in #a the container of #b
    (three levels up: the form) is hidden and #b is cleared, with the two
    events dispatched on it. *)
Lemma apply_calls_when_witness :
  Form.apply SampleForm.byId SampleForm.noExotic three 1
    showBWhenAIsOne (page twoFields)
  = Form.clearValue SampleForm.noExotic
      (Form.apply SampleForm.byId SampleForm.noExotic three 0) (Some 6)
      (set_display 0 "none" (page twoFields)).
Proof.
  apply (proj2 (proj2 (proj2 (proj2 (proj2 (proj2 (proj2
           (apply_calls_when SampleForm.byId SampleForm.noExotic three 0
              showBWhenAIsOne (page twoFields) 6 aIsOne
              eq_refl eq_refl)))))))); reflexivity.
Defined.

Lemma missing_elements_are_skipped_witness :
  Form.apply SampleForm.byId SampleForm.noExotic three 1
    (mkRule "#gone" (Some ["#a"]) []) (page twoFields) = Done (page twoFields).
Proof.
  apply (proj1 (missing_elements_are_skipped SampleForm.byId
                  SampleForm.noExotic three 0
                  (mkRule "#gone" (Some ["#a"]) []) (page twoFields))).
  reflexivity.
Defined.

End RuleFacts.

(* ====================================================================== *)
(** ** Properties of library.form: hidden rules, events and reapplyAll *)
(* ====================================================================== *)

Module SyncFacts.

Import Form ClearFacts StepFacts ClearValueFacts RuleFacts.

Section Sync.

Variable selects : string -> option (DOM -> nat -> bool).
Variable exoticGroup : string -> option (DOM -> nat -> bool).

#[local] Abbreviation querySelector := (Form.querySelector selects).
#[local] Abbreviation make_ctx := (Form.make_ctx selects exoticGroup).
#[local] Abbreviation resetField := (Form.resetField exoticGroup).
#[local] Abbreviation clearValue := (Form.clearValue exoticGroup).
#[local] Abbreviation apply := (Form.apply selects exoticGroup).
#[local] Abbreviation reapplyAll := (Form.reapplyAll selects exoticGroup).
#[local] Abbreviation nativeEvent := (Form.nativeEvent selects exoticGroup).


(** Running the rules of a list of listeners one after the other, as
    [forEach] does, agrees with delivering an event to those listeners
    as long as no rule throws: [forEach] stops at an exception, the
    event goes on to the next listener. *)
Lemma invoke_forEach (run : Rule -> State -> Result) (ls : list Listener)
  (st : State) :
  (forall e s, forEach run (map l_rule ls) st <> Threw e s) ->
  invoke run ls st = forEach run (map l_rule ls) st.
Proof.
  revert st. induction ls as [|l tl IH]; intros st H; simpl in *;
    [reflexivity|].
  destruct (run (l_rule l) st) as [s1|e s1|]; simpl in *.
  - apply IH. exact H.
  - exfalso. exact (H e s1 eq_refl).
  - reflexivity.
Qed.

End Sync.

(** The rule of the scenario installed on the sample page: "2" in #a, so
    #b has been hidden and cleared, and #a carries the rule's listeners. *)
Definition installed : State :=
  match setupConditionalFields SampleForm.byId SampleForm.noExotic 2
          [showBWhenAIsOne] None (page twoFields) with
  | Done st => st
  | _ => page twoFields
  end.


(** A third field with a rule of its own that always hides and clears. *)
Definition threeFields : DOM :=
  twoFields ++ [SampleForm.textInput "c" "x" None].

Definition alwaysClearC : Rule :=
  mkRule "#c" None
         [("when", JFun (fun _ _ => Normal false));
          ("clearWhenHidden", JBool true)].

Definition bothRules : list Rule := [showBWhenAIsOne; alwaysClearC].

Definition bothInstalled : State :=
  match setupConditionalFields SampleForm.byId SampleForm.noExotic 2
          bothRules None (page threeFields) with
  | Done st => st
  | _ => page threeFields
  end.

(** The host writes [v] into the element [i] without firing an event. *)
Definition write (i : nat) (v : string) (st : State) : State :=
  with_dom (update i (with_value v) (dom st)) st.

(** A rule on #c that always hides and clears, and that lists #a and the
    cell around #a as its dependencies. *)
Definition clearCOnAOrCell : Rule :=
  mkRule "#c" (Some ["#a"; "#cellA"])
         [("when", JFun (fun _ _ => Normal false));
          ("clearWhenHidden", JBool true)].

Definition cellInstalled : State :=
  match setupConditionalFields SampleForm.byId SampleForm.noExotic 2
          [clearCOnAOrCell] None (page threeFields) with
  | Done st => st
  | _ => page threeFields
  end.

(** C7 as it is stated fails. After "1" is written into #a, a native
    change event on #a evaluates only the rule that lists #a, while
    reapplyAll() also evaluates the rule on #c, which dispatches its two
    events once more: the two end states differ. And a rule that lists
    #a and an ancestor of #a is evaluated twice by the event, which
    bubbles, and once by reapplyAll(): four events are dispatched on #c
    in the one case and two in the other. *)
Lemma reapplyAll_differs_from_event :
  (exists sA sB,
     Form.reapplyAll SampleForm.byId SampleForm.noExotic 2 bothRules None
       (write 3 "1" bothInstalled) = Done sA
     /\ Form.nativeEvent SampleForm.byId SampleForm.noExotic 2 None "change" 3
          (write 3 "1" bothInstalled) = Done sB
     /\ dispatched sB = dispatched bothInstalled
     /\ dispatched sA
          = dispatched bothInstalled ++ [("change", 7); ("input", 7)]
     /\ sA <> sB)
  /\ (exists sA sB,
        Form.reapplyAll SampleForm.byId SampleForm.noExotic 2
          [clearCOnAOrCell] None (write 3 "1" cellInstalled) = Done sA
        /\ Form.nativeEvent SampleForm.byId SampleForm.noExotic 2 None
             "change" 3 (write 3 "1" cellInstalled) = Done sB
        /\ dispatched sA
             = dispatched cellInstalled ++ [("change", 7); ("input", 7)]
        /\ dispatched sB
             = dispatched cellInstalled
               ++ [("change", 7); ("input", 7); ("change", 7); ("input", 7)]).
Proof.
  split.
  - eexists. eexists.
    split; [reflexivity|]. split; [reflexivity|].
    split; [reflexivity|]. split; [reflexivity|].
    intros H. apply (f_equal dispatched) in H. vm_compute in H. discriminate.
  - eexists. eexists.
    split; [reflexivity|]. split; [reflexivity|].
    split; reflexivity.
Qed.

End SyncFacts.

(* ====================================================================== *)
(** ** Defaults of the two option objects *)
(* ====================================================================== *)

Module DefaultsFacts.

Import Grid.

(** The options with their [maxRows] replaced. *)
Definition with_maxRows (v : option JSArg) (o : Opts) : Opts :=
  mkOpts v (entityName o) (gridSelector o) (addButtonSelector o).

(** The options with their [containerDepth] replaced. *)
Definition with_containerDepth (v : option JSNum) (o : Form.Options)
  : Form.Options :=
  Form.mkOptions v (Form.log o).

(** [maxRows: 3] *)
Definition three_rows : option JSArg := Some (Prim (PNum three)).

Lemma containerDepthOf_falsy (o : Form.Options) (n : JSNum) :
  Form.containerDepth o = Some n -> num_truthy n = false ->
  Form.containerDepthOf (Some o) = three.
Proof.
  intros Hn Hf. unfold Form.containerDepthOf, num_or. rewrite Hn, Hf.
  reflexivity.
Qed.

Lemma containerDepthOf_truthy (options : option Form.Options) :
  num_truthy (Form.containerDepthOf options) = true.
Proof.
  unfold Form.containerDepthOf, num_or.
  destruct options as [o|]; [|reflexivity].
  destruct (Form.containerDepth o) as [n|]; [|reflexivity].
  destruct (num_truthy n) eqn:E; [exact E | reflexivity].
Qed.

Section Limit.

Variable numberOfString : string -> JSNum.
Variable exoticRows : string -> option (list Row -> nat).
Variable matchesSel : string -> option (list Control -> nat -> bool).

#[local] Abbreviation Number := (Grid.Number numberOfString).
#[local] Abbreviation MAX_ROWS := (Grid.MAX_ROWS numberOfString).
#[local] Abbreviation toggleInGrid :=
  (Grid.toggleInGrid numberOfString exoticRows matchesSel).
#[local] Abbreviation toggleAll :=
  (Grid.toggleAll numberOfString exoticRows matchesSel).
#[local] Abbreviation limitSubgridAdds :=
  (Grid.limitSubgridAdds numberOfString exoticRows matchesSel).

Lemma MAX_ROWS_falsy (o : Opts) :
  num_truthy (Number (maxRows o)) = false -> MAX_ROWS (Some o) = three.
Proof.
  intros Hf. unfold Grid.MAX_ROWS, num_or. simpl. rewrite Hf. reflexivity.
Qed.

Lemma MAX_ROWS_truthy (opts : option Opts) : num_truthy (MAX_ROWS opts) = true.
Proof.
  unfold Grid.MAX_ROWS, num_or.
  destruct (num_truthy (Number (opt_prop opts maxRows))) eqn:E;
    [exact E | reflexivity].
Qed.

Lemma toggleInGrid_depends_on_config (opts opts' : option Opts)
  (g : GridEl) :
  MAX_ROWS opts = MAX_ROWS opts' ->
  ENTITY_NAME opts = ENTITY_NAME opts' ->
  ADD_BUTTON_SELECTOR opts = ADD_BUTTON_SELECTOR opts' ->
  toggleInGrid opts g = toggleInGrid opts' g.
Proof.
  intros H1 H2 H3. unfold Grid.toggleInGrid. rewrite H1, H2, H3.
  reflexivity.
Qed.

Lemma toggleAll_depends_on_config (opts opts' : option Opts)
  (grids : list GridEl) :
  MAX_ROWS opts = MAX_ROWS opts' ->
  ENTITY_NAME opts = ENTITY_NAME opts' ->
  ADD_BUTTON_SELECTOR opts = ADD_BUTTON_SELECTOR opts' ->
  toggleAll opts grids = toggleAll opts' grids.
Proof.
  intros H1 H2 H3. induction grids as [|g tl IH]; [reflexivity|].
  cbn [Grid.toggleAll].
  rewrite (toggleInGrid_depends_on_config opts opts' g H1 H2 H3), IH.
  reflexivity.
Qed.

End Limit.




End DefaultsFacts.

(* ====================================================================== *)
(** ** What trimming removes *)
(* ====================================================================== *)

Module TrimFacts.

Import Form.

Fixpoint all_space (s : string) : bool :=
  match s with
  | EmptyString => true
  | String c r => is_space c && all_space r
  end.

Definition head_clean (s : string) : Prop :=
  match s with
  | EmptyString => True
  | String c _ => is_space c = false
  end.

Fixpoint last_char (s : string) : option ascii :=
  match s with
  | EmptyString => None
  | String c EmptyString => Some c
  | String _ r => last_char r
  end.

Definition last_clean (s : string) : Prop :=
  match last_char s with
  | Some c => is_space c = false
  | None => True
  end.

Lemma trimStart_spec (s : string) :
  exists a, s = String.append a (trimStart s)
            /\ all_space a = true /\ head_clean (trimStart s).
Proof.
  induction s as [|c r IH]; simpl.
  - exists EmptyString. repeat split.
  - destruct (is_space c) eqn:E.
    + destruct IH as (a & Ha & Hsp & Hh).
      exists (String c a). simpl. rewrite <- Ha, E, Hsp. repeat split.
      exact Hh.
    + exists EmptyString. simpl. repeat split. exact E.
Qed.

Lemma trimEnd_spec (t : string) :
  exists b, t = String.append (trimEnd t) b
            /\ all_space b = true /\ last_clean (trimEnd t).
Proof.
  induction t as [|c r IH]; simpl.
  - exists EmptyString. repeat split.
  - destruct IH as (b & Hb & Hsp & Hl).
    destruct (trimEnd r) as [|c' r'] eqn:E.
    + simpl in Hb. subst r. destruct (is_space c) eqn:Ec.
      * exists (String c b). simpl. rewrite Ec, Hsp. repeat split.
      * exists b. simpl. unfold last_clean. simpl. repeat split; assumption.
    + exists b. simpl. rewrite Hb. repeat split; assumption.
Qed.

Lemma trimEnd_head (t : string) : head_clean t -> head_clean (trimEnd t).
Proof.
  destruct t as [|c r]; simpl; [auto|]. intros Hc.
  destruct (trimEnd r); [rewrite Hc|]; exact Hc.
Qed.

(** [trim] removes a run of white space at each end and nothing else,
    and what it returns neither starts nor ends with white space. *)
Lemma trim_spec (s : string) :
  exists a b,
    s = String.append a (String.append (trim s) b)
    /\ all_space a = true /\ all_space b = true
    /\ head_clean (trim s) /\ last_clean (trim s).
Proof.
  destruct (trimStart_spec s) as (a & Ha & Hsa & Hh).
  destruct (trimEnd_spec (trimStart s)) as (b & Hb & Hsb & Hl).
  exists a, b. unfold trim. rewrite <- Hb.
  repeat split; try assumption. apply trimEnd_head. exact Hh.
Qed.

End TrimFacts.

(* ====================================================================== *)
(** ** library.grid: counting, the frame of a toggle, the marker class *)
(* ====================================================================== *)

Module GridMore.

Import Grid GridFacts.

Lemma filter_none {A : Type} (p : A -> bool) (l : list A) :
  (forall x, In x l -> p x = false) -> filter p l = [].
Proof.
  induction l as [|x tl IH]; intros H; simpl; [reflexivity|].
  rewrite (H x (or_introl eq_refl)). apply IH.
  intros y Hy. apply H. right. exact Hy.
Qed.

Section Counting.

Variable exoticRows : string -> option (list Row -> nat).

#[local] Abbreviation countRows := (Grid.countRows exoticRows).

(** X1. For a filter value that stands for itself between the quotes of
    the selector (and without a filter), [countRows] returns a count, it
    never counts more rows than the table body has, and it answers 0
    only for a table body without rows (or a grid without a table): a
    filter that matches nothing never makes the count 0. *)
Theorem countRows_bounds (g : GridEl) (F : string) :
  Form.css_plain F = true ->
  exists n,
    countRows g F = Form.Normal n
    /\ n <= List.length (tbodyRows g)
    /\ (n = 0 <-> tbodyRows g = []).
Proof.
  intros Hp. destruct (str_truthy F) eqn:HF.
  - rewrite (countRows_plain exoticRows g F HF Hp).
    eexists. split; [reflexivity|].
    assert (Hle : List.length (rowsCarrying F g) <= List.length (tbodyRows g))
      by apply filter_length_le.
    destruct (Nat.eqb (List.length (rowsCarrying F g)) 0) eqn:E.
    + split; [lia|]. split.
      * intros H. destruct (tbodyRows g); [reflexivity | discriminate].
      * intros ->. reflexivity.
    + apply Nat.eqb_neq in E. split; [exact Hle|]. split; [lia|].
      intros H. rewrite H in Hle. simpl in Hle. lia.
  - destruct F; [|discriminate]. rewrite countRows_unfiltered.
    eexists. split; [reflexivity|]. split; [lia|]. split.
    + intros H. destruct (tbodyRows g); [reflexivity | discriminate].
    + intros ->. reflexivity.
Qed.

(** X2. With a filter value that stands for itself between the quotes
    and that no row carries, every row is counted; once a single row
    carrying the filter is added only that row is counted. The count
    therefore drops from the number of rows to 1 when that row is
    added. *)
Theorem countRows_drops_at_first_match (rows : list Row) (cs : list Control)
  (F : string) :
  str_truthy F = true ->
  Form.css_plain F = true ->
  (forall r, In r rows -> carries F r = false) ->
  countRows (mkGrid (Some rows) cs) F = Form.Normal (List.length rows)
  /\ countRows (mkGrid (Some (rows ++ [mkRow (Some F)])) cs) F
     = Form.Normal 1.
Proof.
  intros HF Hp Hnone.
  rewrite !(countRows_plain exoticRows _ F HF Hp).
  unfold rowsCarrying, tbodyRows. cbn [table].
  split.
  - rewrite (filter_none _ rows Hnone). reflexivity.
  - rewrite filter_app, (filter_none _ rows Hnone). simpl.
    unfold carries. simpl. rewrite String.eqb_refl. reflexivity.
Qed.

End Counting.

Lemma countRows_bounds_witness :
  exists n,
    Grid.countRows Sample.noExoticRows (mkGrid (Some []) []) "contact"
    = Form.Normal n
    /\ n <= 0 /\ (n = 0 <-> @nil Row = []).
Proof.
  exact (countRows_bounds Sample.noExoticRows (mkGrid (Some []) [])
           "contact" eq_refl).
Defined.

Lemma countRows_drops_at_first_match_witness :
  Grid.countRows Sample.noExoticRows
    (mkGrid (Some [Sample.account; Sample.account; Sample.account]) [])
    "contact" = Form.Normal 3
  /\ Grid.countRows Sample.noExoticRows
       (mkGrid (Some ([Sample.account; Sample.account; Sample.account]
                        ++ [mkRow (Some "contact")])) []) "contact"
     = Form.Normal 1.
Proof.
  apply (countRows_drops_at_first_match Sample.noExoticRows
           [Sample.account; Sample.account; Sample.account] [] "contact").
  - reflexivity.
  - reflexivity.
  - intros r [<- | [<- | [<- | []]]]; reflexivity.
Defined.

Section Frame.

Variable numberOfString : string -> JSNum.
Variable exoticRows : string -> option (list Row -> nat).
Variable matchesSel : string -> option (list Control -> nat -> bool).

#[local] Abbreviation countRows := (Grid.countRows exoticRows).
#[local] Abbreviation MAX_ROWS := (Grid.MAX_ROWS numberOfString).
#[local] Abbreviation toggleInGrid :=
  (Grid.toggleInGrid numberOfString exoticRows matchesSel).

Lemma forEachMatched_length (m : list Control -> nat -> bool)
  (f : Control -> Control) (all l : list Control) (k : nat) :
  List.length (forEachMatched m f all k l) = List.length l.
Proof.
  revert k. induction l as [|c tl IH]; intros k; simpl; auto.
Qed.

(** X3. A toggle touches nothing but the matched controls: the table and
    the number of elements stay, and an element the button selector does
    not match is left exactly as it was. *)
Theorem toggleInGrid_frame (opts : option Opts) (g : GridEl) :
  table (after (toggleInGrid opts g) g) = table g
  /\ List.length (controls (after (toggleInGrid opts g) g))
     = List.length (controls g)
  /\ forall i m,
       matchesSel (ADD_BUTTON_SELECTOR opts) = Some m ->
       m (controls g) i = false ->
       nth_error (controls (after (toggleInGrid opts g) g)) i
       = nth_error (controls g) i.
Proof.
  destruct (toggleInGrid opts g) as [g'|e] eqn:E; cbn [after];
    [|split; [reflexivity|]; split; [reflexivity|]; reflexivity].
  destruct (toggleInGrid_normal numberOfString exoticRows matchesSel
              opts g g' E) as (rows & m & Hr & Hm & ->).
  split; [reflexivity|]. split.
  - unfold toggled. cbn [controls].
    destruct (nat_lt_num _ _); apply forEachMatched_length.
  - intros i m' Hm' Hi. assert (m' = m) by congruence. subst m'.
    rewrite toggled_nth, Hi.
    destruct (nth_error (controls g) i); reflexivity.
Qed.

Lemma marker_added (l : list string) : In "pp-show-add" (class_add "pp-show-add" l).
Proof.
  unfold class_add. destruct (existsb _ l) eqn:E.
  - apply existsb_exists in E. destruct E as (x & Hx & Heq).
    apply String.eqb_eq in Heq. subst x. exact Hx.
  - apply in_or_app. right. left. reflexivity.
Qed.

Lemma marker_removed (l : list string) :
  ~ In "pp-show-add" (class_remove "pp-show-add" l).
Proof.
  unfold class_remove. intros H. apply filter_In in H.
  destruct H as [_ H]. rewrite String.eqb_refl in H. discriminate.
Qed.

(** X4. The class the injected style rule keys on follows the row count:
    after a toggle that completed, a matched control carries
    [pp-show-add] exactly when the row count is below the limit, and in
    both cases its inline [display] has been removed. *)
Theorem toggleInGrid_marker (opts : option Opts) (g g' : GridEl)
  (rows i : nat) (m : list Control -> nat -> bool) (c : Control) :
  countRows g (ENTITY_NAME opts) = Form.Normal rows ->
  matchesSel (ADD_BUTTON_SELECTOR opts) = Some m ->
  toggleInGrid opts g = Form.Normal g' ->
  m (controls g) i = true ->
  nth_error (controls g') i = Some c ->
  (In "pp-show-add" (classList c)
     <-> nat_lt_num rows (MAX_ROWS opts) = true)
  /\ styleDisplay c = None.
Proof.
  intros Hr Hsel Ht Hm Hc.
  rewrite (toggleInGrid_steps numberOfString exoticRows matchesSel
             opts g rows m Hr Hsel) in Ht.
  injection Ht as <-. rewrite toggled_nth, Hm in Hc.
  destruct (nth_error (controls g) i) as [c0|]; [|discriminate].
  simpl in Hc. destruct (nat_lt_num _ _); injection Hc as <-; simpl.
  - split; [|reflexivity]. split; [reflexivity|]. intros _. apply marker_added.
  - split; [|reflexivity]. split; [|discriminate].
    intros H. exfalso. exact (marker_removed _ H).
Qed.

End Frame.

Lemma toggleInGrid_frame_witness :
  nth_error (controls (after (Grid.toggleInGrid Sample.notANumber
                                Sample.noExoticRows Sample.byClass
                                (Some Sample.contactOpts) Sample.contactsGrid)
                         Sample.contactsGrid)) 0
  = Some Sample.caption.
Proof.
  apply (proj2 (proj2 (toggleInGrid_frame Sample.notANumber
                         Sample.noExoticRows Sample.byClass
                         (Some Sample.contactOpts) Sample.contactsGrid))
           0 _ eq_refl).
  reflexivity.
Defined.

Lemma toggleInGrid_marker_witness :
  In "pp-show-add" (classList (showAdd Sample.addButton)).
Proof.
  apply (proj1 (toggleInGrid_marker Sample.notANumber Sample.noExoticRows
                  Sample.byClass (Some Sample.contactOpts)
                  Sample.contactsGrid _ 2 1 _ (showAdd Sample.addButton)
                  eq_refl eq_refl eq_refl eq_refl eq_refl)).
  reflexivity.
Defined.

(** X5. [showAdd] and [hideAdd] only ever add or remove the marker: every
    other class of the control is kept, none is introduced, and a class
    list without duplicates stays without duplicates. *)
Theorem marker_is_the_only_class_touched (btn : Control) (c : string) :
  c <> "pp-show-add" ->
  (In c (classList (showAdd btn)) <-> In c (classList btn))
  /\ (In c (classList (hideAdd btn)) <-> In c (classList btn))
  /\ (NoDup (classList btn) ->
      NoDup (classList (showAdd btn)) /\ NoDup (classList (hideAdd btn))).
Proof.
  intros Hc. simpl. unfold class_add, class_remove.
  refine (conj _ (conj _ _)).
  - destruct (existsb _ (classList btn)); [reflexivity|].
    rewrite in_app_iff. simpl. split; [|auto].
    intros [H | [H | []]]; [exact H | congruence].
  - rewrite filter_In. split; [tauto|]. intros H. split; [exact H|].
    apply negb_true_iff. apply String.eqb_neq. congruence.
  - intros Hnd. split; [|apply NoDup_filter; exact Hnd].
    destruct (existsb _ (classList btn)) eqn:E; [exact Hnd|].
    apply NoDup_app; [exact Hnd | repeat constructor; simpl; tauto |].
    intros a Ha [<- | []].
    assert (Hex : existsb (String.eqb "pp-show-add") (classList btn) = true).
    { apply existsb_exists. exists "pp-show-add".
      split; [exact Ha | apply String.eqb_refl]. }
    congruence.
Qed.

Lemma marker_is_the_only_class_touched_witness :
  In "create-action" (classList (hideAdd (showAdd Sample.addButton))).
Proof.
  apply (proj1 (proj2 (marker_is_the_only_class_touched
                         (showAdd Sample.addButton) "create-action"
                         ltac:(discriminate)))).
  apply (proj1 (marker_is_the_only_class_touched
                  Sample.addButton "create-action" ltac:(discriminate))).
  left. reflexivity.
Defined.

End GridMore.

(* ====================================================================== *)
(** ** library.grid: limits that are not positive integers, repeated runs *)
(* ====================================================================== *)

Module GridLimits.

Import Grid GridFacts.

Lemma inject_nat_le (q : Q) (i : nat) :
  (q <= inject_Z (Z.of_nat i))%Q
  <-> (inject_Z (Qceiling q) <= inject_Z (Z.of_nat i))%Q.
Proof.
  split; intros H.
  - rewrite <- Zle_Qle. rewrite <- (Qceiling_Z (Z.of_nat i)).
    apply Qceiling_resp_le. exact H.
  - eapply Qle_trans; [apply Qle_ceiling | exact H].
Qed.

Lemma nat_lt_num_ceiling (i : nat) (q : Q) :
  nat_lt_num i (Fin q) = nat_lt_num i (Fin (inject_Z (Qceiling q))).
Proof.
  unfold nat_lt_num. f_equal.
  destruct (Qle_bool q (inject_Z (Z.of_nat i))) eqn:E1;
    destruct (Qle_bool (inject_Z (Qceiling q)) (inject_Z (Z.of_nat i))) eqn:E2;
    try reflexivity.
  - apply Qle_bool_iff in E1. apply inject_nat_le in E1.
    apply Qle_bool_iff in E1. congruence.
  - apply Qle_bool_iff in E2. apply inject_nat_le in E2.
    apply Qle_bool_iff in E2. congruence.
Qed.

Lemma positive_is_truthy (q : Q) : (0 < q)%Q -> num_truthy (Fin q) = true.
Proof.
  intros H. simpl. apply negb_true_iff.
  destruct (Qeq_bool q 0) eqn:E; [|reflexivity].
  apply Qeq_bool_iff in E. rewrite E in H. exfalso. exact (Qlt_irrefl 0 H).
Qed.

Lemma ceiling_positive (q : Q) :
  (0 < q)%Q -> (0 < inject_Z (Qceiling q))%Q.
Proof.
  intros H. eapply Qlt_le_trans; [exact H | apply Qle_ceiling].
Qed.

Lemma grid_ext (g1 g2 : GridEl) :
  table g1 = table g2 -> controls g1 = controls g2 -> g1 = g2.
Proof. destruct g1, g2; simpl; congruence. Qed.

Section Limits.

Variable numberOfString : string -> JSNum.
Variable exoticRows : string -> option (list Row -> nat).
Variable matchesSel : string -> option (list Control -> nat -> bool).

#[local] Abbreviation countRows := (Grid.countRows exoticRows).
#[local] Abbreviation MAX_ROWS := (Grid.MAX_ROWS numberOfString).
#[local] Abbreviation toggleInGrid :=
  (Grid.toggleInGrid numberOfString exoticRows matchesSel).
#[local] Abbreviation toggleAll :=
  (Grid.toggleAll numberOfString exoticRows matchesSel).

Lemma MAX_ROWS_number (o : Opts) (n : JSNum) :
  maxRows o = Some (Prim (PNum n)) -> num_truthy n = true ->
  MAX_ROWS (Some o) = n.
Proof.
  intros Hn Ht. unfold Grid.MAX_ROWS, num_or. simpl opt_prop. rewrite Hn.
  simpl Grid.Number. rewrite Ht. reflexivity.
Qed.

(** X6. A positive limit that is not a whole number acts as the next
    whole number: with [maxRows] = q > 0 a grid is toggled exactly as
    with [maxRows] = ceiling of q (2.5 rows means 3). *)
Theorem fractional_limit_rounds_up (o : Opts) (q : Q) (g : GridEl) :
  maxRows o = Some (Prim (PNum (Fin q))) -> (0 < q)%Q ->
  toggleInGrid (Some o) g
  = toggleInGrid
      (Some (DefaultsFacts.with_maxRows
               (Some (Prim (PNum (Fin (inject_Z (Qceiling q)))))) o)) g.
Proof.
  intros Hq Hpos. unfold Grid.toggleInGrid.
  assert (H1 : MAX_ROWS (Some o) = Fin q).
  { exact (MAX_ROWS_number o _ Hq (positive_is_truthy q Hpos)). }
  assert (H2 : MAX_ROWS (Some (DefaultsFacts.with_maxRows
                   (Some (Prim (PNum (Fin (inject_Z (Qceiling q)))))) o))
               = Fin (inject_Z (Qceiling q))).
  { apply MAX_ROWS_number; [reflexivity|].
    exact (positive_is_truthy _ (ceiling_positive q Hpos)). }
  rewrite H1, H2.
  change (ENTITY_NAME (Some (DefaultsFacts.with_maxRows
            (Some (Prim (PNum (Fin (inject_Z (Qceiling q)))))) o)))
    with (ENTITY_NAME (Some o)).
  change (ADD_BUTTON_SELECTOR (Some (DefaultsFacts.with_maxRows
            (Some (Prim (PNum (Fin (inject_Z (Qceiling q)))))) o)))
    with (ADD_BUTTON_SELECTOR (Some o)).
  destruct (countRows g (ENTITY_NAME (Some o))) as [rows|e]; [|reflexivity].
  cbn [Form.cbind]. rewrite <- nat_lt_num_ceiling. reflexivity.
Qed.

(** X7. A negative limit is kept as it is (only 0 and NaN fall back to
    3), so no row count is below it: after a toggle that completed
    every matched control ends hidden, even in an empty grid. An
    infinite limit shows every matched control whatever the number of
    rows. *)
Theorem negative_limit_always_hides (o : Opts) (q : Q) (g g' : GridEl)
  (i : nat) (m : list Control -> nat -> bool) (c : Control) :
  matchesSel (ADD_BUTTON_SELECTOR (Some o)) = Some m ->
  toggleInGrid (Some o) g = Form.Normal g' ->
  m (controls g) i = true ->
  nth_error (controls g') i = Some c ->
  (maxRows o = Some (Prim (PNum (Fin q))) -> (q < 0)%Q -> hidden c)
  /\ (maxRows o = Some (Prim (PNum (Inf false))) -> shown c).
Proof.
  intros Hsel Ht Hm Hc.
  destruct (toggleInGrid_normal numberOfString exoticRows matchesSel
              (Some o) g g' Ht) as (rows & m' & Hr & Hm' & ->).
  assert (m' = m) by congruence. subst m'.
  rewrite toggled_nth, Hm in Hc.
  destruct (nth_error (controls g) i) as [c0|]; [|discriminate].
  simpl in Hc. split.
  - intros Hq Hneg.
    assert (Hnz : num_truthy (Fin q) = true).
    { simpl. apply negb_true_iff.
      destruct (Qeq_bool q 0) eqn:E; [|reflexivity].
      apply Qeq_bool_iff in E. rewrite E in Hneg.
      exfalso. exact (Qlt_irrefl 0 Hneg). }
    rewrite (MAX_ROWS_number o _ Hq Hnz) in Hc.
    assert (Hlt : nat_lt_num rows (Fin q) = false).
    { unfold nat_lt_num. apply negb_false_iff. apply Qle_bool_iff.
      apply Qle_trans with 0%Q; [apply Qlt_le_weak; exact Hneg|].
      change 0%Q with (inject_Z 0). rewrite <- Zle_Qle. lia. }
    rewrite Hlt in Hc. injection Hc as <-. apply hideAdd_hidden.
  - intros Hinf.
    rewrite (MAX_ROWS_number o _ Hinf eq_refl) in Hc.
    simpl in Hc. injection Hc as <-. apply showAdd_shown.
Qed.

(** A button selector is blind to the toggle when showing or hiding the
    controls it matches does not change which controls it matches. *)
Definition toggle_blind (sel : string) : Prop :=
  forall m, matchesSel sel = Some m ->
  forall (f : Control -> Control) (all : list Control) (i : nat),
    f = showAdd \/ f = hideAdd ->
    m (forEachMatched m f all 0 all) i = m all i.

Lemma countRows_table (g1 g2 : GridEl) (F : string) :
  table g1 = table g2 -> countRows g1 F = countRows g2 F.
Proof. intros H. unfold Grid.countRows. rewrite H. reflexivity. Qed.

(** Toggling a grid that was just toggled changes nothing. *)
Lemma toggleInGrid_again (opts : option Opts) (g g' : GridEl) :
  toggle_blind (ADD_BUTTON_SELECTOR opts) ->
  toggleInGrid opts g = Form.Normal g' ->
  toggleInGrid opts g' = Form.Normal g'.
Proof.
  intros Hblind Ht.
  destruct (toggleInGrid_normal numberOfString exoticRows matchesSel
              opts g g' Ht) as (rows & m & Hr & Hm & ->).
  assert (Hr' : countRows (toggled numberOfString opts m rows g)
                  (ENTITY_NAME opts) = Form.Normal rows).
  { rewrite <- Hr. apply countRows_table. reflexivity. }
  rewrite (toggleInGrid_steps numberOfString exoticRows matchesSel
             opts _ rows m Hr' Hm).
  f_equal. apply grid_ext; [reflexivity|].
  apply nth_error_ext. intros i.
  rewrite (toggled_nth numberOfString opts m
             (toggled numberOfString opts m rows g)).
  rewrite toggled_nth.
  assert (Hsame : m (controls (toggled numberOfString opts m rows g)) i
                  = m (controls g) i).
  { unfold toggled. cbn [controls].
    destruct (nat_lt_num _ _); apply (Hblind m Hm); auto. }
  rewrite Hsame.
  destruct (nth_error (controls g) i) as [c|]; [|reflexivity].
  cbn [option_map].
  destruct (m (controls g) i); [|reflexivity].
  destruct (nat_lt_num _ _);
    [rewrite showAdd_twice | rewrite hideAdd_twice]; reflexivity.
Qed.

(** X9. Toggling is idempotent on the whole grid: for a button selector
    that is blind to the toggle, toggling a grid that was just toggled
    changes nothing, and so does running [toggleAll] again. *)
Theorem toggleAll_idempotent (opts : option Opts) (grids : list GridEl) :
  toggle_blind (ADD_BUTTON_SELECTOR opts) ->
  toggleAll opts (fst (toggleAll opts grids)) = toggleAll opts grids.
Proof.
  intros Hblind. induction grids as [|g tl IH]; [reflexivity|].
  cbn [Grid.toggleAll].
  destruct (toggleInGrid opts g) as [g'|e] eqn:E.
  - destruct (toggleAll opts tl) as [tl' e'] eqn:Etl.
    cbn [fst] in *. cbn [Grid.toggleAll].
    rewrite (toggleInGrid_again opts g g' Hblind E), IH. reflexivity.
  - cbn [fst Grid.toggleAll]. rewrite E. reflexivity.
Qed.

End Limits.

Definition twoAndAHalf : Opts :=
  mkOpts (Sample.limit (Fin (5 # 2)%Q)) (Some "contact") None None.

Lemma fractional_limit_rounds_up_witness :
  Grid.toggleInGrid Sample.notANumber Sample.noExoticRows Sample.byClass
    (Some twoAndAHalf) Sample.contactsGrid
  = Grid.toggleInGrid Sample.notANumber Sample.noExoticRows Sample.byClass
      (Some Sample.contactOpts) Sample.contactsGrid.
Proof.
  exact (fractional_limit_rounds_up Sample.notANumber Sample.noExoticRows
           Sample.byClass twoAndAHalf (5 # 2)%Q
           Sample.contactsGrid eq_refl eq_refl).
Defined.

Lemma negative_limit_always_hides_witness :
  hidden (hideAdd Sample.addButton).
Proof.
  exact (proj1 (negative_limit_always_hides Sample.notANumber
                  Sample.noExoticRows Sample.byClass
                  (mkOpts (Sample.limit (Fin (-1 # 1)%Q)) None None None)
                  (-1 # 1)%Q
                  (mkGrid (Some []) [Sample.addButton]) _ 0 _
                  (hideAdd Sample.addButton) eq_refl eq_refl eq_refl eq_refl)
           eq_refl eq_refl).
Defined.

Lemma existsb_class_add (c m : string) (l : list string) :
  String.eqb c m = false ->
  existsb (String.eqb c) (class_add m l) = existsb (String.eqb c) l.
Proof.
  intros H. unfold class_add. destruct (existsb (String.eqb m) l);
    [reflexivity|].
  rewrite existsb_app. simpl. rewrite H. rewrite !orb_false_r. reflexivity.
Qed.

Lemma existsb_class_remove (c m : string) (l : list string) :
  String.eqb c m = false ->
  existsb (String.eqb c) (class_remove m l) = existsb (String.eqb c) l.
Proof.
  intros H. unfold class_remove.
  induction l as [|x tl IH]; simpl; [reflexivity|].
  destruct (String.eqb m x) eqn:E; simpl.
  - apply String.eqb_eq in E. subst x. rewrite H. exact IH.
  - rewrite IH. reflexivity.
Qed.

(** The sample engine looks at the class [create-action] only, which a
    toggle never touches. *)
Lemma byClass_blind (sel : string) : toggle_blind Sample.byClass sel.
Proof.
  intros m Hm f all i Hf.
  assert (m = Sample.createAction)
    by (destruct sel; [discriminate | simpl in Hm; congruence]).
  subst m. unfold Sample.createAction at 1.
  rewrite forEachMatched_nth. cbn [Nat.add]. unfold Sample.createAction.
  destruct (nth_error all i) as [c|]; cbn [option_map]; [|reflexivity].
  destruct (existsb (String.eqb "create-action") (classList c)) eqn:E;
    [|exact E].
  destruct Hf as [-> | ->]; cbn [classList showAdd hideAdd].
  - rewrite existsb_class_add by reflexivity. exact E.
  - rewrite existsb_class_remove by reflexivity. exact E.
Qed.

Lemma toggleAll_idempotent_witness :
  Grid.toggleAll Sample.notANumber Sample.noExoticRows Sample.byClass
    (Some Sample.contactOpts)
    (fst (Grid.toggleAll Sample.notANumber Sample.noExoticRows Sample.byClass
            (Some Sample.contactOpts) [Sample.contactsGrid]))
  = Grid.toggleAll Sample.notANumber Sample.noExoticRows Sample.byClass
      (Some Sample.contactOpts) [Sample.contactsGrid].
Proof.
  apply (toggleAll_idempotent Sample.notANumber Sample.noExoticRows
           Sample.byClass (Some Sample.contactOpts) [Sample.contactsGrid]).
  apply byClass_blind.
Defined.

End GridLimits.

(* ====================================================================== *)
(** ** library.grid: the injected style rule *)
(* ====================================================================== *)

Module StyleInjection.

(** A node of the document, with its id and, for a style element, its
    text. *)
Record Node : Type := mkNode {
  nodeId : string;
  styleText : option string
}.

(** The children of the head and the other elements, in document order. *)
Record Document : Type := mkDocument {
  head : list Node;
  rest : list Node
}.

Definition toggleStyleId : string := "pp-subgrid-add-toggle".

Definition toggleStyleText : string :=
  String.append
    ".entity-grid.subgrid .view-toolbar .create-action{display:none!important;}"
    ".entity-grid.subgrid .view-toolbar .create-action.pp-show-add{display:inline-flex!important;}".

(** [document.getElementById(id)], as a test. *)
Definition hasElementWithId (id : string) (d : Document) : bool :=
  existsb (fun n => String.eqb (nodeId n) id) (head d ++ rest d).

Definition injectStyleOnce (d : Document) : Document :=
  if hasElementWithId toggleStyleId d then d
  else mkDocument (head d ++ [mkNode toggleStyleId (Some toggleStyleText)])
                  (rest d).

(** The style elements of the head that carry the toggle id. *)
Definition toggleStyles (d : Document) : list Node :=
  filter (fun n => String.eqb (nodeId n) toggleStyleId) (head d).

Lemma injected_has_id (d : Document) :
  hasElementWithId toggleStyleId (injectStyleOnce d) = true.
Proof.
  unfold injectStyleOnce.
  destruct (hasElementWithId toggleStyleId d) eqn:E; [exact E|].
  unfold hasElementWithId. simpl. rewrite !existsb_app. simpl.
  rewrite orb_true_r. reflexivity.
Qed.

(** X8. The style rule is injected at most once. Injecting is
    idempotent; afterwards the document has an element with the toggle
    id; a document that had none gets exactly one style element with
    that id and the two rules as its text, appended as the last child of
    the head, whose other children and the rest of the document stay as
    they are; and a document that already has an element with that id,
    of whatever kind, is left as it is. *)
Theorem injectStyleOnce_once (d : Document) :
  injectStyleOnce (injectStyleOnce d) = injectStyleOnce d
  /\ hasElementWithId toggleStyleId (injectStyleOnce d) = true
  /\ (hasElementWithId toggleStyleId d = true -> injectStyleOnce d = d)
  /\ (hasElementWithId toggleStyleId d = false ->
      toggleStyles (injectStyleOnce d)
        = [mkNode toggleStyleId (Some toggleStyleText)]
      /\ head (injectStyleOnce d)
         = head d ++ [mkNode toggleStyleId (Some toggleStyleText)]
      /\ rest (injectStyleOnce d) = rest d).
Proof.
  refine (conj _ (conj (injected_has_id d) (conj _ _))).
  - unfold injectStyleOnce at 1. rewrite injected_has_id. reflexivity.
  - intros H. unfold injectStyleOnce. rewrite H. reflexivity.
  - intros H. unfold injectStyleOnce. rewrite H. simpl.
    split; [|split; reflexivity].
    unfold toggleStyles. simpl. rewrite filter_app.
    assert (Hnone : filter (fun n => String.eqb (nodeId n) toggleStyleId)
                      (head d) = []).
    { apply GridMore.filter_none. intros n Hn.
      destruct (String.eqb (nodeId n) toggleStyleId) eqn:E; [|reflexivity].
      unfold hasElementWithId in H.
      assert (Hex : existsb (fun n => String.eqb (nodeId n) toggleStyleId)
                      (head d ++ rest d) = true).
      { apply existsb_exists. exists n. split; [|exact E].
        apply in_or_app. left. exact Hn. }
      congruence. }
    rewrite Hnone. reflexivity.
Qed.

Lemma injectStyleOnce_once_witness :
  injectStyleOnce (mkDocument [] [mkNode "pp-subgrid-add-toggle" None])
  = mkDocument [] [mkNode "pp-subgrid-add-toggle" None]
  /\ head (injectStyleOnce
              (mkDocument [mkNode "title" None] [mkNode "main" None]))
     = [mkNode "title" None] ++ [mkNode toggleStyleId (Some toggleStyleText)].
Proof.
  split.
  - apply (proj1 (proj2 (proj2 (injectStyleOnce_once
             (mkDocument [] [mkNode "pp-subgrid-add-toggle" None]))))).
    reflexivity.
  - apply (proj1 (proj2 (proj2 (proj2 (proj2 (injectStyleOnce_once
             (mkDocument [mkNode "title" None] [mkNode "main" None]))))
             eq_refl))).
Defined.

End StyleInjection.

(* ====================================================================== *)
(** ** library.form: white space and digits in what a field reads as *)
(* ====================================================================== *)

Module ReadingMore.

Import Form CoercionFacts ValFacts TrimFacts.

Lemma trimStart_clean (t : string) : head_clean t -> trimStart t = t.
Proof.
  destruct t as [|c r]; simpl; [reflexivity|]. intros H. rewrite H.
  reflexivity.
Qed.

Lemma trimEnd_clean (t : string) : last_clean t -> trimEnd t = t.
Proof.
  unfold last_clean. induction t as [|c r IH]; [reflexivity|].
  destruct r as [|c' r'].
  - simpl. intros H. rewrite H. reflexivity.
  - intros H. change (last_char (String c (String c' r')))
      with (last_char (String c' r')) in H.
    specialize (IH H). cbn [trimEnd] in *. rewrite IH. reflexivity.
Qed.

Lemma trim_idempotent (s : string) : trim (trim s) = trim s.
Proof.
  destruct (trim_spec s) as (a & b & _ & _ & _ & Hh & Hl).
  unfold trim at 1. rewrite (trimStart_clean _ Hh). apply trimEnd_clean.
  exact Hl.
Qed.

Lemma trimStart_spaces (a t : string) :
  all_space a = true -> trimStart (String.append a t) = trimStart t.
Proof.
  induction a as [|c r IH]; simpl; [reflexivity|]. intros H.
  apply andb_true_iff in H. destruct H as [Hc Hr]. rewrite Hc. apply IH.
  exact Hr.
Qed.

Lemma trimEnd_all_space (b : string) :
  all_space b = true -> trimEnd b = EmptyString.
Proof.
  induction b as [|c r IH]; simpl; [reflexivity|]. intros H.
  apply andb_true_iff in H. destruct H as [Hc Hr]. rewrite (IH Hr), Hc.
  reflexivity.
Qed.

Lemma trimEnd_spaces (t b : string) :
  all_space b = true -> trimEnd (String.append t b) = trimEnd t.
Proof.
  intros H. induction t as [|c r IH]; simpl.
  - apply trimEnd_all_space. exact H.
  - rewrite IH. reflexivity.
Qed.

Lemma trimStart_append (t b : string) :
  head_clean t -> t <> EmptyString ->
  trimStart (String.append t b) = String.append t b.
Proof.
  destruct t as [|c r]; [congruence|]. simpl. intros H _. rewrite H.
  reflexivity.
Qed.

(** Trimming sees through white space added at both ends. *)
Lemma trim_outer_space (a s b : string) :
  all_space a = true -> all_space b = true ->
  trim (String.append a (String.append s b)) = trim s.
Proof.
  intros Ha Hb. unfold trim. rewrite (trimStart_spaces a _ Ha).
  destruct (trimStart_spec s) as (a' & Hs & Ha' & Hh).
  destruct (trimStart s) as [|c r] eqn:E.
  - (* s is white space only *)
    assert (Hall : all_space s = true).
    { rewrite Hs. clear - Ha'. induction a' as [|x tl IH]; simpl in *; auto.
      apply andb_true_iff in Ha'. destruct Ha' as [H1 H2]. rewrite H1.
      simpl. apply IH. exact H2. }
    rewrite (trimStart_spaces s b Hall).
    destruct (trimStart_spec b) as (a2 & Hb2 & _ & _).
    assert (Hrest : all_space (trimStart b) = true).
    { clear - Hb. induction b as [|x tl IH]; simpl in *; auto.
      apply andb_true_iff in Hb. destruct Hb as [H1 H2]. rewrite H1.
      apply IH. exact H2. }
    simpl. apply trimEnd_all_space. exact Hrest.
  - rewrite Hs at 1. rewrite <- E.
    assert (Happ : String.append (String.append a' (trimStart s)) b
                   = String.append a' (String.append (trimStart s) b)).
    { clear. induction a' as [|x tl IH]; simpl; [reflexivity|].
      rewrite IH. reflexivity. }
    rewrite Happ, (trimStart_spaces a' _ Ha').
    rewrite trimStart_append; [|rewrite E; exact Hh | rewrite E; discriminate].
    apply trimEnd_spaces. exact Hb.
Qed.

Section Reading.

Variable exoticGroup : string -> option (DOM -> nat -> bool).

#[local] Abbreviation val := (Form.val exoticGroup).

(** X10. White space around the content of a free-text field never
    changes what the field reads as: two fields whose values differ only
    by white space at the ends read as the same value. *)
Theorem val_ignores_outer_space (d : DOM) (i j : nat) (e1 e2 : Elem)
  (a b : string) :
  nth_error d i = Some e1 -> nth_error d j = Some e2 ->
  is_checkbox e1 = false -> is_radio e1 = false ->
  is_multi_select e1 = false ->
  is_checkbox e2 = false -> is_radio e2 = false ->
  is_multi_select e2 = false ->
  all_space a = true -> all_space b = true ->
  value e1 = String.append a (String.append (value e2) b) ->
  val d (Some i) = val d (Some j).
Proof.
  intros H1 H2 C1 R1 M1 C2 R2 M2 Ha Hb Hv.
  rewrite (val_at exoticGroup d i e1 H1), (val_at exoticGroup d j e2 H2).
  rewrite (val_other exoticGroup d e1 C1 R1 M1),
          (val_other exoticGroup d e2 C2 R2 M2).
  rewrite Hv, (trim_outer_space a (value e2) b Ha Hb). reflexivity.
Qed.

(** X11. A free-text field that holds white space only reads as the
    empty string, exactly as an empty field and as a missing element
    do. *)
Theorem val_blank_reads_empty (d : DOM) (i : nat) (el : Elem) :
  nth_error d i = Some el ->
  is_checkbox el = false -> is_radio el = false ->
  is_multi_select el = false ->
  all_space (value el) = true ->
  val d (Some i) = Normal (VScalar (SStr "")) /\ val d (Some i) = val d None.
Proof.
  intros Hel C R M Hsp.
  rewrite (val_at exoticGroup d i el Hel), (val_other exoticGroup d el C R M).
  assert (Ht : trim (value el) = "").
  { unfold trim.
    assert (Hs : all_space (trimStart (value el)) = true).
    { clear - Hsp. induction (value el) as [|x tl IH]; simpl in *; auto.
      apply andb_true_iff in Hsp. destruct Hsp as [H1 H2]. rewrite H1.
      apply IH. exact H2. }
    apply trimEnd_all_space. exact Hs. }
  rewrite Ht. split; reflexivity.
Qed.

End Reading.

Lemma val_ignores_outer_space_witness :
  Form.val SampleForm.noExotic
    [SampleForm.textInput "a" " 42 " None; SampleForm.textInput "b" "42" None]
    (Some 0)
  = Form.val SampleForm.noExotic
    [SampleForm.textInput "a" " 42 " None; SampleForm.textInput "b" "42" None]
    (Some 1).
Proof.
  apply (val_ignores_outer_space SampleForm.noExotic
           [SampleForm.textInput "a" " 42 " None;
            SampleForm.textInput "b" "42" None]
           0 1 (SampleForm.textInput "a" " 42 " None)
           (SampleForm.textInput "b" "42" None) " " " "
           eq_refl eq_refl); reflexivity.
Defined.

Lemma val_blank_reads_empty_witness :
  Form.val SampleForm.noExotic [SampleForm.textInput "a" "   " None] (Some 0)
  = Normal (VScalar (SStr "")).
Proof.
  apply (proj1 (val_blank_reads_empty SampleForm.noExotic
                  [SampleForm.textInput "a" "   " None] 0
                  (SampleForm.textInput "a" "   " None) eq_refl
                  eq_refl eq_refl eq_refl eq_refl)).
Defined.

Lemma digits_value_nonneg (s : string) (acc : Z) :
  (0 <= acc)%Z -> (0 <= digits_value acc s)%Z.
Proof.
  revert acc. induction s as [|c r IH]; intros acc H; cbn [digits_value];
    [exact H|].
  apply IH. pose proof (Nat2Z.is_nonneg (code c - 48)). lia.
Qed.

(** A Number that is neither negative nor minus zero. *)
Definition non_negative (x : IntNumber) : Prop :=
  (exists z, x = Int z /\ (0 <= z)%Z) \/ x = Infinity false.

Lemma to_double_non_negative (n : Z) :
  (0 <= n)%Z -> non_negative (to_double n).
Proof.
  intros H0. destruct (Z.ltb_spec n (2 ^ 53)) as [Hs|Hb].
  - rewrite (to_double_exact n Hs). left. exists n. split; [reflexivity|lia].
  - assert (H52 : (0 < 2 ^ 52)%Z) by (apply Z.pow_pos_nonneg; lia).
    destruct (to_double_split n Hb)
      as (q & r & h & (Hm & Hr & Hh & Hq)
          & [[Hi _] | [(_ & _ & Hi) | (_ & _ & Hi)]]);
      rewrite Hi; [right; reflexivity | left | left];
      eexists; (split; [reflexivity | nia]).
Qed.

(** X12. On a run of decimal digits [coerceNumber] reads a Number that
    is not negative: an integer from 0 up, or Infinity for a run too
    long for a double. A zero put in front does not change it, and a
    minus sign in front negates it: 007 reads as 7, -7 as the negative
    of 7, and -0 as minus zero. *)
Theorem coerceNumber_zeros_and_sign (s : string) :
  digits1 s = true ->
  exists x, non_negative x
    /\ coerceNumber s = SNum x
    /\ coerceNumber (String "0" s) = SNum x
    /\ coerceNumber (String "-" s) = SNum (negate x).
Proof.
  intros H. exists (to_double (digits_value 0 s)).
  assert (Hall : all_digits s = true) by (destruct s; [discriminate|exact H]).
  refine (conj (to_double_non_negative _ (digits_value_nonneg s 0 ltac:(lia)))
            (conj _ (conj _ _))).
  - exact (coerceNumber_literal s false _ (digits1_literal s H)).
  - unfold coerceNumber.
    assert (Hm : int_literal (String "0" s) = true).
    { rewrite int_literal_cons. simpl Ascii.eqb. cbv iota.
      cbn [digits1 all_digits]. rewrite Hall. reflexivity. }
    rewrite Hm, parseInt10_cons. reflexivity.
  - unfold coerceNumber.
    assert (Hm : int_literal (String "-" s) = true).
    { rewrite int_literal_cons. exact H. }
    rewrite Hm, parseInt10_cons. reflexivity.
Qed.

Lemma coerceNumber_zeros_and_sign_witness :
  exists x, non_negative x
    /\ coerceNumber "0" = SNum x
    /\ coerceNumber "00" = SNum x
    /\ coerceNumber "-0" = SNum (negate x).
Proof. exact (coerceNumber_zeros_and_sign "0" eq_refl). Defined.

End ReadingMore.

(* ====================================================================== *)
(** ** library.form: what clearing leaves alone, and clearing twice *)
(* ====================================================================== *)

Module ClearMore.

Import Form ValFacts ClearFacts.

(** The attributes of an element that no step of the library writes. *)
Definition static (el : Elem)
  : string * string * string * option string * bool * option nat :=
  (idAttr el, tagName el, type_ el, nameAttr el, multiple el,
   parentElement el).

(** Two documents of the same length that agree, position by position,
    on a projection of their elements. *)
Definition agree {A : Type} (proj : Elem -> A) (d d' : DOM) : Prop :=
  forall c, option_map proj (nth_error d' c) = option_map proj (nth_error d c).

Lemma agree_refl {A : Type} (proj : Elem -> A) (d : DOM) : agree proj d d.
Proof. intros c. reflexivity. Qed.

Lemma agree_trans {A : Type} (proj : Elem -> A) (d1 d2 d3 : DOM) :
  agree proj d1 d2 -> agree proj d2 d3 -> agree proj d1 d3.
Proof. intros H1 H2 c. rewrite H2. apply H1. Qed.

Lemma agree_update {A : Type} (proj : Elem -> A) (f : Elem -> Elem)
  (d : DOM) (i : nat) :
  (forall e, proj (f e) = proj e) -> agree proj d (update i f d).
Proof.
  intros Hf c. destruct (Nat.eq_dec i c) as [->|Hne].
  - rewrite update_nth_same. destruct (nth_error d c); simpl; [|reflexivity].
    rewrite Hf. reflexivity.
  - rewrite update_nth_other by assumption. reflexivity.
Qed.

Lemma agree_length {A : Type} (proj : Elem -> A) (d d' : DOM) :
  agree proj d d' -> List.length d' = List.length d.
Proof.
  intros H.
  assert (Hnone : forall c, nth_error d' c = None <-> nth_error d c = None).
  { intros c. specialize (H c).
    destruct (nth_error d' c), (nth_error d c); simpl in H;
      split; intros; congruence. }
  destruct (Nat.lt_trichotomy (List.length d') (List.length d))
    as [Hlt | [Heq | Hgt]]; [|exact Heq|].
  - exfalso. assert (Hn : nth_error d' (List.length d') = None)
      by (apply nth_error_None; lia).
    apply Hnone in Hn. apply nth_error_None in Hn. lia.
  - exfalso. assert (Hn : nth_error d (List.length d) = None)
      by (apply nth_error_None; lia).
    apply Hnone in Hn. apply nth_error_None in Hn. lia.
Qed.

(** The element at a position once the radios of a group are unchecked. *)
Lemma uncheck_all_nth (group : list nat) (d : DOM) (c : nat) :
  nth_error (uncheck_all group d) c =
    if existsb (Nat.eqb c) group
    then option_map uncheck (nth_error d c)
    else nth_error d c.
Proof.
  unfold uncheck_all. revert d.
  induction group as [|k tl IH]; intros d; simpl; [reflexivity|].
  rewrite IH. destruct (Nat.eqb c k) eqn:E.
  - apply Nat.eqb_eq in E. subst k. simpl. rewrite update_nth_same.
    destruct (existsb (Nat.eqb c) tl); destruct (nth_error d c);
      reflexivity.
  - apply Nat.eqb_neq in E. simpl.
    rewrite update_nth_other by congruence. reflexivity.
Qed.

Lemma agree_uncheck_all {A : Type} (proj : Elem -> A) (group : list nat)
  (d : DOM) :
  (forall e, proj (uncheck e) = proj e) -> agree proj d (uncheck_all group d).
Proof.
  intros Hf c. rewrite uncheck_all_nth.
  destruct (existsb (Nat.eqb c) group); [|reflexivity].
  destruct (nth_error d c); simpl; [|reflexivity]. rewrite Hf. reflexivity.
Qed.

Lemma set_value_static (e : Elem) :
  static (set_value_empty e) = static e
  /\ display (set_value_empty e) = display e.
Proof. unfold set_value_empty. destruct (is_select e); split; reflexivity. Qed.

Section Clearing.

Variable exoticGroup : string -> option (DOM -> nat -> bool).

#[local] Abbreviation resetField := (Form.resetField exoticGroup).
#[local] Abbreviation radioGroup := (Form.radioGroup exoticGroup).
#[local] Abbreviation val := (Form.val exoticGroup).

(** Every branch of the reset keeps a projection that the four field
    writes keep. *)
Lemma resetField_agree {A : Type} (proj : Elem -> A) (d d' : DOM) (i : nat)
  (el : Elem) :
  (forall e, proj (uncheck e) = proj e) ->
  (forall os e, proj (with_options os e) = proj e) ->
  (forall v e, proj (with_value v e) = proj e) ->
  resetField d i el = Normal d' -> agree proj d d'.
Proof.
  intros Hu Ho Hv. unfold Form.resetField.
  assert (Hsv : forall e, proj (set_value_empty e) = proj e).
  { intros e. unfold set_value_empty.
    destruct (is_select e); [apply Ho|apply Hv]. }
  destruct (String.eqb (toLowerCase (type_ el)) "checkbox").
  { intros H; injection H as <-. apply agree_update. exact Hu. }
  destruct (String.eqb (toLowerCase (type_ el)) "radio").
  { destruct (radioGroup d (name el)) as [group|e]; simpl; [|discriminate].
    intros H; injection H as <-. apply agree_uncheck_all. exact Hu. }
  destruct (String.eqb (toUpperCase (tagName el)) "SELECT" && multiple el).
  { intros H; injection H as <-. apply agree_update. intros e. apply Ho. }
  destruct (String.eqb (toUpperCase (tagName el)) "SELECT").
  { intros H; injection H as <-. apply agree_update. intros e.
    rewrite Hsv. unfold set_selectedIndex_none. apply Ho. }
  intros H; injection H as <-. apply agree_update. exact Hsv.
Qed.

(** X13. Resetting a field writes nothing but checked states, values and
    option selections: the number of elements and every element's id,
    tag, type, name, multiple flag, parent and display stay as they
    were; a field that is not a radio changes no element but itself; and
    a radio changes no element outside the group the query returned. *)
Theorem resetField_frame (d d' : DOM) (i : nat) (el : Elem) :
  nth_error d i = Some el ->
  resetField d i el = Normal d' ->
  List.length d' = List.length d
  /\ agree static d d'
  /\ agree display d d'
  /\ (is_checkbox el = true \/ is_radio el = false ->
      forall c, c <> i -> nth_error d' c = nth_error d c)
  /\ (is_checkbox el = false -> is_radio el = true ->
      forall group, radioGroup d (name el) = Normal group ->
      forall c, ~ In c group -> nth_error d' c = nth_error d c).
Proof.
  intros Hel Hreset.
  assert (Hst : agree static d d').
  { apply (resetField_agree static d d' i el); auto. }
  refine (conj (agree_length static d d' Hst) (conj Hst (conj _ (conj _ _)))).
  - apply (resetField_agree display d d' i el); auto.
  - intros Hkind c Hc. revert Hreset. unfold Form.resetField.
    fold (is_checkbox el). fold (is_radio el).
    destruct (is_checkbox el) eqn:C.
    { intros H; injection H as <-. apply update_nth_other. congruence. }
    destruct Hkind as [Hk | Hk]; [discriminate|]. rewrite Hk.
    destruct (String.eqb (toUpperCase (tagName el)) "SELECT" && multiple el).
    { intros H; injection H as <-. apply update_nth_other. congruence. }
    destruct (String.eqb (toUpperCase (tagName el)) "SELECT");
      intros H; injection H as <-; apply update_nth_other; congruence.
  - intros C R group Hg c Hc.
    rewrite (reset_radio exoticGroup d i el C R), Hg in Hreset.
    injection Hreset as <-. rewrite uncheck_all_nth.
    destruct (existsb (Nat.eqb c) group) eqn:E; [|reflexivity].
    exfalso. apply Hc. apply existsb_exists in E.
    destruct E as (x & Hx & Heq). apply Nat.eqb_eq in Heq. subst x. exact Hx.
Qed.

End Clearing.

Lemma resetField_frame_witness :
  nth_error (update 3 uncheck
               [ SampleForm.textInput "a" "x" None;
                 SampleForm.radio "r1" "g" "no" true;
                 SampleForm.radio "r2" "g" "yes" false;
                 SampleForm.checkbox "k" true ]) 1
  = Some (SampleForm.radio "r1" "g" "no" true).
Proof.
  apply (proj1 (proj2 (proj2 (proj2
           (resetField_frame SampleForm.noExotic
              [ SampleForm.textInput "a" "x" None;
                SampleForm.radio "r1" "g" "no" true;
                SampleForm.radio "r2" "g" "yes" false;
                SampleForm.checkbox "k" true ]
              _ 3 (SampleForm.checkbox "k" true) eq_refl eq_refl))))).
  - left. reflexivity.
  - discriminate.
Defined.

End ClearMore.

(* ====================================================================== *)
(** ** library.form: reading a field that was just cleared *)
(* ====================================================================== *)

Module ClearRoundTrip.

Import Form ValFacts ClearFacts ClearMore.

Lemma kind_static (e e' : Elem) :
  static e' = static e ->
  is_checkbox e' = is_checkbox e /\ is_radio e' = is_radio e
  /\ is_multi_select e' = is_multi_select e /\ is_select e' = is_select e
  /\ name e' = name e.
Proof.
  unfold static. intros H. injection H as H1 H2 H3 H4 H5 H6.
  unfold is_checkbox, is_radio, is_multi_select, is_select, name.
  rewrite H2, H3, H4, H5. repeat split.
Qed.

Lemma is_radio_named_static (n : string) (e e' : Elem) :
  static e' = static e -> is_radio_named n e' = is_radio_named n e.
Proof.
  unfold static. intros H. injection H as H1 H2 H3 H4 H5 H6.
  unfold is_radio_named. rewrite H2, H3, H4. reflexivity.
Qed.

Lemma agree_cons (d d' : DOM) (e : Elem) :
  agree static (e :: d) d' ->
  exists e' tl', d' = e' :: tl' /\ static e' = static e /\ agree static d tl'.
Proof.
  intros H. destruct d' as [|e' tl'].
  - specialize (H 0). discriminate H.
  - exists e', tl'. split; [reflexivity|]. split.
    + specialize (H 0). simpl in H. congruence.
    + intros c. exact (H (S c)).
Qed.

Lemma positions_agree (n : string) (d d' : DOM) (k : nat) :
  agree static d d' ->
  positions (fun _ el => is_radio_named n el) k d'
  = positions (fun _ el => is_radio_named n el) k d.
Proof.
  revert d' k. induction d as [|e tl IH]; intros d' k H.
  - destruct d' as [|e' tl']; [reflexivity|]. specialize (H 0). discriminate H.
  - destruct (agree_cons tl d' e H) as (e' & tl' & -> & Hs & Ht).
    simpl. rewrite (is_radio_named_static n e e' Hs), (IH tl' (S k) Ht).
    reflexivity.
Qed.

Lemma find_none {A : Type} (p : A -> bool) (l : list A) :
  (forall x, In x l -> p x = false) -> find p l = None.
Proof.
  induction l as [|x tl IH]; intros H; simpl; [reflexivity|].
  rewrite (H x (or_introl eq_refl)). apply IH.
  intros y Hy. apply H. right. exact Hy.
Qed.

Lemma update_idem_at (f : Elem -> Elem) (d : DOM) (i : nat) (e : Elem) :
  nth_error d i = Some e -> f (f e) = f e ->
  update i f (update i f d) = update i f d.
Proof.
  intros He Hf. apply nth_error_ext. intros c.
  destruct (Nat.eq_dec i c) as [<-|Hne].
  - rewrite !update_nth_same, He. simpl. rewrite Hf. reflexivity.
  - rewrite !update_nth_other by assumption. reflexivity.
Qed.

Lemma uncheck_all_twice (group : list nat) (d : DOM) :
  uncheck_all group (uncheck_all group d) = uncheck_all group d.
Proof.
  apply nth_error_ext. intros c. rewrite !uncheck_all_nth.
  destruct (existsb (Nat.eqb c) group); [|reflexivity].
  destruct (nth_error d c); reflexivity.
Qed.

Lemma map_deselect_select_first (v : string) (os : list OptionEl) :
  map deselect (select_first v os) = map deselect os.
Proof.
  induction os as [|o tl IH]; simpl; [reflexivity|].
  destruct (String.eqb (optValue o) v); simpl; [reflexivity|].
  rewrite IH. reflexivity.
Qed.

Lemma clear_select_twice (e : Elem) :
  is_select e = true ->
  set_value_empty (set_selectedIndex_none
                     (set_value_empty (set_selectedIndex_none e)))
  = set_value_empty (set_selectedIndex_none e).
Proof.
  intros Hs.
  assert (H1 : set_value_empty (set_selectedIndex_none e)
               = with_options
                   (select_first "" (map deselect (map deselect (options e))))
                   (set_selectedIndex_none e)).
  { unfold set_value_empty.
    replace (is_select (set_selectedIndex_none e)) with true
      by (symmetry; exact Hs).
    reflexivity. }
  rewrite H1. unfold set_value_empty at 1.
  replace (is_select _) with true by (symmetry; exact Hs).
  unfold set_selectedIndex_none, with_options. cbn [options idAttr tagName
    type_ nameAttr checked value_ multiple parentElement display].
  rewrite map_deselect_select_first, !deselect_twice. reflexivity.
Qed.

Lemma emptied_twice (e : Elem) :
  is_select e = false -> set_value_empty (set_value_empty e) = set_value_empty e.
Proof.
  intros Hs. unfold set_value_empty. rewrite Hs.
  replace (is_select (with_value (emptied e) e)) with false
    by (symmetry; exact Hs).
  reflexivity.
Qed.

(** What a field of each kind reads as when nothing is chosen or typed:
    a range input is never without a value and reads as its default, a
    color input reads as black. *)
Definition emptyReading (el : Elem) : Value :=
  if is_checkbox el then VBool false
  else if is_radio el then VScalar (SStr "")
  else if is_multi_select el then VSeq []
  else if is_select el then VScalar (SStr "")
  else if ClearValueFacts.is_range el
       then VScalar (coerceNumber (trim (rangeDefault el)))
  else if ClearValueFacts.is_color el then VScalar (SStr "#000000")
  else VScalar (SStr "").

Section RoundTrip.

Variable exoticGroup : string -> option (DOM -> nat -> bool).

#[local] Abbreviation resetField := (Form.resetField exoticGroup).
#[local] Abbreviation radioGroup := (Form.radioGroup exoticGroup).
#[local] Abbreviation val := (Form.val exoticGroup).
#[local] Abbreviation val_elem := (Form.val_elem exoticGroup).

Lemma reset_keeps_static (d d' : DOM) (i : nat) (el : Elem) :
  resetField d i el = Normal d' -> agree static d d'.
Proof. apply (resetField_agree exoticGroup static); auto. Qed.

Lemma element_after_reset (d d' : DOM) (i : nat) (el : Elem) :
  nth_error d i = Some el -> resetField d i el = Normal d' ->
  exists el', nth_error d' i = Some el' /\ static el' = static el.
Proof.
  intros Hel Hreset.
  pose proof (reset_keeps_static d d' i el Hreset) as Hst.
  specialize (Hst i). rewrite Hel in Hst.
  destruct (nth_error d' i) as [el'|]; [|discriminate].
  exists el'. split; [reflexivity|]. simpl in Hst. congruence.
Qed.

(** X14. A field that has just been reset reads as empty: false for a
    checkbox, the empty string for a radio group (none of its members is
    checked any more) and for a single select, the empty sequence for a
    multiple select; a range input reads as its coerced default value, a
    color input as #000000, and any other field as the empty string. *)
Theorem val_after_reset (d d' : DOM) (i : nat) (el : Elem) :
  nth_error d i = Some el ->
  resetField d i el = Normal d' ->
  (is_radio el = true -> css_plain (name el) = true) ->
  val d' (Some i) = Normal (emptyReading el).
Proof.
  intros Hel Hreset Hplain. unfold emptyReading.
  destruct (is_checkbox el) eqn:C.
  { rewrite (reset_checkbox exoticGroup d i el C) in Hreset.
    injection Hreset as <-.
    rewrite (val_at exoticGroup _ i (uncheck el))
      by (rewrite update_nth_same, Hel; reflexivity).
    apply (val_checkbox exoticGroup). exact C. }
  destruct (is_radio el) eqn:R.
  { destruct (element_after_reset d d' i el Hel Hreset) as (el' & Hel' & Hs).
    destruct (kind_static el el' Hs) as (C' & R' & _ & _ & Hn).
    pose proof (reset_keeps_static d d' i el Hreset) as Hst.
    rewrite (reset_radio exoticGroup d i el C R) in Hreset.
    rewrite (radioGroup_plain exoticGroup d _ (Hplain eq_refl)) in Hreset.
    simpl in Hreset. injection Hreset as Hd'.
    rewrite (val_at exoticGroup d' i el' Hel').
    rewrite (val_radio exoticGroup d' el'); [|congruence|congruence].
    rewrite Hn, (radioGroup_plain exoticGroup d' _ (Hplain eq_refl)).
    rewrite (positions_agree (name el) d d' 0 Hst). simpl.
    rewrite find_none; [reflexivity|].
    intros r Hr. rewrite <- Hd'. apply uncheck_all_unchecks. exact Hr. }
  destruct (is_multi_select el) eqn:M.
  { rewrite (reset_multi_select exoticGroup d i el C R M) in Hreset.
    injection Hreset as <-.
    rewrite (val_at exoticGroup _ i
               (with_options (map deselect (options el)) el))
      by (rewrite update_nth_same, Hel; reflexivity).
    rewrite (val_multi_select exoticGroup); [|exact C|exact R|exact M].
    unfold selectedOptions. simpl options.
    rewrite filter_selected_deselect. reflexivity. }
  destruct (is_select el) eqn:S.
  { rewrite (reset_single_select exoticGroup d i el C R M S) in Hreset.
    injection Hreset as <-.
    destruct (cleared_select el S) as [_ Hv].
    rewrite (val_at exoticGroup _ i
               (set_value_empty (set_selectedIndex_none el)))
      by (rewrite update_nth_same, Hel; reflexivity).
    assert (Hs : static (set_value_empty (set_selectedIndex_none el))
                 = static el).
    { rewrite (proj1 (set_value_static _)). reflexivity. }
    destruct (kind_static el _ Hs) as (C' & R' & M' & _ & _).
    rewrite (val_other exoticGroup); [|congruence|congruence|congruence].
    rewrite Hv. reflexivity. }
  rewrite (reset_other exoticGroup d i el C R M S) in Hreset.
  injection Hreset as <-.
  rewrite (val_at exoticGroup _ i (set_value_empty el))
    by (rewrite update_nth_same, Hel; reflexivity).
  assert (Hs : static (set_value_empty el) = static el)
    by (apply set_value_static).
  destruct (kind_static el _ Hs) as (C' & R' & M' & S' & _).
  rewrite (val_other exoticGroup); [|congruence|congruence|congruence].
  rewrite (emptied_value el S).
  destruct (ClearValueFacts.emptied_cases el) as (Hr & Hc & Ho).
  destruct (ClearValueFacts.is_range el).
  { rewrite (Hr eq_refl). reflexivity. }
  destruct (ClearValueFacts.is_color el).
  { rewrite (Hc eq_refl eq_refl). reflexivity. }
  rewrite (Ho eq_refl eq_refl). reflexivity.
Qed.

(** X15. Resetting is idempotent on the document: resetting a field that
    has just been reset leaves every element as it is. *)
Theorem resetField_twice (d d' : DOM) (i : nat) (el : Elem) :
  nth_error d i = Some el ->
  resetField d i el = Normal d' ->
  (is_radio el = true -> css_plain (name el) = true) ->
  exists el', nth_error d' i = Some el' /\ resetField d' i el' = Normal d'.
Proof.
  intros Hel Hreset Hplain.
  destruct (element_after_reset d d' i el Hel Hreset) as (el' & Hel' & Hs).
  destruct (kind_static el el' Hs) as (C' & R' & M' & S' & Hn).
  pose proof (reset_keeps_static d d' i el Hreset) as Hst.
  exists el'. split; [exact Hel'|].
  destruct (is_checkbox el) eqn:C.
  { rewrite (reset_checkbox exoticGroup d i el C) in Hreset.
    injection Hreset as <-.
    rewrite (reset_checkbox exoticGroup _ i el' C').
    rewrite (update_idem_at uncheck d i el Hel eq_refl). reflexivity. }
  destruct (is_radio el) eqn:R.
  { rewrite (reset_radio exoticGroup d i el C R) in Hreset.
    rewrite (radioGroup_plain exoticGroup d _ (Hplain eq_refl)) in Hreset.
    simpl in Hreset. injection Hreset as Hd'.
    rewrite (reset_radio exoticGroup d' i el' C' R'), Hn.
    rewrite (radioGroup_plain exoticGroup d' _ (Hplain eq_refl)).
    rewrite (positions_agree (name el) d d' 0 Hst). simpl.
    rewrite <- Hd' at 1. rewrite uncheck_all_twice, Hd'. reflexivity. }
  destruct (is_multi_select el) eqn:M.
  { rewrite (reset_multi_select exoticGroup d i el C R M) in Hreset.
    injection Hreset as <-.
    rewrite (reset_multi_select exoticGroup _ i el' C' R' M').
    rewrite (update_idem_at _ d i el Hel); [reflexivity|].
    unfold with_options. simpl. rewrite deselect_twice. reflexivity. }
  destruct (is_select el) eqn:S.
  { rewrite (reset_single_select exoticGroup d i el C R M S) in Hreset.
    injection Hreset as <-.
    rewrite (reset_single_select exoticGroup _ i el' C' R' M' S').
    rewrite (update_idem_at _ d i el Hel); [reflexivity|].
    apply clear_select_twice. exact S. }
  rewrite (reset_other exoticGroup d i el C R M S) in Hreset.
  injection Hreset as <-.
  rewrite (reset_other exoticGroup _ i el' C' R' M' S').
  rewrite (update_idem_at _ d i el Hel); [reflexivity|].
  apply emptied_twice. exact S.
Qed.

End RoundTrip.

Lemma val_after_reset_witness :
  Form.val SampleForm.noExotic
    (uncheck_all [1; 2]
       [ SampleForm.textInput "a" "x" None;
         SampleForm.radio "r1" "g" "no" true;
         SampleForm.radio "r2" "g" "yes" false ]) (Some 2)
  = Normal (VScalar (SStr ""))
  /\ Form.val SampleForm.noExotic
       (update 0 set_value_empty [SampleForm.volume]) (Some 0)
     = Normal (VScalar (SNum (Int 50))).
Proof.
  split.
  - exact (val_after_reset SampleForm.noExotic
             [ SampleForm.textInput "a" "x" None;
               SampleForm.radio "r1" "g" "no" true;
               SampleForm.radio "r2" "g" "yes" false ]
             _ 2 (SampleForm.radio "r2" "g" "yes" false)
             eq_refl eq_refl (fun _ => eq_refl)).
  - exact (val_after_reset SampleForm.noExotic [SampleForm.volume] _ 0
             SampleForm.volume eq_refl eq_refl (fun _ => eq_refl)).
Defined.

Lemma resetField_twice_witness :
  exists el',
    nth_error (update 0 (fun e => set_value_empty (set_selectedIndex_none e))
                 [SampleForm.countrySelect]) 0 = Some el'
    /\ Form.resetField SampleForm.noExotic
         (update 0 (fun e => set_value_empty (set_selectedIndex_none e))
            [SampleForm.countrySelect]) 0 el'
       = Normal (update 0
                   (fun e => set_value_empty (set_selectedIndex_none e))
                   [SampleForm.countrySelect]).
Proof.
  exact (resetField_twice SampleForm.noExotic [SampleForm.countrySelect] _ 0
           SampleForm.countrySelect eq_refl eq_refl (fun H => eq_refl)).
Defined.

End ClearRoundTrip.

(* ====================================================================== *)
(** ** library.form: the container of a target *)
(* ====================================================================== *)

Module FieldWrapMore.

Import Form.

Lemma nat_lt_num_nat (i m : nat) :
  nat_lt_num i (Fin (inject_Z (Z.of_nat m))) = Nat.ltb i m.
Proof.
  unfold nat_lt_num.
  destruct (Qle_bool (inject_Z (Z.of_nat m)) (inject_Z (Z.of_nat i))) eqn:E.
  - apply Qle_bool_iff in E. rewrite <- Zle_Qle in E.
    symmetry. apply Nat.ltb_ge. lia.
  - symmetry. apply Nat.ltb_lt.
    destruct (Nat.lt_ge_cases i m) as [H|H]; [exact H|].
    assert (Hle : Qle_bool (inject_Z (Z.of_nat m)) (inject_Z (Z.of_nat i))
                  = true).
    { apply Qle_bool_iff. rewrite <- Zle_Qle. lia. }
    congruence.
Qed.

Lemma last_cons_default {A : Type} (p c : A) (l : list A) :
  last (p :: l) c = last l p.
Proof.
  revert p c. induction l as [|x tl IH]; intros p c; [reflexivity|].
  change (last (p :: x :: tl) c) with (last (x :: tl) c).
  rewrite (IH x c), (IH x p). reflexivity.
Qed.

Lemma climb_last (d : DOM) (n i c : nat) :
  climb d n i (Fin (inject_Z (Z.of_nat (i + n)))) c
  = last (ancestors d n c) c.
Proof.
  revert i c. induction n as [|n IH]; intros i c; [reflexivity|].
  cbn [climb ancestors]. rewrite nat_lt_num_nat.
  replace (Nat.ltb i (i + S n)) with true
    by (symmetry; apply Nat.ltb_lt; lia).
  destruct (parentOf d c) as [p|]; [|reflexivity].
  replace (i + S n) with (S i + n) by lia.
  rewrite IH, last_cons_default. reflexivity.
Qed.

Lemma ancestors_length (d : DOM) (n c : nat) :
  List.length (ancestors d n c) <= n.
Proof.
  revert c. induction n as [|n IH]; intros c; simpl; [lia|].
  destruct (parentOf d c) as [p|]; simpl; [|lia].
  specialize (IH p). lia.
Qed.

(** X16. With a whole number k of hops the container is the last of the
    first k ancestors of the target: its k-th ancestor when the target
    has that many, the top of its chain when it has fewer, and the target
    itself when it has no parent or k is 0. *)
Theorem fieldWrap_kth_ancestor (d : DOM) (el k : nat) :
  fieldWrap d el (Fin (inject_Z (Z.of_nat k))) = last (ancestors d k el) el
  /\ List.length (ancestors d k el) <= k.
Proof.
  split; [|apply ancestors_length].
  unfold fieldWrap, hops. rewrite Qceiling_Z, Nat2Z.id.
  exact (climb_last d k 0 el).
Qed.

Lemma climb_same_test (d : DOM) (n i c : nat) (depth depth' : JSNum) :
  (forall j, nat_lt_num j depth = nat_lt_num j depth') ->
  climb d n i depth c = climb d n i depth' c.
Proof.
  intros H. revert i c. induction n as [|n IH]; intros i c; [reflexivity|].
  cbn [climb]. rewrite H. destruct (nat_lt_num i depth'); [|reflexivity].
  destruct (parentOf d c); [apply IH | reflexivity].
Qed.

(** X17. A depth that is not a whole number counts as the next whole
    number (2.5 hops are 3); a depth that is zero or negative, NaN or
    minus infinity leaves the target itself as the container. *)
Theorem fieldWrap_other_depths (d : DOM) (el : nat) (q : Q) :
  fieldWrap d el (Fin q) = fieldWrap d el (Fin (inject_Z (Qceiling q)))
  /\ ((q <= 0)%Q -> fieldWrap d el (Fin q) = el)
  /\ fieldWrap d el NaN = el
  /\ fieldWrap d el (Inf true) = el.
Proof.
  refine (conj _ (conj _ (conj eq_refl eq_refl))).
  - unfold fieldWrap, hops. rewrite Qceiling_Z.
    apply climb_same_test. intros j. apply GridLimits.nat_lt_num_ceiling.
  - intros Hq. unfold fieldWrap, hops.
    assert (Hc : (Qceiling q <= 0)%Z).
    { change 0%Z with (Qceiling 0). apply Qceiling_resp_le. exact Hq. }
    replace (Z.to_nat (Qceiling q)) with 0 by lia. reflexivity.
Qed.

Lemma fieldWrap_other_depths_witness :
  fieldWrap RuleFacts.twoFields 6 (Fin (-1 # 1)%Q) = 6.
Proof.
  apply (proj1 (proj2 (fieldWrap_other_depths RuleFacts.twoFields 6
                         (-1 # 1)%Q))).
  discriminate.
Defined.

End FieldWrapMore.

(* ====================================================================== *)
(** ** library.form: what the engine never touches *)
(* ====================================================================== *)

Module EngineMore.

Import Form ClearFacts StepFacts ClearMore.

(** Between two states: the same listeners, the same elements up to
    checked states, values, selections and display, and a log that only
    grew. *)
Definition calm (st st' : State) : Prop :=
  listeners st' = listeners st
  /\ agree static (dom st) (dom st')
  /\ extends st st'.

Lemma calm_refl (st : State) : calm st st.
Proof.
  split; [reflexivity|]. split; [apply agree_refl | apply extends_refl].
Qed.

Lemma calm_trans (s1 s2 s3 : State) : calm s1 s2 -> calm s2 s3 -> calm s1 s3.
Proof.
  intros (L1 & A1 & X1) (L2 & A2 & X2).
  split; [congruence|]. split.
  - eapply agree_trans; eassumption.
  - eapply extends_trans; eassumption.
Qed.

Definition keeps_calm (run : Rule -> State -> Result) : Prop :=
  forall r st st', ends_in (run r st) st' -> calm st st'.

Lemma invoke_calm (run : Rule -> State -> Result) (ls : list Listener)
  (st st' : State) :
  keeps_calm run -> invoke run ls st = Done st' -> calm st st'.
Proof.
  intros Hrun. revert st. induction ls as [|l tl IH]; intros st H; simpl in H.
  - injection H as <-. apply calm_refl.
  - destruct (run (l_rule l) st) as [s1|e s1|] eqn:E; [| |discriminate].
    + eapply calm_trans; [apply (Hrun _ _ s1 (or_introl E)) | apply IH; exact H].
    + eapply calm_trans; [|apply IH; exact H].
      apply (Hrun (l_rule l) st s1). right. exists e. exact E.
Qed.

Lemma calm_record_event (evt : string) (i : nat) (st : State) :
  calm st (record_event evt i st).
Proof.
  split; [reflexivity|]. split; [apply agree_refl|].
  exists [(evt, i)]. reflexivity.
Qed.

Lemma calm_set_display (c : nat) (v : string) (st : State) :
  calm st (set_display c v st).
Proof.
  split; [reflexivity|]. split.
  - simpl. apply agree_update. reflexivity.
  - exists []. simpl. rewrite app_nil_r. reflexivity.
Qed.

Section Engine.

Variable selects : string -> option (DOM -> nat -> bool).
Variable exoticGroup : string -> option (DOM -> nat -> bool).

#[local] Abbreviation querySelector := (Form.querySelector selects).
#[local] Abbreviation resetField := (Form.resetField exoticGroup).
#[local] Abbreviation clearValue := (Form.clearValue exoticGroup).
#[local] Abbreviation apply := (Form.apply selects exoticGroup).
#[local] Abbreviation apply_body := (Form.apply_body selects exoticGroup).
#[local] Abbreviation reapplyAll := (Form.reapplyAll selects exoticGroup).
#[local] Abbreviation nativeEvent := (Form.nativeEvent selects exoticGroup).
#[local] Abbreviation install_rule := (Form.install_rule selects exoticGroup).
#[local] Abbreviation setupConditionalFields :=
  (Form.setupConditionalFields selects exoticGroup).

Lemma resetField_static (d d' : DOM) (i : nat) (el : Elem) :
  resetField d i el = Normal d' -> agree static d d'.
Proof. apply (resetField_agree exoticGroup static); auto. Qed.

Lemma dispatchEvent_calm (run : Rule -> State -> Result) (evt : string)
  (i : nat) (st st' : State) :
  keeps_calm run -> dispatchEvent run evt i st = Done st' -> calm st st'.
Proof.
  intros Hrun H. unfold dispatchEvent, fire in H.
  eapply calm_trans; [apply calm_record_event|].
  exact (invoke_calm run _ _ _ Hrun H).
Qed.

Lemma clearValue_calm (run : Rule -> State -> Result) (el : option nat)
  (st st' : State) :
  keeps_calm run -> ends_in (clearValue run el st) st' -> calm st st'.
Proof.
  intros Hrun H. unfold Form.clearValue in H.
  destruct el as [i|];
    [|apply ends_in_Done in H; subst; apply calm_refl].
  destruct (nth_error (dom st) i) as [e|];
    [|apply ends_in_Done in H; subst; apply calm_refl].
  destruct (resetField (dom st) i e) as [d'|err] eqn:R;
    [|apply ends_in_Threw in H; subst; apply calm_refl].
  assert (C0 : calm st (with_dom d' st)).
  { split; [reflexivity|]. split.
    - exact (resetField_static _ _ _ _ R).
    - exists []. simpl. rewrite app_nil_r. reflexivity. }
  destruct (dispatchEvent run "change" i (with_dom d' st)) as [s1|e1 s1|] eqn:D1.
  - simpl in H. destruct H as [H | [e2 H]];
      [|exfalso; exact (dispatchEvent_never_throws _ _ _ _ _ _ H)].
    eapply calm_trans; [exact C0|].
    eapply calm_trans;
      [exact (dispatchEvent_calm run _ _ _ _ Hrun D1)
      |exact (dispatchEvent_calm run _ _ _ _ Hrun H)].
  - exfalso. exact (dispatchEvent_never_throws _ _ _ _ _ _ D1).
  - simpl in H. destruct H as [H | [e2 H]]; discriminate.
Qed.

Lemma apply_body_calm (depth : JSNum) (run : Rule -> State -> Result) :
  keeps_calm run -> keeps_calm (apply_body depth run).
Proof.
  intros Hrun r st st' H. unfold Form.apply_body in H.
  destruct (querySelector (dom st) (target r)) as [[t|]|e];
    [| apply ends_in_Done in H; subst; apply calm_refl
     | apply ends_in_Threw in H; subst; apply calm_refl ].
  destruct (prop "when" r) as [| b | s | f];
    try (apply ends_in_Threw in H; subst; apply calm_refl).
  destruct (f (dom st) _) as [show|e];
    [| apply ends_in_Threw in H; subst; apply calm_refl ].
  cbv zeta in H.
  destruct (negb show && truthy (prop "clearWhenHidden" r)).
  - eapply calm_trans; [apply calm_set_display|].
    exact (clearValue_calm run _ _ _ Hrun H).
  - apply ends_in_Done in H. subst. apply calm_set_display.
Qed.

Lemma apply_calm (depth : JSNum) (fuel : nat) : keeps_calm (apply depth fuel).
Proof.
  induction fuel as [|fuel IH].
  - intros r st st' [H | [e H]]; discriminate.
  - exact (apply_body_calm depth (apply depth fuel) IH).
Qed.

Lemma forEach_calm (run : Rule -> State -> Result) (rules : list Rule)
  (st st' : State) :
  keeps_calm run -> ends_in (forEach run rules st) st' -> calm st st'.
Proof.
  intros Hrun. revert st. induction rules as [|r tl IH]; intros st H; simpl in H.
  - apply ends_in_Done in H. subst. apply calm_refl.
  - destruct (run r st) as [s1|e s1|] eqn:E; simpl in H.
    + eapply calm_trans; [apply (Hrun r st s1 (or_introl E)) | apply IH; exact H].
    + apply ends_in_Threw in H. subst.
      apply (Hrun r st s1). right. exists e. exact E.
    + destruct H as [H | [e H]]; discriminate.
Qed.

(** X18. Re-evaluating rules, through reapplyAll() or through an event
    on a dependency, never attaches or removes a listener, never adds,
    removes or moves an element, and never changes an element's id, tag,
    type, name, multiple flag or parent; the log of dispatched events
    only grows at its end. *)
Theorem evaluation_keeps_the_page_shape (fuel : nat) (rules : list Rule)
  (options : option Options) (evt : string) (i : nat) (st st' : State) :
  ends_in (reapplyAll fuel rules options st) st'
  \/ nativeEvent fuel options evt i st = Done st' ->
  listeners st' = listeners st
  /\ List.length (dom st') = List.length (dom st)
  /\ agree static (dom st) (dom st')
  /\ exists l, dispatched st' = dispatched st ++ l.
Proof.
  intros H.
  assert (Hc : calm st st').
  { destruct H as [H | H].
    - exact (forEach_calm _ rules st st' (apply_calm _ fuel) H).
    - exact (invoke_calm _ _ st st' (apply_calm _ fuel) H). }
  destruct Hc as (L & A & X).
  refine (conj L (conj (agree_length static _ _ A) (conj A X))).
Qed.

End Engine.

Lemma evaluation_keeps_the_page_shape_witness :
  exists st',
    Form.reapplyAll SampleForm.byId SampleForm.noExotic 2
      [RuleFacts.showBWhenAIsOne] None SyncFacts.installed = Done st'
    /\ listeners st' = listeners SyncFacts.installed.
Proof.
  eexists. split; [reflexivity|].
  refine (proj1 (evaluation_keeps_the_page_shape SampleForm.byId
                   SampleForm.noExotic 2 [RuleFacts.showBWhenAIsOne] None
                   "change" 3 SyncFacts.installed _
                   (or_introl (or_introl eq_refl)))).
Defined.

End EngineMore.

(* ====================================================================== *)
(** ** library.form: installing rules *)
(* ====================================================================== *)

Module InstallMore.

Import Form ClearFacts StepFacts EngineMore.

Lemma add_no_listeners (st : State) : add_listeners [] st = st.
Proof. destruct st. unfold add_listeners. simpl. rewrite app_nil_r. reflexivity. Qed.

Lemma on_node_listeners_for (r : Rule) (els : list nat) (i : nat)
  (evt : string) :
  evt = "input" \/ evt = "change" ->
  map l_rule (on_node evt (listeners_for r els) i)
  = repeat r (count_occ Nat.eq_dec els i).
Proof.
  intros Hevt. unfold on_node, listeners_for.
  induction els as [|x tl IH]; [reflexivity|].
  cbn [flat_map app filter count_occ l_target l_type].
  destruct (Nat.eq_dec x i) as [->|Hne].
  - rewrite Nat.eqb_refl.
    destruct Hevt as [-> | ->]; simpl; rewrite IH; reflexivity.
  - replace (Nat.eqb x i) with false
      by (symmetry; apply Nat.eqb_neq; exact Hne).
    simpl. exact IH.
Qed.

Section Install.

Variable selects : string -> option (DOM -> nat -> bool).
Variable exoticGroup : string -> option (DOM -> nat -> bool).

#[local] Abbreviation querySelector := (Form.querySelector selects).
#[local] Abbreviation depEls := (Form.depEls selects).
#[local] Abbreviation apply := (Form.apply selects exoticGroup).
#[local] Abbreviation reapplyAll := (Form.reapplyAll selects exoticGroup).
#[local] Abbreviation install_rule := (Form.install_rule selects exoticGroup).
#[local] Abbreviation setupConditionalFields :=
  (Form.setupConditionalFields selects exoticGroup).

Lemma querySelector_error (d : DOM) (s : string) (e : Error) :
  querySelector d s = Throw e -> e = SyntaxError.
Proof.
  unfold Form.querySelector, Form.querySelectorAll.
  destruct (selects s); simpl; congruence.
Qed.

Lemma depEls_error (d : DOM) (ds : list string) (e : Error) :
  depEls d ds = Throw e -> e = SyntaxError.
Proof.
  induction ds as [|s tl IH]; simpl; [discriminate|].
  destruct (querySelector d s) as [el|e'] eqn:Q; simpl.
  - destruct (Form.depEls selects d tl) as [els|e'']; simpl;
      [discriminate|]. intros H. injection H as <-. apply IH. reflexivity.
  - intros H. injection H as <-. exact (querySelector_error d s e' Q).
Qed.

Lemma depEls_invalid (d : DOM) (ds : list string) (s : string) :
  In s ds -> selects s = None -> depEls d ds = Throw SyntaxError.
Proof.
  intros Hin Hs. induction ds as [|x tl IH]; [contradiction|]. simpl.
  destruct (querySelector d x) as [el|e] eqn:Q; simpl.
  - destruct Hin as [-> | Hin].
    + unfold Form.querySelector, Form.querySelectorAll in Q.
      rewrite Hs in Q. discriminate.
    + rewrite (IH Hin). reflexivity.
  - rewrite (querySelector_error d x e Q). reflexivity.
Qed.

Lemma depEls_length (d : DOM) (ds : list string) (els : list nat) :
  depEls d ds = Normal els -> List.length els <= List.length ds.
Proof.
  revert els. induction ds as [|s tl IH]; intros els; simpl.
  - intros H. injection H as <-. simpl. lia.
  - destruct (querySelector d s) as [el|e]; simpl; [|discriminate].
    destruct (Form.depEls selects d tl) as [els'|e]; simpl; [|discriminate].
    intros H. injection H as <-. specialize (IH els' eq_refl).
    destruct el; simpl; lia.
Qed.

(** X19. Installing a rule attaches, after the listeners already there,
    one "input" and one "change" listener for each dependency that
    resolved, in the order of the dependencies, and nothing else: however
    the initial evaluation ends, these are the listeners of the page. *)
Theorem install_rule_listeners (depth : JSNum) (fuel : nat) (r : Rule)
  (st st' : State) (els : list nat) :
  depEls (dom st) (deps_or_empty r) = Normal els ->
  ends_in (install_rule depth fuel r st) st' ->
  listeners st' = listeners st ++ listeners_for r els
  /\ List.length (listeners st')
     = List.length (listeners st) + 2 * List.length els
  /\ List.length els <= List.length (deps_or_empty r).
Proof.
  intros Hd H. unfold Form.install_rule in H. rewrite Hd in H.
  destruct (apply_calm selects exoticGroup depth fuel r _ st' H) as (L & _ & _).
  assert (Hl : listeners st' = listeners st ++ listeners_for r els).
  { rewrite L. reflexivity. }
  refine (conj Hl (conj _ (depEls_length _ _ _ Hd))).
  rewrite Hl, length_app. f_equal. unfold listeners_for.
  clear. induction els as [|x tl IH]; simpl; lia.
Qed.

(** X20. A dependency that is not a selector stops the installation of
    its rule with a SyntaxError before anything is done: no listener is
    attached, not even for the dependencies that resolved, and the rule
    is not evaluated. The rules after it are not installed either. *)
Theorem invalid_dependency_aborts (depth : JSNum) (fuel : nat) (r : Rule)
  (rest : list Rule) (options : option Options) (st : State) (s : string) :
  In s (deps_or_empty r) -> selects s = None ->
  install_rule depth fuel r st = Threw SyntaxError st
  /\ setupConditionalFields fuel (r :: rest) options st
     = Threw SyntaxError st.
Proof.
  intros Hin Hs.
  assert (H : forall depth', install_rule depth' fuel r st
                             = Threw SyntaxError st).
  { intros depth'. unfold Form.install_rule.
    rewrite (depEls_invalid (dom st) _ s Hin Hs). reflexivity. }
  split; [apply H|].
  unfold Form.setupConditionalFields. simpl. rewrite H. reflexivity.
Qed.

(** X21. A dependency element gets one listener of each type per
    occurrence among the resolved dependencies of the rule, and events
    bubble: an "input" or "change" event on an element runs the rule
    once for every occurrence of the element, and then of each of its
    ancestors, among those dependencies. Two dependencies that resolve
    to the same element make every event run the rule twice. *)
Theorem listeners_per_occurrence (r : Rule) (els : list nat) (i : nat)
  (evt : string) (d : DOM) (log : list (string * nat)) :
  evt = "input" \/ evt = "change" ->
  map l_rule (reached evt i (mkState d (listeners_for r els) log))
  = flat_map (fun node => repeat r (count_occ Nat.eq_dec els node))
             (i :: ancestors d (List.length d) i).
Proof.
  intros Hevt. unfold reached. simpl dom. simpl listeners.
  induction (i :: ancestors d (List.length d) i) as [|node tl IH];
    [reflexivity|].
  cbn [flat_map]. rewrite map_app, IH.
  rewrite (on_node_listeners_for r els node evt Hevt). reflexivity.
Qed.

(** X22. Rules without dependencies are static: installing them attaches
    no listener and does exactly what reapplyAll() does afterwards, one
    evaluation of each rule in order. *)
Theorem static_rules_install_as_reapplyAll (fuel : nat) (rules : list Rule)
  (options : option Options) (st : State) :
  (forall r, In r rules -> deps_or_empty r = []) ->
  setupConditionalFields fuel rules options st
  = reapplyAll fuel rules options st.
Proof.
  intros H. unfold Form.setupConditionalFields, Form.reapplyAll.
  revert st. induction rules as [|r tl IH]; intros st; [reflexivity|].
  simpl. unfold Form.install_rule at 1.
  rewrite (H r (or_introl eq_refl)). simpl. rewrite add_no_listeners.
  destruct (apply _ fuel r st) as [s1| |]; simpl; try reflexivity.
  apply IH. intros r' Hr'. apply H. right. exact Hr'.
Qed.

(** X23. reapplyAll() stops at the first rule whose evaluation throws:
    the rules after it are not evaluated and the exception reaches the
    caller. An event does not stop: the listener after a throwing one
    still runs, from the state the throwing one left. *)
Theorem reapplyAll_stops_where_events_go_on (fuel : nat)
  (pre post : list Rule) (r : Rule) (options : option Options)
  (st s1 s2 : State) (e : Error) :
  reapplyAll fuel pre options st = Done s1 ->
  apply (containerDepthOf options) fuel r s1 = Threw e s2 ->
  reapplyAll fuel (pre ++ r :: post) options st = Threw e s2
  /\ forall l tl, l_rule l = r ->
       invoke (apply (containerDepthOf options) fuel) (l :: tl) s1
       = invoke (apply (containerDepthOf options) fuel) tl s2.
Proof.
  unfold Form.reapplyAll. intros Hpre Hr. split.
  - revert st Hpre. induction pre as [|p tl IH]; intros st Hpre; simpl in *.
    + injection Hpre as ->. rewrite Hr. reflexivity.
    + destruct (apply _ fuel p st) as [s| |]; simpl in *; try discriminate.
      apply IH. exact Hpre.
  - intros l tl Hl. simpl. rewrite Hl, Hr. reflexivity.
Qed.

Lemma apply_completes_unheard (depth : JSNum) (fuel : nat) (r : Rule)
  (st : State) :
  listeners st = [] -> apply depth (S fuel) r st <> OutOfFuel.
Proof.
  intros Hl. simpl. unfold Form.apply_body.
  destruct (querySelector (dom st) (target r)) as [[t|]|e]; try discriminate.
  destruct (prop "when" r) as [| b | s | f]; try discriminate.
  destruct (f (dom st) _) as [show|e]; try discriminate.
  cbv zeta.
  destruct (negb show && truthy (prop "clearWhenHidden" r)); [|discriminate].
  unfold Form.clearValue.
  destruct (nth_error _ t) as [el|]; [|discriminate].
  destruct (Form.resetField exoticGroup _ t el) as [d'|err]; [|discriminate].
  unfold dispatchEvent, fire.
  rewrite reached_no_listeners by (simpl; exact Hl). simpl.
  rewrite reached_no_listeners by (simpl; exact Hl). simpl. discriminate.
Qed.

(** X24. On a page where the engine has attached no listener, as after
    installing rules without resolved dependencies, reapplyAll() always
    comes to an end: every rule evaluation returns or throws without
    re-entering the engine. *)
Theorem reapplyAll_completes_without_listeners (fuel : nat)
  (rules : list Rule) (options : option Options) (st : State) :
  listeners st = [] ->
  reapplyAll (S fuel) rules options st <> OutOfFuel.
Proof.
  unfold Form.reapplyAll. revert st.
  induction rules as [|r tl IH]; intros st Hl; [discriminate|].
  cbn [forEach].
  destruct (apply _ (S fuel) r st) as [s1|e s1|] eqn:E.
  - simpl. apply IH.
    destruct (apply_calm selects exoticGroup _ (S fuel) r st s1 (or_introl E))
      as (L & _ & _).
    rewrite L. exact Hl.
  - discriminate.
  - exfalso. exact (apply_completes_unheard _ fuel r st Hl E).
Qed.

End Install.

Lemma install_rule_listeners_witness :
  exists st',
    Form.install_rule SampleForm.byId SampleForm.noExotic three 2
      RuleFacts.showBWhenAIsOne (RuleFacts.page RuleFacts.twoFields) = Done st'
    /\ listeners st'
       = [ mkListener 3 "input" RuleFacts.showBWhenAIsOne;
           mkListener 3 "change" RuleFacts.showBWhenAIsOne ].
Proof.
  eexists. split; [reflexivity|].
  exact (proj1 (install_rule_listeners SampleForm.byId SampleForm.noExotic
                  three 2 RuleFacts.showBWhenAIsOne
                  (RuleFacts.page RuleFacts.twoFields) _ [3]
                  eq_refl (or_introl eq_refl))).
Defined.

(** A rule whose dependency is written without the leading [#]. *)
Definition misspelledDep : Rule :=
  mkRule "#b" (Some ["#a"; "a"]) [("when", JFun RuleFacts.aIsOne)].

Lemma invalid_dependency_aborts_witness :
  Form.setupConditionalFields SampleForm.byId SampleForm.noExotic 2
    [misspelledDep; RuleFacts.showBWhenAIsOne] None
    (RuleFacts.page RuleFacts.twoFields)
  = Threw SyntaxError (RuleFacts.page RuleFacts.twoFields).
Proof.
  apply (proj2 (invalid_dependency_aborts SampleForm.byId SampleForm.noExotic
                  three 2 misspelledDep [RuleFacts.showBWhenAIsOne] None
                  (RuleFacts.page RuleFacts.twoFields) "a"
                  (or_intror (or_introl eq_refl)) eq_refl)).
Defined.

Lemma listeners_per_occurrence_witness :
  map l_rule
    (reached "change" 3
       (mkState RuleFacts.twoFields
          (listeners_for RuleFacts.showBWhenAIsOne [3; 3]) []))
  = [RuleFacts.showBWhenAIsOne; RuleFacts.showBWhenAIsOne].
Proof.
  exact (listeners_per_occurrence RuleFacts.showBWhenAIsOne [3; 3] 3 "change"
           RuleFacts.twoFields [] (or_intror eq_refl)).
Defined.

Lemma static_rules_install_as_reapplyAll_witness :
  Form.setupConditionalFields SampleForm.byId SampleForm.noExotic 2
    [SyncFacts.alwaysClearC] None (RuleFacts.page SyncFacts.threeFields)
  = Form.reapplyAll SampleForm.byId SampleForm.noExotic 2
    [SyncFacts.alwaysClearC] None (RuleFacts.page SyncFacts.threeFields).
Proof.
  apply (static_rules_install_as_reapplyAll SampleForm.byId
           SampleForm.noExotic 2 [SyncFacts.alwaysClearC] None
           (RuleFacts.page SyncFacts.threeFields)).
  intros r [<- | []]. reflexivity.
Defined.

Lemma reapplyAll_stops_where_events_go_on_witness :
  Form.reapplyAll SampleForm.byId SampleForm.noExotic 2
    ([] ++ RuleFacts.declaredRule :: [RuleFacts.showBWhenAIsOne]) None
    (RuleFacts.page RuleFacts.twoFields)
  = Threw TypeError (RuleFacts.page RuleFacts.twoFields).
Proof.
  exact (proj1 (reapplyAll_stops_where_events_go_on SampleForm.byId
                  SampleForm.noExotic 2 [] [RuleFacts.showBWhenAIsOne]
                  RuleFacts.declaredRule None
                  (RuleFacts.page RuleFacts.twoFields)
                  (RuleFacts.page RuleFacts.twoFields)
                  (RuleFacts.page RuleFacts.twoFields) TypeError
                  eq_refl eq_refl)).
Defined.

Lemma reapplyAll_completes_without_listeners_witness :
  Form.reapplyAll SampleForm.byId SampleForm.noExotic 1
    [SyncFacts.alwaysClearC; RuleFacts.showBWhenAIsOne] None
    (RuleFacts.page SyncFacts.threeFields) <> OutOfFuel.
Proof.
  exact (reapplyAll_completes_without_listeners SampleForm.byId
           SampleForm.noExotic 0
           [SyncFacts.alwaysClearC; RuleFacts.showBWhenAIsOne] None
           (RuleFacts.page SyncFacts.threeFields) eq_refl).
Defined.

End InstallMore.

(* ====================================================================== *)
(** ** library.form: a rule that hears its own events *)
(* ====================================================================== *)

Module Reentry.

Import Form ValFacts ClearFacts StepFacts ClearMore EngineMore.

Lemma positions_ext {A : Type} (p q : nat -> A -> bool) (k : nat)
  (l : list A) :
  (forall i x, p i x = q i x) -> positions p k l = positions q k l.
Proof.
  intros H. revert k. induction l as [|x tl IH]; intros k; simpl;
    [reflexivity|].
  rewrite H, IH. reflexivity.
Qed.

Lemma positions_index {A : Type} (g : nat -> bool) (k : nat) (l l' : list A) :
  List.length l = List.length l' ->
  positions (fun i _ => g i) k l = positions (fun i _ => g i) k l'.
Proof.
  revert k l'. induction l as [|x tl IH]; intros k [|x' tl'] H;
    simpl in *; try discriminate; [reflexivity|].
  rewrite (IH (S k) tl') by congruence. reflexivity.
Qed.

(** The sample engine resolves a selector by ids only, so it finds the
    same element whatever the fields hold. *)
Lemma byId_static (d d' : DOM) (s : string) :
  agree static d d' ->
  Form.querySelector SampleForm.byId d' s
  = Form.querySelector SampleForm.byId d s.
Proof.
  intros H. unfold Form.querySelector, Form.querySelectorAll.
  destruct (SampleForm.byId s) as [m|] eqn:E; [|reflexivity].
  simpl. do 2 f_equal. unfold matching.
  destruct s as [|c x]; [discriminate|].
  unfold SampleForm.byId in E.
  destruct c as [[] [] [] [] [] [] [] []]; try discriminate.
  injection E as <-.
  rewrite (positions_index _ 0 d' d (agree_length static d d' H)).
  apply positions_ext. intros i _.
  specialize (H i). destruct (nth_error d' i) as [e'|], (nth_error d i) as [e|];
    simpl in H; try discriminate; [|reflexivity].
  unfold static in H. injection H as H1 _. rewrite H1. reflexivity.
Qed.

Section Loop.

Variable selects : string -> option (DOM -> nat -> bool).
Variable exoticGroup : string -> option (DOM -> nat -> bool).

#[local] Abbreviation querySelector := (Form.querySelector selects).
#[local] Abbreviation resetField := (Form.resetField exoticGroup).
#[local] Abbreviation apply := (Form.apply selects exoticGroup).

Lemma resetField_not_radio (d : DOM) (i : nat) (el : Elem) :
  is_radio el = false -> exists d', resetField d i el = Normal d'.
Proof.
  intros R. unfold Form.resetField. fold (is_radio el). rewrite R.
  destruct (String.eqb (toLowerCase (type_ el)) "checkbox");
    [eexists; reflexivity|].
  destruct (String.eqb (toUpperCase (tagName el)) "SELECT" && multiple el);
    [eexists; reflexivity|].
  destruct (String.eqb (toUpperCase (tagName el)) "SELECT");
    eexists; reflexivity.
Qed.

Variable depth : JSNum.
Variable rule : Rule.
Variable st : State.
Variable t : nat.
Variable f : RuleFun.
Variable el : Elem.

Hypothesis target_found :
  forall d', agree static (dom st) d' ->
             querySelector d' (target rule) = Normal (Some t).
Hypothesis when_is_f : prop "when" rule = JFun f.
Hypothesis always_hides : forall d' ctx, f d' ctx = Normal false.
Hypothesis clears : truthy (prop "clearWhenHidden" rule) = true.
Hypothesis target_elem : nth_error (dom st) t = Some el.
Hypothesis not_radio : is_radio el = false.
Hypothesis hears_itself : In (mkListener t "change" rule) (listeners st).

(** The states the evaluation passes through. *)
Definition reachable (s : State) : Prop :=
  listeners s = listeners st /\ agree static (dom st) (dom s).

Lemma reachable_calm (s s' : State) :
  reachable s -> calm s s' -> reachable s'.
Proof.
  intros [L A] (L' & A' & _). split; [congruence|].
  eapply agree_trans; eassumption.
Qed.

Lemma invoke_blocked (fuel : nat) (ls : list Listener) (s : State) :
  (forall s0, reachable s0 -> apply depth fuel rule s0 = OutOfFuel) ->
  reachable s -> In (mkListener t "change" rule) ls ->
  invoke (apply depth fuel) ls s = OutOfFuel.
Proof.
  intros Hloop. revert s. induction ls as [|l tl IH]; intros s Hs Hin;
    [contradiction|].
  cbn [invoke]. destruct Hin as [-> | Hin].
  - simpl l_rule. rewrite (Hloop s Hs). reflexivity.
  - destruct (apply depth fuel (l_rule l) s) as [s1|e s1|] eqn:E;
      [| |reflexivity].
    + apply IH; [|exact Hin]. apply (reachable_calm s s1 Hs).
      exact (apply_calm selects exoticGroup depth fuel _ s s1 (or_introl E)).
    + apply IH; [|exact Hin]. apply (reachable_calm s s1 Hs).
      apply (apply_calm selects exoticGroup depth fuel (l_rule l) s s1).
      right. exists e. exact E.
Qed.

Lemma loops_from_reachable (fuel : nat) (s : State) :
  reachable s -> apply depth fuel rule s = OutOfFuel.
Proof.
  revert s. induction fuel as [|fuel IH]; intros s Hs; [reflexivity|].
  cbn [Form.apply]. unfold Form.apply_body.
  rewrite (target_found (dom s) (proj2 Hs)), when_is_f, always_hides, clears.
  cbv zeta. cbn [negb andb].
  set (s1 := set_display (fieldWrap (dom s) t depth) "none" s).
  assert (Hs1 : reachable s1)
    by (apply (reachable_calm s s1 Hs), calm_set_display).
  unfold Form.clearValue.
  pose proof (proj2 Hs1 t) as Ht. rewrite target_elem in Ht.
  destruct (nth_error (dom s1) t) as [el1|]; [|discriminate].
  cbn [option_map] in Ht.
  assert (Hst : static el1 = static el) by congruence.
  destruct (ClearRoundTrip.kind_static el el1 Hst) as (_ & R1 & _).
  destruct (resetField_not_radio (dom s1) t el1) as [d' Hd'];
    [congruence|].
  rewrite Hd'.
  assert (Hs2 : reachable (record_event "change" t (with_dom d' s1))).
  { apply (reachable_calm s1 _ Hs1). split; [reflexivity|]. split.
    - exact (resetField_static exoticGroup _ _ _ _ Hd').
    - exists [("change", t)]. reflexivity. }
  unfold dispatchEvent, fire.
  rewrite (invoke_blocked fuel _ _ IH Hs2); [reflexivity|].
  unfold reached. cbn [flat_map]. apply in_or_app. left.
  unfold on_node. apply filter_In. split.
  - rewrite (proj1 Hs2). exact hears_itself.
  - simpl. rewrite Nat.eqb_refl. reflexivity.
Qed.

(** X25. A rule that always hides, clears on hide and listens on its own
    target (the target is one of its dependencies) never completes an
    evaluation: the "change" event it dispatches on the target runs the
    rule again, which dispatches the event again, and so on at every
    depth. No bound on the nesting lets the evaluation return. *)
Theorem self_triggered_rule_never_completes (fuel : nat) :
  apply depth fuel rule st = OutOfFuel.
Proof.
  apply loops_from_reachable. split; [reflexivity | apply agree_refl].
Qed.

End Loop.

(** #b depends on itself and is always hidden and cleared. *)
Definition selfRule : Rule :=
  mkRule "#b" (Some ["#b"])
         [("when", JFun (fun _ _ => Normal false));
          ("clearWhenHidden", JBool true)].

Lemma self_triggered_rule_never_completes_witness :
  Form.apply SampleForm.byId SampleForm.noExotic three 40 selfRule
    (add_listeners (listeners_for selfRule [6])
       (RuleFacts.page RuleFacts.twoFields))
  = OutOfFuel.
Proof.
  apply (self_triggered_rule_never_completes SampleForm.byId
           SampleForm.noExotic three selfRule
           (add_listeners (listeners_for selfRule [6])
              (RuleFacts.page RuleFacts.twoFields))
           6 (fun _ _ => Normal false)
           (SampleForm.textInput "b" "kept" (Some 5))).
  - intros d' H. exact (eq_trans (byId_static _ d' "#b" H) eq_refl).
  - reflexivity.
  - reflexivity.
  - reflexivity.
  - reflexivity.
  - reflexivity.
  - right. left. reflexivity.
Defined.

End Reentry.

(* ====================================================================== *)
(** ** library.form: reapplyAll and a native event *)
(* ====================================================================== *)

Module ReapplyFacts.

Import Form ClearFacts StepFacts ClearMore EngineMore InstallMore.

Lemma parentOf_static (d d' : DOM) (c : nat) :
  agree static d d' -> parentOf d' c = parentOf d c.
Proof.
  intros H. unfold parentOf. specialize (H c).
  destruct (nth_error d' c) as [e'|], (nth_error d c) as [e|];
    simpl in H; try discriminate; [|reflexivity].
  unfold static in H. congruence.
Qed.

Lemma ancestors_static (d d' : DOM) (i : nat) :
  agree static d d' ->
  ancestors d' (List.length d') i = ancestors d (List.length d) i.
Proof.
  intros H. rewrite (agree_length static d d' H).
  apply ancestors_same_tree. split.
  - exact (agree_length static d d' H).
  - intros c. exact (parentOf_static d d' c H).
Qed.

Lemma on_node_app (evt : string) (l1 l2 : list Listener) (node : nat) :
  on_node evt (l1 ++ l2) node = on_node evt l1 node ++ on_node evt l2 node.
Proof. unfold on_node. apply filter_app. Qed.

(** The rules an event on a node runs, given the elements each rule's
    listeners were attached to. *)
Lemma on_node_rules (resolved : Rule -> list nat) (rules : list Rule)
  (evt : string) (node : nat) :
  evt = "input" \/ evt = "change" ->
  map l_rule
    (on_node evt (flat_map (fun r => listeners_for r (resolved r)) rules) node)
  = flat_map (fun r => repeat r (count_occ Nat.eq_dec (resolved r) node))
             rules.
Proof.
  intros Hevt. induction rules as [|r tl IH]; [reflexivity|].
  cbn [flat_map]. rewrite on_node_app, map_app, IH.
  rewrite (on_node_listeners_for r (resolved r) node evt Hevt). reflexivity.
Qed.

Lemma flat_map_once {A : Type} (k : A -> nat) (l : list A) :
  (forall x, In x l -> k x = 1) -> flat_map (fun x => repeat x (k x)) l = l.
Proof.
  induction l as [|x tl IH]; intros H; [reflexivity|].
  cbn [flat_map]. rewrite (H x (or_introl eq_refl)). simpl.
  rewrite IH; [reflexivity|]. intros y Hy. apply H. right. exact Hy.
Qed.

Lemma flat_map_never {A : Type} (k : A -> nat) (l : list A) :
  (forall x, In x l -> k x = 0) -> flat_map (fun x => repeat x (k x)) l = [].
Proof.
  induction l as [|x tl IH]; intros H; [reflexivity|].
  cbn [flat_map]. rewrite (H x (or_introl eq_refl)). simpl.
  apply IH. intros y Hy. apply H. right. exact Hy.
Qed.

Section Reapply.

Variable selects : string -> option (DOM -> nat -> bool).
Variable exoticGroup : string -> option (DOM -> nat -> bool).

#[local] Abbreviation depEls := (Form.depEls selects).
#[local] Abbreviation apply := (Form.apply selects exoticGroup).
#[local] Abbreviation install_rule := (Form.install_rule selects exoticGroup).
#[local] Abbreviation setupConditionalFields :=
  (Form.setupConditionalFields selects exoticGroup).
#[local] Abbreviation reapplyAll := (Form.reapplyAll selects exoticGroup).
#[local] Abbreviation nativeEvent := (Form.nativeEvent selects exoticGroup).

(** The listeners a completed installation leaves: for each rule in
    turn, those of its resolved dependencies. *)
Lemma setup_listeners (depth : JSNum) (fuel : nat)
  (resolved : Rule -> list nat) (rules : list Rule) (st0 st1 : State) :
  (forall r d', In r rules -> agree static (dom st0) d' ->
     depEls d' (deps_or_empty r) = Normal (resolved r)) ->
  forEach (install_rule depth fuel) rules st0 = Done st1 ->
  listeners st1
  = listeners st0 ++ flat_map (fun r => listeners_for r (resolved r)) rules
  /\ agree static (dom st0) (dom st1).
Proof.
  revert st0. induction rules as [|r tl IH]; intros st0 Hres H.
  - simpl in H. injection H as <-. rewrite app_nil_r.
    split; [reflexivity | apply agree_refl].
  - cbn [forEach] in H.
    destruct (install_rule depth fuel r st0) as [s| |] eqn:E;
      try discriminate.
    cbn [rbind] in H. unfold Form.install_rule in E.
    rewrite (Hres r (dom st0) (or_introl eq_refl) (agree_refl _ _)) in E.
    destruct (apply_calm selects exoticGroup depth fuel r _ s (or_introl E))
      as (L & A & _).
    cbn [add_listeners listeners dom] in L, A.
    destruct (IH s) as [L1 A1].
    + intros r' d' Hr' Hd'. apply Hres; [right; exact Hr'|].
      eapply agree_trans; eassumption.
    + exact H.
    + split.
      * rewrite L1, L. cbn [flat_map]. rewrite <- app_assoc. reflexivity.
      * eapply agree_trans; eassumption.
Qed.

(** C7, as the code has it. The rules are installed on a page that has
    no listener of the engine yet, their dependencies resolve by what no
    step of the library or write of the host changes (ids, tags, types,
    names, the tree), and the host then writes checked states, values,
    selections or display without firing an event. If every rule has
    the written element exactly once among its resolved dependencies and
    none of that element's ancestors among them, and reapplyAll() raises
    no exception, then a native input or change event fired on the
    element gives exactly the result of reapplyAll(), hence the same
    final page: visibility, cleared values and dispatched events. *)
Theorem reapplyAll_matches_event (fuel : nat) (rules : list Rule)
  (options : option Options) (resolved : Rule -> list nat)
  (evt : string) (i : nat) (st0 st1 st : State) :
  evt = "input" \/ evt = "change" ->
  listeners st0 = [] ->
  (forall r d', In r rules -> agree static (dom st0) d' ->
     depEls d' (deps_or_empty r) = Normal (resolved r)) ->
  setupConditionalFields fuel rules options st0 = Done st1 ->
  (forall r, In r rules -> count_occ Nat.eq_dec (resolved r) i = 1) ->
  (forall r a, In r rules ->
     In a (ancestors (dom st0) (List.length (dom st0)) i) ->
     ~ In a (resolved r)) ->
  listeners st = listeners st1 ->
  agree static (dom st0) (dom st) ->
  (forall e s, reapplyAll fuel rules options st <> Threw e s) ->
  nativeEvent fuel options evt i st = reapplyAll fuel rules options st.
Proof.
  intros Hevt Hl0 Hres Hsetup Hone Hanc Hl Hst Hok.
  destruct (setup_listeners _ fuel resolved rules st0 st1 Hres Hsetup)
    as [L _].
  rewrite Hl0 in L. simpl in L.
  assert (Hr : map l_rule (reached evt i st) = rules).
  { unfold reached. rewrite Hl, L, (ancestors_static _ _ i Hst).
    cbn [flat_map]. rewrite map_app.
    rewrite (on_node_rules resolved rules evt i Hevt).
    rewrite (flat_map_once _ rules Hone).
    assert (Hnone : map l_rule
              (flat_map
                 (on_node evt
                    (flat_map (fun r => listeners_for r (resolved r)) rules))
                 (ancestors (dom st0) (List.length (dom st0)) i)) = []).
    { induction (ancestors (dom st0) (List.length (dom st0)) i)
        as [|a tl IH]; [reflexivity|].
      cbn [flat_map]. rewrite map_app.
      rewrite (on_node_rules resolved rules evt a Hevt).
      rewrite flat_map_never.
      - apply IH. intros r b Hr Hb. apply Hanc; [exact Hr | right; exact Hb].
      - intros r Hr. apply count_occ_not_In.
        apply Hanc; [exact Hr | left; reflexivity]. }
    rewrite Hnone. apply app_nil_r. }
  unfold Form.nativeEvent, fire, Form.reapplyAll in *.
  rewrite <- Hr in *. apply SyncFacts.invoke_forEach. exact Hok.
Qed.

End Reapply.

(** The rule of the scenario, installed on the sample page; "1" is then
    written into #a, and a change event on #a does what reapplyAll()
    does: it shows #b again. *)
Lemma reapplyAll_matches_event_witness :
  Form.nativeEvent SampleForm.byId SampleForm.noExotic 2 None "change" 3
    (SyncFacts.write 3 "1" SyncFacts.installed)
  = Form.reapplyAll SampleForm.byId SampleForm.noExotic 2
      [RuleFacts.showBWhenAIsOne] None
      (SyncFacts.write 3 "1" SyncFacts.installed).
Proof.
  apply (reapplyAll_matches_event SampleForm.byId SampleForm.noExotic 2
           [RuleFacts.showBWhenAIsOne] None (fun _ => [3]) "change" 3
           (RuleFacts.page RuleFacts.twoFields) SyncFacts.installed
           (SyncFacts.write 3 "1" SyncFacts.installed)).
  - right. reflexivity.
  - reflexivity.
  - intros r d' [<- | []] Ha. cbn [Form.depEls deps_or_empty deps
      RuleFacts.showBWhenAIsOne].
    rewrite (Reentry.byId_static _ d' "#a" Ha). reflexivity.
  - reflexivity.
  - intros r [<- | []]. reflexivity.
  - intros r a [<- | []] Ha Hin.
    destruct Hin as [<- | []].
    destruct Ha as [Ha | [Ha | [Ha | []]]]; discriminate Ha.
  - reflexivity.
  - intros c. do 7 (destruct c as [|c]; [reflexivity|]).
    destruct c; reflexivity.
  - intros e s H. vm_compute in H. discriminate H.
Defined.

End ReapplyFacts.
